(** * CityLearn: SAC learner core and EV / charger energy model

    A shallow embedding of the parts of [agent_SAC.py],
    [citylearn/electric_vehicle_charger.py] and
    [citylearn/electric_vehicle.py] that carry the replay buffer, the
    reward shaping, the target-network updates, the action squashing of
    the policies, the charger energy clamp and the state-of-charge
    adjustment of an electric vehicle.

    Numbers.  Python floats are modelled by exact numbers: rationals
    ([Q], executable) everywhere except in the policy networks, whose
    [tanh] and [exp] need the reals ([R]).  Rounding, infinities and NaN
    are outside the model.  Python integers are [Z].

    Errors.  A Python exception (IndexError, ValueError, ...) is the
    result [None]; a call that returns gives [Some]. *)

From Stdlib Require Import ZArith QArith Qround Qminmax Qabs Lia Lqa Lra Reals Permutation.
From stdpp Require Import base option list.

(* ===================================================================== *)
(** * Definitions                                                         *)
(* ===================================================================== *)

(** ** Python and numpy primitives used by the sources *)

Module PyNum.

(** [l[i]] with a Python integer index: [0 <= i < len l] is position
    [i], [-len l <= i < 0] counts from the end, anything else raises
    IndexError. *)
Definition py_index {A : Type} (l : list A) (i : Z) : option nat :=
  let n := Z.of_nat (length l) in
  if (0 <=? i)%Z && (i <? n)%Z then Some (Z.to_nat i)
  else if (- n <=? i)%Z && (i <? 0)%Z then Some (Z.to_nat (n + i))
  else None.

(** [l[-1]]: the last element, IndexError on the empty list. *)
Definition py_last {A : Type} (l : list A) : option A :=
  match py_index l (-1) with
  | Some i => l !! i
  | None => None
  end.

(** [int(x)] of a float: truncation toward zero. *)
Definition py_int (x : Q) : Z := Z.quot (Qnum x) (Zpos (Qden x)).

(** Builtin [sum] of a list of numbers. *)
Definition py_sum (l : list Q) : Q := fold_left Qplus l 0%Q.

(** Builtin [max] of a non-empty list: the first maximal element;
    ValueError on the empty list. *)
Definition py_max (l : list Q) : option Q :=
  match l with
  | [] => None
  | x :: xs => Some (fold_left (fun m y => if Qlt_le_dec m y then y else m) xs x)
  end.

(** [np.clip(x, lo, hi)] = [minimum(maximum(x, lo), hi)]. *)
Definition np_clip (x lo hi : Q) : Q := Qmin (Qmax x lo) hi.

(** [a.mean()] of a one-dimensional array.  numpy answers NaN for the
    empty array, and every comparison with NaN is false; here the
    empty mean is [0 / 0 = 0], and the source only compares the mean
    with [> 0.1], [< 0] and [> 0], which are false for [0] as well. *)
Definition np_mean (a : list Q) : Q :=
  (py_sum a / inject_Z (Z.of_nat (length a)))%Q.

(** Boolean comparisons of floats. *)
Definition Qltb (x y : Q) : bool := negb (Qle_bool y x).
Definition Qleb (x y : Q) : bool := Qle_bool x y.

End PyNum.

(** ** [class ReplayMemory] *)

Module ReplayMemory.
Import PyNum.

Section Memory.
Context {T : Type}.

(** A slot of [self.buffer] holds a transition, or the placeholder
    [None] that [push] appends before it writes. *)
Record t : Type := mk {
  capacity : Z;
  buffer : list (option T);
  position : Z
}.

(** [__init__(self, capacity)] *)
Definition init (cap : Z) : t :=
  {| capacity := cap; buffer := []; position := 0 |}.

(** [push(self, state, action, reward, next_state, done)]
<<
    if len(self.buffer) < self.capacity:
        self.buffer.append(None)
    self.buffer[self.position] = (state, action, reward, next_state, done)
    self.position = (self.position + 1) % self.capacity
>>
    The indexed store raises IndexError out of range and the
    modulo raises ZeroDivisionError for capacity 0. *)
Definition push (m : t) (x : T) : option t :=
  let buf :=
    if (Z.of_nat (length (buffer m)) <? capacity m)%Z
    then buffer m ++ [None] else buffer m in
  match py_index buf (position m) with
  | None => None
  | Some i =>
      if (capacity m =? 0)%Z then None
      else Some {| capacity := capacity m;
                   buffer := <[i := Some x]> buf;
                   position := ((position m + 1) mod capacity m)%Z |}
  end.

(** [__len__] *)
Definition len (m : t) : nat := length (buffer m).

(** A sequence of pushes, stopping at the first one that raises. *)
Fixpoint push_all (m : t) (xs : list T) : option t :=
  match xs with
  | [] => Some m
  | x :: xs' =>
      match push m x with
      | None => None
      | Some m' => push_all m' xs'
      end
  end.

(** What a run of pushes [xs] on a fresh memory of capacity [C]
    leaves: the length, the cursor, the slot of each of the [C]
    most recent pushes, and the stored slots as a rearrangement of
    those pushes. *)
Definition ring_inv (C : Z) (xs : list T) (m : t) : Prop :=
  capacity m = C /\
  Z.of_nat (length (buffer m)) = Z.min (Z.of_nat (length xs)) C /\
  position m = (Z.of_nat (length xs) mod C)%Z /\
  (forall (j : nat) (x : T),
      (Z.of_nat (length xs) - C <= Z.of_nat j)%Z -> xs !! j = Some x ->
      buffer m !! Z.to_nat (Z.of_nat j mod C) = Some (Some x)) /\
  buffer m ≡ₚ Some <$> drop (Z.to_nat (Z.of_nat (length xs) - C)) xs.

End Memory.
Arguments t : clear implicits.

(** [random.sample(population, k)] is code of the Python standard
    library, not of this repository.  Its contract is modelled:
    ValueError unless [0 <= k <= len(population)], otherwise [k]
    elements at pairwise distinct positions.  Which positions the
    library returns for a given state of its generator is not
    modelled: [rng] is not the library's generator but an index of
    the possible outcomes, and the selection below is one way, not
    the library's, to turn [rng] into [k] distinct positions (the
    [t]-th number, reduced below [n - t], selects a position of the
    pool of unchosen positions and removes it from the pool).  Every
    arrangement of [k] distinct positions is the outcome for some
    [rng], so a statement for every [rng] is a statement for every
    outcome the library call can have; the probability of an
    outcome is outside the model. *)
Fixpoint randbelows (n k : nat) (rng : nat -> nat) (i : nat) : list nat :=
  match k with
  | O => []
  | S k' => (rng i mod n)%nat :: randbelows (pred n) k' rng (S i)
  end.

Fixpoint pick (pool : list nat) (js : list nat) : list nat :=
  match js with
  | [] => []
  | j :: js' =>
      match pool !! j with
      | None => []
      | Some p => p :: pick (delete j pool) js'
      end
  end.

Definition random_sample_indices (n : nat) (k : Z) (rng : nat -> nat)
  : option (list nat) :=
  if (0 <=? k)%Z && (k <=? Z.of_nat n)%Z
  then Some (pick (seq 0 n) (randbelows n (Z.to_nat k) rng 0))
  else None.


Definition random_sample {A : Type} (population : list A) (k : Z)
    (rng : nat -> nat) : option (list A) :=
  match random_sample_indices (length population) k rng with
  | None => None
  | Some idxs => mapM (fun i => population !! i) idxs
  end.

Section Sample.
Context {St Act Rew Dn : Type}.
Abbreviation Transition := (St * Act * Rew * St * Dn)%type.

(** [zip] over the unpacked batch followed by unpacking into five
    names: the five columns of the batch.  An empty batch gives an
    empty [zip] and the unpacking raises ValueError. *)
Definition columns (batch : list Transition)
  : option (list St * list Act * list Rew * list St * list Dn) :=
  match batch with
  | [] => None
  | _ =>
      Some (map (fun tr => tr.1.1.1.1) batch,
            map (fun tr => tr.1.1.1.2) batch,
            map (fun tr => tr.1.1.2) batch,
            map (fun tr => tr.1.2) batch,
            map (fun tr => tr.2) batch)
  end.

(** [sample(self, batch_size)]
<<
    batch = random.sample(self.buffer, batch_size)
    state, action, reward, next_state, done = map(np.stack, zip( *batch))
    return state, action, reward, next_state, done
>>
    [np.stack] of equally shaped rows is the list of the rows; a
    placeholder [None] among the sampled slots makes [zip] raise
    TypeError. *)
Definition sample (m : t Transition) (batch_size : Z) (rng : nat -> nat)
  : option (list St * list Act * list Rew * list St * list Dn) :=
  match random_sample (buffer m) batch_size rng with
  | None => None
  | Some slots =>
      match mapM (M := option) (fun o : option Transition => o) slots with
      | None => None
      | Some batch => columns batch
      end
  end.
End Sample.

End ReplayMemory.

(** ** [class AutoRegressiveMemory] *)

Module AutoRegressiveMemory.

(** The buffer starts as [[0] * capacity] and then receives whatever
    is pushed (action arrays in the learner). *)
Inductive item : Type :=
| zero : item
| pushed (previous_consumption : list Q) : item.

Record t : Type := mk { buffer : list item }.

Definition init (capacity : nat) : t := {| buffer := replicate capacity zero |}.

Definition push (m : t) (previous_consumption : list Q) : t :=
  {| buffer := buffer m ++ [pushed previous_consumption] |}.

Definition len (m : t) : nat := length (buffer m).

End AutoRegressiveMemory.

(** ** Target-network updates and [class SAC] *)

Module SAC.
Import PyNum.

(** A parameter tensor is the list of its entries, and
    [module.parameters()] the list of the module's tensors. *)
Abbreviation Tensor := (list Q).
Abbreviation Params := (list (list Q)).

(** [soft_update(target, source, tau)]
<<
    for target_param, param in zip(target.parameters(), source.parameters()):
        target_param.data.copy_(target_param.data * (1.0 - tau) + param.data * tau)
>>
    [zip] stops at the shorter list, so target tensors without a
    partner keep their value.  The arithmetic is entrywise.  On two
    tensors of different shapes torch broadcasts a one-entry source
    and raises otherwise, where the model stops at the shorter
    tensor: the model is the code on parameter lists of the same
    shape ([same_shape] below), and the learner only pairs networks
    built with the same layer sizes. *)
Fixpoint soft_update (target source : Params) (tau : Q) : Params :=
  match target, source with
  | target_param :: target', param :: source' =>
      zip_with (fun t p => (t * (1 - tau) + p * tau)%Q) target_param param
        :: soft_update target' source' tau
  | _, _ => target
  end.

(** [hard_update(target, source)]
<<
    for target_param, param in zip(target.parameters(), source.parameters()):
        target_param.data.copy_(param.data)
>>
    As for [soft_update], the model is the code on parameter lists
    of the same shape. *)
Fixpoint hard_update (target source : Params) : Params :=
  match target, source with
  | target_param :: target', param :: source' =>
      zip_with (fun _ p => p) target_param param :: hard_update target' source'
  | _, _ => target
  end.

(** Two parameter lists of the same architecture. *)
Definition same_shape (a b : Params) : Prop :=
  Forall2 (fun x y : Tensor => length x = length y) a b.

(** [module.load_state_dict(torch.load(path))]: the stored tensors
    replace the module's; a missing file or tensors of other shapes
    raise. *)
Definition load_state_dict (current : Params) (stored : option Params)
  : option Params :=
  match stored with
  | None => None
  | Some p =>
      if decide (map length p = map length current) then Some p else None
  end.

Abbreviation Transition := (list Q * list Q * Q * list Q * bool)%type.

(** The attributes of the learner that the modelled methods read or
    write. *)
Record t : Type := mk {
  evaluate : bool;
  continue_training : bool;
  lr : Q;
  gamma : Q;
  tau : Q;
  alpha : Q;
  replay_size : Z;
  batch_size : Z;
  target_update_interval : Z;
  critic : Params;
  critic_target : Params;
  policy : Params;
  action_tracker : list (list Q);
  reward_tracker : list Q;
  memory : ReplayMemory.t Transition;
  autoregressive_action_memory : AutoRegressiveMemory.t;
  sw4 : Q;
  sw5 : Q;
  sw6 : Q;
  sw7 : Q;
  day_list : list Q
}.

(** [__init__].  [critic0], [target0] and [policy0] are the freshly
    initialised (random) parameters of the three networks;
    [stored_actor] and [stored_critic] are the contents of the files
    [alg/sac_actor] and [alg/sac_critic], if present.  The statements
    are in the order of the source: the hard update of the target
    comes first, [load_model] after the policy is built. *)
Definition init (critic0 target0 policy0 : Params)
    (evaluate continue_training : bool)
    (stored_actor stored_critic : option Params) : option t :=
  let critic := critic0 in
  let critic_target := hard_update target0 critic in
  let loaded :=
    if continue_training then
      match load_state_dict policy0 stored_actor with
      | None => None
      | Some policy =>
          match load_state_dict critic stored_critic with
          | None => None
          | Some critic' => Some (policy, critic')
          end
      end
    else Some (policy0, critic) in
  match loaded with
  | None => None
  | Some (policy, critic) =>
      Some {| evaluate := evaluate;
              continue_training := continue_training;
              lr := 0.0001;
              gamma := 0.9;
              tau := 0.003;
              alpha := 0.2;
              replay_size := 2000000;
              batch_size := 2048;
              target_update_interval := 1;
              critic := critic;
              critic_target := critic_target;
              policy := policy;
              action_tracker := [];
              reward_tracker := [];
              memory := ReplayMemory.init 2000000;
              autoregressive_action_memory := AutoRegressiveMemory.init 1;
              sw4 := 0.5;
              sw5 := 1;
              sw6 := -1 / 2;
              sw7 := 2;
              day_list := replicate 24 0%Q |}
  end.

(** The action-inactivity term of [add_to_buffer]:
    [sum([1 if not 0.001 > x > -0.001 else -10 for x in actions])]. *)
Definition penal_of (actions : list Q) : Q :=
  py_sum (map (fun x => if negb (Qltb x 0.001 && Qltb (-0.001) x)
                        then 1%Q else (-10)%Q) actions).

(** The hour-of-day term of [add_to_buffer]:
    [hr_pen = night_charging_boost + day_charging_pen]. *)
Definition hr_pen_of (hour mean : Q) : Q :=
  let night_charging_boost :=
    if ((Qleb 1 hour && Qltb hour 12) || (Qleb 22 hour && Qleb hour 24))
       && Qltb 0.1 mean then 1%Q
    else if ((Qleb 1 hour && Qltb hour 8) || (Qleb 22 hour && Qleb hour 24))
            && Qltb mean 0 then (-1)%Q
    else 0%Q in
  let day_charging_pen :=
    if (Qleb 12 hour && Qltb hour 20) && Qltb 0 mean then (-1)%Q else 0%Q in
  (night_charging_boost + day_charging_pen)%Q.

(** The daily-peak tracker of [add_to_buffer]:
<<
    hr_index = int(states[2]) - 1
    if hr_index == 0:
        max_peak = max(self.day_list)
        self.day_list = [0]*24
        self.day_list[hr_index] = self.env.net_electric_consumption[-1]
    else:
        self.day_list[hr_index] = self.env.net_electric_consumption[-1]
        max_peak = max(self.day_list)
>>
    The result is [max_peak] and the new [day_list]. *)
Definition track_peak (day_list : list Q) (hr_index : Z)
    (net_electric_consumption : list Q) : option (Q * list Q) :=
  if (hr_index =? 0)%Z then
    match py_max day_list with
    | None => None
    | Some max_peak =>
        let fresh := replicate 24 0%Q in
        match py_index fresh hr_index, py_last net_electric_consumption with
        | Some i, Some c => Some (max_peak, <[i := c]> fresh)
        | _, _ => None
        end
    end
  else
    match py_index day_list hr_index, py_last net_electric_consumption with
    | Some i, Some c =>
        let day_list' := <[i := c]> day_list in
        match py_max day_list' with
        | None => None
        | Some max_peak => Some (max_peak, day_list')
        end
    | _, _ => None
    end.

(** [add_to_buffer(self, states, actions, rewards, next_states, dones)];
    [net_electric_consumption] is the series
    [self.env.net_electric_consumption] of the environment at the
    call.  The result is the learner after the call and the returned
    tuple [(total_rewards, rewards * sw5, penal * sw4,
    max_peak/50 * sw6, hr_pen * sw7)]. *)
Definition add_to_buffer (self : t) (net_electric_consumption : list Q)
    (states actions : list Q) (rewards : Q) (next_states : list Q)
    (dones : bool) : option (t * (Q * Q * Q * Q * Q)) :=
  let rewards := np_clip (rewards / 5) (-1) 1 in
  let penal := penal_of actions in
  match states !! 2%nat with
  | None => None
  | Some hour =>
      let hr_pen := hr_pen_of hour (np_mean actions) in
      let hr_index := (py_int hour - 1)%Z in
      match track_peak (day_list self) hr_index net_electric_consumption with
      | None => None
      | Some (max_peak, day_list') =>
          let total_rewards :=
            ((penal * sw4 self) + (rewards * sw5 self)
             + (max_peak / 50 * sw6 self) + (hr_pen * sw7 self))%Q in
          let norm_rewards := total_rewards in
          match ReplayMemory.push (memory self)
                  (states, actions, norm_rewards, next_states, dones) with
          | None => None
          | Some memory' =>
              Some ({| evaluate := evaluate self;
                       continue_training := continue_training self;
                       lr := lr self;
                       gamma := gamma self;
                       tau := tau self;
                       alpha := alpha self;
                       replay_size := replay_size self;
                       batch_size := batch_size self;
                       target_update_interval := target_update_interval self;
                       critic := critic self;
                       critic_target := critic_target self;
                       policy := policy self;
                       action_tracker := action_tracker self;
                       reward_tracker := reward_tracker self ++ [norm_rewards];
                       memory := memory';
                       autoregressive_action_memory :=
                         AutoRegressiveMemory.push
                           (autoregressive_action_memory self) actions;
                       sw4 := sw4 self;
                       sw5 := sw5 self;
                       sw6 := sw6 self;
                       sw7 := sw7 self;
                       day_list := day_list' |},
                    (total_rewards, rewards * sw5 self, penal * sw4 self,
                     max_peak / 50 * sw6 self, hr_pen * sw7 self)%Q)
          end
      end
  end.

(** What the constructor establishes and [add_to_buffer] keeps: the
    shaping weights, the 24 hourly slots and a replay memory whose
    cursor is inside the ring. *)
Definition wf (self : t) : Prop :=
  sw4 self = 0.5%Q /\ sw5 self = 1%Q /\ sw6 self = (-1 / 2)%Q /\ sw7 self = 2%Q /\
  length (day_list self) = 24%nat /\
  (0 <= ReplayMemory.position (memory self)
     < ReplayMemory.capacity (memory self))%Z /\
  (ReplayMemory.position (memory self)
     <= Z.of_nat (length (ReplayMemory.buffer (memory self))))%Z.

(** The words of the specification for the two shaped terms that
    depend on the call's arguments only. *)
Definition spec_clipped_reward (raw : Q) : Q :=
  let x := (raw / 5)%Q in
  if Qlt_le_dec x (-1) then (-1)%Q else if Qlt_le_dec 1 x then 1%Q else x.

Definition spec_penalty (actions : list Q) : Q :=
  py_sum (map (fun a => if Qlt_le_dec (Qabs a) 0.001 then (-10)%Q else 1%Q)
            actions).

End SAC.

(** ** The battery interface of [citylearn.energy_model] *)

Module Energy.
Import PyNum.

(** [citylearn/energy_model.py] is not among the sources.  The charger
    and the vehicle use a [Battery] through the attributes and the
    two mutators below; they are taken as an interface.  The one law
    is the behaviour that the charger relies on when it reads
    [electricity_consumption[-1]] after a charge. *)
Class Battery (B : Type) : Type := {
  capacity : B -> Q;
  soc : B -> list Q;
  initial_soc : B -> Q;
  electricity_consumption : B -> list Q;
  charge : B -> Q -> B;
  set_ad_hoc_charge : B -> Q -> B;
  charge_records :
    forall (b : B) (energy : Q), electricity_consumption (charge b energy) <> []
}.

(** Builtin [min] and [max] of two numbers: the first argument unless
    the second is strictly smaller (larger). *)
Definition py_min2 (a b : Q) : Q := if Qltb b a then b else a.
Definition py_max2 (a b : Q) : Q := if Qltb a b then b else a.

(** [l[i] = x] for a non-negative index: IndexError out of range. *)
Definition list_set {A : Type} (l : list A) (i : nat) (x : A) : option (list A) :=
  if decide (i < length l)%nat then Some (<[i := x]> l) else None.

(** Modelled from the spec: the [Battery] class itself, "capacity
    (kWh), current SoC (scalar, bounded [0, capacity]) ... mutated
    only through a charge(energy) operation that clips to physical
    bounds and records electricity consumption", whose [reset]
    "restores initial SoC".  The state of charge of the current step
    is the last entry of the series; a charge moves it by the energy,
    clipped into [0, capacity], and appends the realised change to
    the consumption series.  The ad-hoc adjustment sets the state of
    charge directly, without consumption. *)
Record SimpleBattery : Type := mkSimpleBattery {
  sb_capacity : Q;
  sb_initial_soc : Q;
  sb_soc : list Q;
  sb_electricity_consumption : list Q
}.

Definition sb_current (b : SimpleBattery) : Q :=
  match py_last (sb_soc b) with Some s => s | None => sb_initial_soc b end.

Definition sb_charge (b : SimpleBattery) (energy : Q) : SimpleBattery :=
  let now := sb_current b in
  let new := np_clip (now + energy) 0 (sb_capacity b) in
  {| sb_capacity := sb_capacity b;
     sb_initial_soc := sb_initial_soc b;
     sb_soc := <[pred (length (sb_soc b)) := new]> (sb_soc b);
     sb_electricity_consumption := sb_electricity_consumption b ++ [(new - now)%Q] |}.

Definition sb_set_ad_hoc_charge (b : SimpleBattery) (energy : Q) : SimpleBattery :=
  let new := np_clip (sb_current b + energy) 0 (sb_capacity b) in
  {| sb_capacity := sb_capacity b;
     sb_initial_soc := sb_initial_soc b;
     sb_soc := <[pred (length (sb_soc b)) := new]> (sb_soc b);
     sb_electricity_consumption := sb_electricity_consumption b |}.

#[global] Instance SimpleBattery_Battery : Battery SimpleBattery := {
  capacity := sb_capacity;
  soc := sb_soc;
  initial_soc := sb_initial_soc;
  electricity_consumption := sb_electricity_consumption;
  charge := sb_charge;
  set_ad_hoc_charge := sb_set_ad_hoc_charge;
  charge_records := fun b energy E => app_cons_not_nil _ [] _ (eq_sym E)
}.

End Energy.

(** ** [class electric_vehicle] *)

Module electric_vehicle.
Import PyNum Energy.

(** The columns of [EVSimulation] that the modelled methods read. *)
Record EVSimulation : Type := mkEVSimulation {
  ev_charger_state : list Z;
  ev_required_soc_departure : list Q;
  ev_estimated_soc_arrival : list Q
}.

Section Vehicle.
Context {B : Type} `{Battery B}.

Record t : Type := mk {
  ev_simulation : EVSimulation;
  time_step : nat;
  battery : B;
  aux_battery : B;
  min_battery_soc : Z
}.

(** The local variables of [adjust_ev_soc_on_system_connection]. *)
Record adjustment : Type := mk_adjustment {
  soc_init_kwh : Q;
  aux_soc_init_kwh : Q;
  soc_system_connection_kwh : Q;
  aux_soc_system_connection_kwh : Q;
  variation_percentage : Q;
  variation_kwh : Q;
  aux_variation_kwh : Q;
  soc_final_kwh : Q;
  aux_soc_final_kwh : Q
}.

(** The body of [adjust_ev_soc_on_system_connection] up to the two
    calls of [set_ad_hoc_charge]; [normal_draw] is the value of
    [np.random.normal(0, 0.1)].
<<
    soc_init_kwh = self.battery.initial_soc
    aux_soc_init_kwh = self.aux_battery.initial_soc
    soc_system_connection_kwh = self.battery.capacity * (soc_system_connection / 100)
    aux_soc_system_connection_kwh = self.aux_battery.capacity * (soc_system_connection / 100)
    variation_percentage = np.clip(np.random.normal(0, 0.1), -0.2, 0.2)
    variation_kwh = variation_percentage * soc_system_connection_kwh
    aux_variation_kwh = variation_percentage * aux_soc_system_connection_kwh
    soc_final_kwh = soc_system_connection_kwh + variation_kwh
    aux_soc_final_kwh = aux_soc_system_connection_kwh + aux_variation_kwh
>>
*)
Definition adjust_locals (self : t) (soc_system_connection normal_draw : Q)
  : adjustment :=
  let soc_init_kwh := initial_soc (battery self) in
  let aux_soc_init_kwh := initial_soc (aux_battery self) in
  let soc_system_connection_kwh :=
    (capacity (battery self) * (soc_system_connection / 100))%Q in
  let aux_soc_system_connection_kwh :=
    (capacity (aux_battery self) * (soc_system_connection / 100))%Q in
  let variation_percentage := np_clip normal_draw (-0.2) 0.2 in
  let variation_kwh := (variation_percentage * soc_system_connection_kwh)%Q in
  let aux_variation_kwh :=
    (variation_percentage * aux_soc_system_connection_kwh)%Q in
  let soc_final_kwh := (soc_system_connection_kwh + variation_kwh)%Q in
  let aux_soc_final_kwh :=
    (aux_soc_system_connection_kwh + aux_variation_kwh)%Q in
  {| soc_init_kwh := soc_init_kwh;
     aux_soc_init_kwh := aux_soc_init_kwh;
     soc_system_connection_kwh := soc_system_connection_kwh;
     aux_soc_system_connection_kwh := aux_soc_system_connection_kwh;
     variation_percentage := variation_percentage;
     variation_kwh := variation_kwh;
     aux_variation_kwh := aux_variation_kwh;
     soc_final_kwh := soc_final_kwh;
     aux_soc_final_kwh := aux_soc_final_kwh |}.

(** The energies passed to the two [set_ad_hoc_charge] calls. *)
Definition ad_hoc_energy (a : adjustment) : Q :=
  (soc_final_kwh a - soc_init_kwh a)%Q.
Definition aux_ad_hoc_energy (a : adjustment) : Q :=
  (aux_soc_final_kwh a - aux_soc_init_kwh a)%Q.

(** [adjust_ev_soc_on_system_connection(self, soc_system_connection)]
<<
    self.battery.set_ad_hoc_charge(soc_final_kwh - soc_init_kwh)
    self.aux_battery.set_ad_hoc_charge(aux_soc_final_kwh - aux_soc_init_kwh)
>>
*)
Definition adjust_ev_soc_on_system_connection (self : t)
    (soc_system_connection normal_draw : Q) : t :=
  let a := adjust_locals self soc_system_connection normal_draw in
  {| ev_simulation := ev_simulation self;
     time_step := time_step self;
     battery := set_ad_hoc_charge (battery self) (ad_hoc_energy a);
     aux_battery := set_ad_hoc_charge (aux_battery self) (aux_ad_hoc_energy a);
     min_battery_soc := min_battery_soc self |}.

End Vehicle.
Arguments t : clear implicits.

End electric_vehicle.

(** ** [class Charger] *)

Module Charger.
Import PyNum Energy.

Section Charger.
Context {B : Type} `{Battery B}.

(** [connected_ev] and [incoming_ev] refer to vehicle objects that
    the simulation shares; the vehicle stored here after a call is
    that object as the call left it. *)
Record t : Type := mk {
  nominal_power : Q;
  efficiency : Q;
  max_charging_power : Q;
  min_charging_power : Q;
  max_discharging_power : Q;
  min_discharging_power : Q;
  connected_ev : option (electric_vehicle.t B);
  incoming_ev : option (electric_vehicle.t B);
  time_step : nat;
  past_charging_action_values : list Q;
  electricity_consumption : list Q;
  electricity_consumption_without_partial_load : list Q
}.

(** The signed energy asked for by the action.
<<
    if action_value > 0:
        energy = action_value * self.max_charging_power
    else:
        energy = action_value * self.max_discharging_power
>>
*)
Definition requested_energy (self : t) (action_value : Q) : Q :=
  if Qltb 0 action_value then (action_value * max_charging_power self)%Q
  else (action_value * max_discharging_power self)%Q.

(** The energy after the clamp, before the efficiency.
<<
    charging = energy >= 0
    if charging:
        energy = min(energy, car.battery.capacity - car.battery.soc[self.time_step])
    else:
        max_discharge = - (car.battery.soc[self.time_step] - 0.10 * car.battery.capacity)
        energy = max(energy, max_discharge)
>>
    [soc_now] is [car.battery.soc[self.time_step]]. *)
Definition clamped_energy (self : t) (car : electric_vehicle.t B)
    (action_value soc_now : Q) : Q :=
  let energy := requested_energy self action_value in
  let charging := Qleb 0 energy in
  if charging then
    py_min2 energy (capacity (electric_vehicle.battery car) - soc_now)
  else
    let max_discharge :=
      (- (soc_now - 0.10 * capacity (electric_vehicle.battery car)))%Q in
    py_max2 energy max_discharge.

(** The series of the charger and of the vehicle have an entry for
    the current time step, so that no indexed access raises. *)
Definition ready (self : t) (car : electric_vehicle.t B) : Prop :=
  let ts := time_step self in
  (ts < length (past_charging_action_values self))%nat /\
  (ts < length (electricity_consumption self))%nat /\
  (ts < length (electricity_consumption_without_partial_load self))%nat /\
  is_Some (electric_vehicle.ev_required_soc_departure
             (electric_vehicle.ev_simulation car) !! ts) /\
  is_Some (soc (electric_vehicle.aux_battery car) !! ts).

Definition with_series (self : t) (car : option (electric_vehicle.t B))
    (actions consumption without_partial_load : list Q) : t :=
  {| nominal_power := nominal_power self;
     efficiency := efficiency self;
     max_charging_power := max_charging_power self;
     min_charging_power := min_charging_power self;
     max_discharging_power := max_discharging_power self;
     min_discharging_power := min_discharging_power self;
     connected_ev := car;
     incoming_ev := incoming_ev self;
     time_step := time_step self;
     past_charging_action_values := actions;
     electricity_consumption := consumption;
     electricity_consumption_without_partial_load := without_partial_load |}.

(** [update_connected_ev_soc(self, action_value)] *)
Definition update_connected_ev_soc (self : t) (action_value : Q) : option t :=
  let ts := time_step self in
  match list_set (past_charging_action_values self) ts action_value with
  | None => None
  | Some actions =>
      match connected_ev self with
      | Some car =>
          if negb (Qeq_bool action_value 0) then
            match soc (electric_vehicle.battery car) !! ts with
            | None => None
            | Some soc_now =>
                let energy := clamped_energy self car action_value soc_now in
                let energy_kwh := (energy * efficiency self)%Q in
                let battery' := charge (electric_vehicle.battery car) energy_kwh in
                match py_last (Energy.electricity_consumption battery'),
                      electric_vehicle.ev_required_soc_departure
                        (electric_vehicle.ev_simulation car) !! ts,
                      soc (electric_vehicle.aux_battery car) !! ts with
                | Some used, Some required, Some aux_soc_now =>
                    let energy_aux :=
                      py_min2 (max_charging_power self)
                        (capacity (electric_vehicle.aux_battery car) * required
                         - aux_soc_now)%Q in
                    let aux' := charge (electric_vehicle.aux_battery car) energy_aux in
                    match list_set (electricity_consumption self) ts used,
                          py_last (Energy.electricity_consumption aux') with
                    | Some consumption, Some aux_used =>
                        match list_set
                                (electricity_consumption_without_partial_load self)
                                ts aux_used with
                        | Some without =>
                            let car' :=
                              {| electric_vehicle.ev_simulation :=
                                   electric_vehicle.ev_simulation car;
                                 electric_vehicle.time_step :=
                                   electric_vehicle.time_step car;
                                 electric_vehicle.battery := battery';
                                 electric_vehicle.aux_battery := aux';
                                 electric_vehicle.min_battery_soc :=
                                   electric_vehicle.min_battery_soc car |} in
                            Some (with_series self (Some car') actions
                                    consumption without)
                        | None => None
                        end
                    | _, _ => None
                    end
                | _, _, _ => None
                end
            end
          else
            match list_set (electricity_consumption self) ts 0%Q,
                  list_set (electricity_consumption_without_partial_load self)
                    ts 0%Q with
            | Some consumption, Some without =>
                Some (with_series self (Some car) actions consumption without)
            | _, _ => None
            end
      | None =>
          match list_set (electricity_consumption self) ts 0%Q,
                list_set (electricity_consumption_without_partial_load self)
                  ts 0%Q with
          | Some consumption, Some without =>
              Some (with_series self None actions consumption without)
          | _, _ => None
          end
      end
  end.

End Charger.
Arguments t : clear implicits.

End Charger.

(** ** The policy networks: [GaussianPolicy] and [DeterministicPolicy] *)

Module Torch.
Local Open Scope R_scope.

(** A one-dimensional tensor (one row of a batch). *)
Abbreviation Vec := (list R).

(** [nn.Linear(in_features, out_features)]: one weight row and one
    bias per output feature. *)
Record Linear : Type := mkLinear {
  weight : list (list R);
  bias : list R
}.

(** The product of a weight row and an input.  [nn.Linear] raises
    RuntimeError for an input that has not [in_features] entries,
    where [zip_with] stops at the shorter list: the layers are the
    code on inputs of the dimension they were built for. *)
Definition dot (a b : Vec) : R := fold_right Rplus 0 (zip_with Rmult a b).

(** [layer(x)] = [x W^T + b] *)
Definition apply_linear (layer : Linear) (x : Vec) : Vec :=
  zip_with (fun row b => dot row x + b) (weight layer) (bias layer).

(** [F.relu] *)
Definition relu (x : Vec) : Vec := map (Rmax 0) x.

(** [torch.clamp(x, min=lo, max=hi)] and [Tensor.clamp(lo, hi)] *)
Definition clamp (lo hi : R) (x : Vec) : Vec :=
  map (fun v => Rmin (Rmax v lo) hi) x.

(** [Normal(mean, std).log_prob(x)], entrywise. *)
Definition normal_log_prob (mean std x : R) : R :=
  - ((x - mean) ^ 2) / (2 * std ^ 2) - ln std - ln (sqrt (2 * PI)).

(** [action_space.low], [action_space.high] of a gym [Box]. *)
Record Box : Type := mkBox { low : Vec; high : Vec }.

(** A box whose lower bounds do not exceed its upper bounds. *)
Definition ordered (box : Box) : Prop :=
  forall (i : nat) (lo hi : R),
    low box !! i = Some lo -> high box !! i = Some hi -> lo <= hi.

(** The action rescaling of both policy constructors:
<<
    self.action_scale = torch.FloatTensor((action_space.high - action_space.low) / 2.)
    self.action_bias = torch.FloatTensor((action_space.high + action_space.low) / 2.)
>>
*)
Definition action_scale_of (action_space : Box) : Vec :=
  zip_with (fun h l => (h - l) / 2) (high action_space) (low action_space).
Definition action_bias_of (action_space : Box) : Vec :=
  zip_with (fun h l => (h + l) / 2) (high action_space) (low action_space).

(** [y * self.action_scale + self.action_bias], entrywise. *)
Definition rescale (y scale bias_ : Vec) : Vec :=
  zip_with Rplus (zip_with Rmult y scale) bias_.

End Torch.

Module GaussianPolicy.
Import Torch.
Local Open Scope R_scope.

Definition LOG_SIG_MAX : R := 2.
Definition LOG_SIG_MIN : R := -20.
Definition epsilon : R := 1 / 1000000.

Record t : Type := mk {
  linear1 : Linear;
  linear2 : Linear;
  mean_linear : Linear;
  log_std_linear : Linear;
  action_scale : Vec;
  action_bias : Vec
}.

(** [__init__] with an action space; the four layers arrive
    initialised. *)
Definition init (l1 l2 lmean llog : Linear) (action_space : Box) : t :=
  {| linear1 := l1; linear2 := l2; mean_linear := lmean; log_std_linear := llog;
     action_scale := action_scale_of action_space;
     action_bias := action_bias_of action_space |}.

(** [forward(self, state)] *)
Definition forward (self : t) (state : Vec) : Vec * Vec :=
  let x := relu (apply_linear (linear1 self) state) in
  let x := relu (apply_linear (linear2 self) x) in
  let mean := apply_linear (mean_linear self) x in
  let log_std := apply_linear (log_std_linear self) x in
  let log_std := clamp LOG_SIG_MIN LOG_SIG_MAX log_std in
  (mean, log_std).

(** [sample(self, state)]; [noise] is the standard normal draw of
    [normal.rsample()], which returns [mean + std * noise].  The
    result is [(action, log_prob, mean)]. *)
Definition sample (self : t) (state noise : Vec) : Vec * R * Vec :=
  let '(mean, log_std) := forward self state in
  let std := map exp log_std in
  let x_t := zip_with Rplus mean (zip_with Rmult std noise) in
  let y_t := map tanh x_t in
  let action := rescale y_t (action_scale self) (action_bias self) in
  let log_prob :=
    zip_with Rminus
      (zip_with (fun ms x => normal_log_prob ms.1 ms.2 x) (zip mean std) x_t)
      (zip_with (fun s y => ln (s * (1 - y ^ 2) + epsilon)) (action_scale self) y_t) in
  let log_prob := fold_right Rplus 0 log_prob in
  let mean := rescale (map tanh mean) (action_scale self) (action_bias self) in
  (action, log_prob, mean).

End GaussianPolicy.

Module DeterministicPolicy.
Import Torch.
Local Open Scope R_scope.

Record t : Type := mk {
  linear1 : Linear;
  linear2 : Linear;
  mean : Linear;
  action_scale : Vec;
  action_bias : Vec
}.

Definition init (l1 l2 lmean : Linear) (action_space : Box) : t :=
  {| linear1 := l1; linear2 := l2; mean := lmean;
     action_scale := action_scale_of action_space;
     action_bias := action_bias_of action_space |}.

(** [forward(self, state)] *)
Definition forward (self : t) (state : Vec) : Vec :=
  let x := relu (apply_linear (linear1 self) state) in
  let x := relu (apply_linear (linear2 self) x) in
  rescale (map tanh (apply_linear (mean self) x)) (action_scale self) (action_bias self).

(** [sample(self, state)]; [normal_draw] is the value that
    [self.noise.normal_(0., std=0.1)] writes.
<<
    mean = self.forward(state)
    noise = self.noise.normal_(0., std=0.1)
    noise = noise.clamp(-0.25, 0.25)
    action = mean + noise
    return action, torch.tensor(0.), mean
>>
*)
Definition sample (self : t) (state normal_draw : Vec) : Vec * R * Vec :=
  let mean := forward self state in
  let noise := clamp (-0.25) 0.25 normal_draw in
  let action := zip_with Rplus mean noise in
  (action, 0, mean).

End DeterministicPolicy.

(** ** Concrete objects used to run the definitions *)

Module Examples.
Import Energy.
Local Open Scope Q_scope.

(** A 50 kWh battery that started the episode at 10 kWh. *)
Definition battery_at (now : list Q) : SimpleBattery :=
  {| sb_capacity := 50; sb_initial_soc := 10; sb_soc := now;
     sb_electricity_consumption := [0] |}.

Definition simulation : electric_vehicle.EVSimulation :=
  {| electric_vehicle.ev_charger_state := [1; 1]%Z;
     electric_vehicle.ev_required_soc_departure := [0.8; 0.8];
     electric_vehicle.ev_estimated_soc_arrival := [40; 40] |}.

(** A vehicle at time step [ts] whose two batteries have the series
    [now]. *)
Definition car_at (ts : nat) (now : list Q) : electric_vehicle.t SimpleBattery :=
  {| electric_vehicle.ev_simulation := simulation;
     electric_vehicle.time_step := ts;
     electric_vehicle.battery := battery_at now;
     electric_vehicle.aux_battery := battery_at now;
     electric_vehicle.min_battery_soc := 20 |}.

(** A charger at time step 0 with the vehicle connected. *)
Definition charger_with (max_discharging : Q) (now : Q) : Charger.t SimpleBattery :=
  {| Charger.nominal_power := 50;
     Charger.efficiency := 1;
     Charger.max_charging_power := 50;
     Charger.min_charging_power := 0;
     Charger.max_discharging_power := max_discharging;
     Charger.min_discharging_power := 0;
     Charger.connected_ev := Some (car_at 0 [now]);
     Charger.incoming_ev := None;
     Charger.time_step := 0;
     Charger.past_charging_action_values := [0];
     Charger.electricity_consumption := [0];
     Charger.electricity_consumption_without_partial_load := [0] |}.

(** The learner that the constructor returns without loading. *)
Definition learner : SAC.t :=
  {| SAC.evaluate := false; SAC.continue_training := false;
     SAC.lr := 0.0001; SAC.gamma := 0.9; SAC.tau := 0.003;
     SAC.alpha := 0.2; SAC.replay_size := 2000000;
     SAC.batch_size := 2048; SAC.target_update_interval := 1;
     SAC.critic := [[0]]; SAC.critic_target := [[0]];
     SAC.policy := [[0]]; SAC.action_tracker := [];
     SAC.reward_tracker := [];
     SAC.memory := ReplayMemory.init 2000000;
     SAC.autoregressive_action_memory := AutoRegressiveMemory.init 1;
     SAC.sw4 := 0.5; SAC.sw5 := 1; SAC.sw6 := -1 / 2; SAC.sw7 := 2;
     SAC.day_list := replicate 24 0 |}.

(** A full replay memory of capacity 3 with small transitions. *)
Definition small_memory : ReplayMemory.t (nat * nat * nat * nat * bool) :=
  {| ReplayMemory.capacity := 3;
     ReplayMemory.buffer :=
       [Some (1, 2, 3, 4, false); Some (5, 6, 7, 8, false);
        Some (9, 10, 11, 12, true)]%nat;
     ReplayMemory.position := 0 |}.

(** A one-dimensional action space [-1, 1] and policies whose hidden
    layers are zero and whose mean head has bias 4. *)
Definition unit_box : Torch.Box :=
  {| Torch.low := [(-1)%R]; Torch.high := [1%R] |}.
Definition zero_layer : Torch.Linear :=
  {| Torch.weight := [[0%R]]; Torch.bias := [0%R] |}.
Definition head_4 : Torch.Linear :=
  {| Torch.weight := [[0%R]]; Torch.bias := [4%R] |}.
Definition deterministic : DeterministicPolicy.t :=
  DeterministicPolicy.init zero_layer zero_layer head_4 unit_box.

End Examples.

(** ** [comix/src/envs/citylearn/reward_function.py] *)

Module reward_function_ma.
Import PyNum.
Local Open Scope Q_scope.

(** [np.sign] *)
Definition np_sign (x : Q) : Q :=
  if Qltb x 0 then -1 else if Qltb 0 x then 1 else 0.

(** [get_rewards(self, electricity_demand)]; the method reads neither
    [n_agents] nor [building_info].
<<
    electricity_demand = np.float32(electricity_demand)
    total_electricity_demand = 0
    for e in electricity_demand:
        total_electricity_demand += -e
    electricity_demand = np.array(electricity_demand)
    using_marlisa = False
    if using_marlisa:
        return list(np.sign(electricity_demand)*0.01*(np.array(np.abs(electricity_demand))**2 * max(0, total_electricity_demand)))
    else:
        reward_ = np.array(electricity_demand)**3.0
        reward_[reward_>0] = 0
    return list(reward_)
>>
    [np.float32] rounds every demand to single precision and the
    cube is rounded again, so a small negative demand can give the
    reward [-0.0].  The model computes with the exact values; the
    rounding keeps the order and the sign of a value, up to
    collapsing it to zero, and the properties stated of the rewards
    are of that kind. *)
Definition get_rewards (electricity_demand : list Q) : list Q :=
  let total_electricity_demand :=
    fold_left (fun total e => total + - e) electricity_demand 0 in
  let using_marlisa := false in
  if using_marlisa then
    map (fun d => np_sign d * 0.01
                  * (Qabs d ^ 2 * Energy.py_max2 0 total_electricity_demand))
      electricity_demand
  else
    let reward_ := map (fun d => d ^ 3) electricity_demand in
    map (fun r => if Qltb 0 r then 0 else r) reward_.

End reward_function_ma.

(** ** [class RBC_Agent] *)

Module RBC_Agent.
Import PyNum.
Local Open Scope Q_scope.

(** The agent uses an action space only through
    [len(self.actions_spaces[i].sample())], the dimension of the
    space; [actions_spaces] holds these dimensions. *)
Record t : Type := mk {
  actions_spaces : list nat;
  action_tracker : list (list (list Q))
}.

(** [__init__(self, actions_spaces)] *)
Definition init (actions_spaces : list nat) : t :=
  {| actions_spaces := actions_spaces; action_tracker := [] |}.

(** [np.array(a)] of a nested list of numbers: the rows must have one
    common length; a ragged list raises ValueError (NumPy 1.24 and
    later; earlier versions warn and build an array of lists). *)
Definition np_array (a : list (list Q)) : option (list (list Q)) :=
  match a with
  | [] => Some a
  | row :: rest =>
      if forallb (fun r => Nat.eqb (length r) (length row)) rest
      then Some a else None
  end.

(** [select_action(self, states)]
<<
    hour_day = states[0]
    a = [[0.0 for _ in range(len(self.actions_spaces[i].sample()))] for i in range(len(self.actions_spaces))]
    if hour_day >= 9 and hour_day <= 21:
        a = [[-0.08 for _ in range(len(self.actions_spaces[i].sample()))] for i in range(len(self.actions_spaces))]
    if (hour_day >= 1 and hour_day <= 8) or (hour_day >= 22 and hour_day <= 24):
        a = []
        for i in range(len(self.actions_spaces)):
            if len(self.actions_spaces[i].sample()) == 2:
                a.append([0.091, 0.091])
            else:
                a.append([0.091])
    self.action_tracker.append(a)
    return np.array(a)
>>
    The result is the agent after the call and the array; a call that
    raises gives [None]. *)
Definition select_action (self : t) (states : list Q)
  : option (t * list (list Q)) :=
  match states !! 0%nat with
  | None => None
  | Some hour_day =>
      let a := map (fun d => replicate d 0.0) (actions_spaces self) in
      let a :=
        if Qleb 9 hour_day && Qleb hour_day 21
        then map (fun d => replicate d (-0.08)) (actions_spaces self)
        else a in
      let a :=
        if (Qleb 1 hour_day && Qleb hour_day 8)
           || (Qleb 22 hour_day && Qleb hour_day 24)
        then map (fun d => if Nat.eqb d 2 then [0.091; 0.091] else [0.091])
               (actions_spaces self)
        else a in
      match np_array a with
      | None => None
      | Some array =>
          Some ({| actions_spaces := actions_spaces self;
                   action_tracker := action_tracker self ++ [a] |}, array)
      end
  end.

(** The hours at which the rule charges and at which it discharges. *)
Definition night_hours (h : Q) : Prop := (1 <= h /\ h <= 8) \/ (22 <= h /\ h <= 24).
Definition day_hours (h : Q) : Prop := 9 <= h /\ h <= 21.

End RBC_Agent.

(** ** The rest of [class Charger] *)

Module ChargerOps.
Import PyNum Energy.
Local Open Scope Q_scope.

Definition ZERO_DIVISION_CAPACITY : Q := 0.00001.

(** [efficiency.setter]: [None] stands for the default 1.0, and a
    value that is not positive fails the assertion. *)
Definition efficiency_setter (efficiency : option Q) : option Q :=
  match efficiency with
  | None => Some 1.0
  | Some e => if Qltb 0 e then Some e else None
  end.

(** [nominal_power.setter]
<<
    if nominal_power is None or nominal_power == 0:
        self.__nominal_power = ZERO_DIVISION_CAPACITY
    else:
        assert nominal_power >= 0, 'nominal_power must be >= 0.'
        self.__nominal_power = nominal_power
>>
*)
Definition nominal_power_setter (nominal_power : option Q) : option Q :=
  match nominal_power with
  | None => Some ZERO_DIVISION_CAPACITY
  | Some p =>
      if Qeq_bool p 0 then Some ZERO_DIVISION_CAPACITY
      else if Qleb 0 p then Some p else None
  end.

Section Ops.
Context {B : Type} `{Battery B}.

(** [citylearn/base.py] is not among the sources: what [reset] and
    [next_time_step] of the base class [Environment] do to the
    time step is a parameter. *)
Variable base_reset : nat -> nat.
Variable base_next_time_step : nat -> nat.

(** The charger of the energy model together with the history of
    connected vehicles, which the energy transfer does not read. *)
Record t : Type := mk {
  charger : Charger.t B;
  past_connected_evs : list (option (electric_vehicle.t B))
}.

Definition with_cars (c : Charger.t B)
    (connected incoming : option (electric_vehicle.t B)) : Charger.t B :=
  {| Charger.nominal_power := Charger.nominal_power c;
     Charger.efficiency := Charger.efficiency c;
     Charger.max_charging_power := Charger.max_charging_power c;
     Charger.min_charging_power := Charger.min_charging_power c;
     Charger.max_discharging_power := Charger.max_discharging_power c;
     Charger.min_discharging_power := Charger.min_discharging_power c;
     Charger.connected_ev := connected;
     Charger.incoming_ev := incoming;
     Charger.time_step := Charger.time_step c;
     Charger.past_charging_action_values := Charger.past_charging_action_values c;
     Charger.electricity_consumption := Charger.electricity_consumption c;
     Charger.electricity_consumption_without_partial_load :=
       Charger.electricity_consumption_without_partial_load c |}.

Definition with_time (c : Charger.t B) (time_step : nat)
    (actions consumption without : list Q) : Charger.t B :=
  {| Charger.nominal_power := Charger.nominal_power c;
     Charger.efficiency := Charger.efficiency c;
     Charger.max_charging_power := Charger.max_charging_power c;
     Charger.min_charging_power := Charger.min_charging_power c;
     Charger.max_discharging_power := Charger.max_discharging_power c;
     Charger.min_discharging_power := Charger.min_discharging_power c;
     Charger.connected_ev := None;
     Charger.incoming_ev := None;
     Charger.time_step := time_step;
     Charger.past_charging_action_values := actions;
     Charger.electricity_consumption := consumption;
     Charger.electricity_consumption_without_partial_load := without |}.

(** [plug_car(self, car)]
<<
    self.__past_connected_evs[self.time_step] = car
    self.connected_ev = car
>>
*)
Definition plug_car (self : t) (car : electric_vehicle.t B) : option t :=
  match list_set (past_connected_evs self)
          (Charger.time_step (charger self)) (Some car) with
  | None => None
  | Some past =>
      Some {| charger := with_cars (charger self) (Some car)
                           (Charger.incoming_ev (charger self));
              past_connected_evs := past |}
  end.

(** [unplug_car(self)] *)
Definition unplug_car (self : t) : t :=
  {| charger := with_cars (charger self) None
                  (Charger.incoming_ev (charger self));
     past_connected_evs := past_connected_evs self |}.

(** [associate_incoming_car(self, car)] *)
Definition associate_incoming_car (self : t) (car : electric_vehicle.t B) : t :=
  {| charger := with_cars (charger self)
                  (Charger.connected_ev (charger self)) (Some car);
     past_connected_evs := past_connected_evs self |}.

(** [disassociate_incoming_car(self)] *)
Definition disassociate_incoming_car (self : t) : t :=
  {| charger := with_cars (charger self)
                  (Charger.connected_ev (charger self)) None;
     past_connected_evs := past_connected_evs self |}.

(** [next_time_step(self)]
<<
    self.__electricity_consumption.append(0.0)
    self.__electricity_consumption_without_partial_load.append(0.0)
    self.__past_connected_evs.append(None)
    self.__past_charging_action_values.append(0.0)
    self.connected_ev = None
    self.incoming_ev = None
    super().next_time_step()
>>
*)
Definition next_time_step (self : t) : t :=
  let c := charger self in
  {| charger :=
       with_time c (base_next_time_step (Charger.time_step c))
         (Charger.past_charging_action_values c ++ [0.0])
         (Charger.electricity_consumption c ++ [0.0])
         (Charger.electricity_consumption_without_partial_load c ++ [0.0]);
     past_connected_evs := past_connected_evs self ++ [None] |}.

(** [reset(self)]
<<
    super().reset()
    self.connected_ev = None
    self.incoming_ev = None
    self.__electricity_consumption = [0.0]
    self.__electricity_consumption_without_partial_load = [0.0]
    self.__past_connected_evs = [None]
    self.__past_charging_action_values = [0.0]
>>
*)
Definition reset (self : t) : t :=
  let c := charger self in
  {| charger := with_time c (base_reset (Charger.time_step c)) [0.0] [0.0] [0.0];
     past_connected_evs := [None] |}.

(** [update_electricity_consumption(self, electricity_consumption)]
<<
    assert electricity_consumption >= 0, 'electricity_consumption must be >= 0.'
    self.__electricity_consumption[self.time_step] += electricity_consumption
>>
*)
Definition update_electricity_consumption (self : t)
    (electricity_consumption : Q) : option t :=
  let c := charger self in
  if Qleb 0 electricity_consumption then
    match Charger.electricity_consumption c !! Charger.time_step c with
    | None => None
    | Some now =>
        Some {| charger :=
                  Charger.with_series c (Charger.connected_ev c)
                    (Charger.past_charging_action_values c)
                    (<[Charger.time_step c := now + electricity_consumption]>
                       (Charger.electricity_consumption c))
                    (Charger.electricity_consumption_without_partial_load c);
                past_connected_evs := past_connected_evs self |}
    end
  else None.

(** [available_nominal_power]: [nominal_power] is never [None]
    after its setter. *)
Definition available_nominal_power (self : t) : option Q :=
  let c := charger self in
  match Charger.electricity_consumption c !! Charger.time_step c with
  | None => None
  | Some now => Some (Charger.nominal_power c - now)
  end.

(** [update_connected_ev_soc] on the charger with its history. *)
Definition update_connected_ev_soc (self : t) (action_value : Q) : option t :=
  match Charger.update_connected_ev_soc (charger self) action_value with
  | None => None
  | Some c => Some {| charger := c; past_connected_evs := past_connected_evs self |}
  end.

(** The calls that the simulation makes on a charger between two
    resets. *)
Inductive call : Type :=
| call_plug_car (car : electric_vehicle.t B)
| call_unplug_car
| call_associate_incoming_car (car : electric_vehicle.t B)
| call_disassociate_incoming_car
| call_next_time_step
| call_update_electricity_consumption (electricity_consumption : Q)
| call_update_connected_ev_soc (action_value : Q).

Definition step (self : t) (c : call) : option t :=
  match c with
  | call_plug_car car => plug_car self car
  | call_unplug_car => Some (unplug_car self)
  | call_associate_incoming_car car => Some (associate_incoming_car self car)
  | call_disassociate_incoming_car => Some (disassociate_incoming_car self)
  | call_next_time_step => Some (next_time_step self)
  | call_update_electricity_consumption x => update_electricity_consumption self x
  | call_update_connected_ev_soc a => update_connected_ev_soc self a
  end.

Fixpoint run (self : t) (calls : list call) : option t :=
  match calls with
  | [] => Some self
  | c :: rest =>
      match step self c with
      | None => None
      | Some self' => run self' rest
      end
  end.

(** The four series of the charger have one common length. *)
Definition series_length (self : t) (n : nat) : Prop :=
  length (Charger.past_charging_action_values (charger self)) = n /\
  length (Charger.electricity_consumption (charger self)) = n /\
  length (Charger.electricity_consumption_without_partial_load (charger self)) = n /\
  length (past_connected_evs self) = n.

Fixpoint count_next_time_step (calls : list call) : nat :=
  match calls with
  | [] => 0%nat
  | call_next_time_step :: rest => S (count_next_time_step rest)
  | _ :: rest => count_next_time_step rest
  end.

End Ops.
Arguments t : clear implicits.
Arguments call : clear implicits.

End ChargerOps.

(** ** The critic target of [SAC.update_parameters] *)

Module SACUpdate.
Local Open Scope Q_scope.

(** The target value of one transition of the batch, computed under
    [torch.no_grad()]:
<<
    min_qf_next_target = torch.min(qf1_next_target, qf2_next_target) - self.alpha * next_state_log_pi
    next_q_value = reward_batch + mask_batch * self.gamma * (min_qf_next_target)
>>
    The gradient steps around it are not modelled. *)
Definition next_q_value (alpha gamma : Q)
    (reward mask qf1_next_target qf2_next_target next_state_log_pi : Q) : Q :=
  let min_qf_next_target :=
    Qmin qf1_next_target qf2_next_target - alpha * next_state_log_pi in
  reward + mask * gamma * min_qf_next_target.

End SACUpdate.

(** ** [logsumexp] and [create_log_gaussian] *)

Module TorchFunctions.
Import Torch.
Local Open Scope R_scope.

(** [torch.max] of a flattened tensor: the empty tensor raises. *)
Definition tensor_max (inputs : list R) : option R :=
  match inputs with
  | [] => None
  | x :: xs => Some (fold_left Rmax xs x)
  end.

(** [logsumexp(inputs, dim=None, keepdim=False)]
<<
    inputs = inputs.view(-1)
    s, _ = torch.max(inputs, dim=0, keepdim=True)
    outputs = s + (inputs - s).exp().sum(dim=0, keepdim=True).log()
    outputs = outputs.squeeze(0)
>>
*)
Definition logsumexp (inputs : list R) : option R :=
  match tensor_max inputs with
  | None => None
  | Some s =>
      Some (s + ln (fold_right Rplus 0 (map (fun x => exp (x - s)) inputs)))
  end.

(** [create_log_gaussian(mean, log_std, t)] on one-dimensional
    tensors of equal length.
<<
    quadratic = -((0.5 * (t - mean) / (log_std.exp())).pow(2))
    l = mean.shape
    log_z = log_std
    z = l[-1] * math.log(2 * math.pi)
    log_p = quadratic.sum(dim=-1) - log_z.sum(dim=-1) - 0.5 * z
>>
*)
Definition create_log_gaussian (mean log_std t : list R) : R :=
  let quadratic :=
    zip_with (fun d ls => - ((0.5 * d / exp ls) ^ 2))
      (zip_with Rminus t mean) log_std in
  let log_z := log_std in
  let z := INR (length mean) * ln (2 * PI) in
  fold_right Rplus 0 quadratic - fold_right Rplus 0 log_z - 0.5 * z.

End TorchFunctions.

(** ** [SAC.select_action] *)

Module SelectAction.
Import PyNum Torch.
Local Open Scope R_scope.

(** The attributes of the learner that [select_action] reads or
    writes; states and actions are real vectors, as in the policy.
    [autoregressive_size] is the constant 0 of the constructor, so the
    loop that appends autoregressive terms to the state does not
    run. *)
Record t : Type := mk {
  evaluate : bool;
  constrain_action_space : bool;
  act_size : list nat;
  obs_size : list Z;
  shared_act : Z;
  policy : GaussianPolicy.t;
  action_tracker : list (list R)
}.

(** The flag one state entry gets: -1 below 0.01, 1 above 0.99 and
    the initial 0 otherwise.
<<
    if state_copy[b_idx] < 0.01:
        soc_flags[idx] = -1
    elif state_copy[b_idx] > 0.99:
        soc_flags[idx] = 1
>>
*)
Definition flag_of (s : R) : Z :=
  if Rlt_dec s 0.01 then (-1)%Z else if Rgt_dec s 0.99 then 1%Z else 0%Z.

(** The first inner loop: the flags of one building.
<<
    soc_flags = [0 for actsiz in range(self.act_size[building])]
    for idx, b_idx in enumerate(range(bs_end_idx-self.act_size[building],bs_end_idx)):
        ...
>>
    [b_idx] is the first state index and [n] the number of flags
    still to compute; a state index out of range raises
    IndexError, a negative one counts from the end. *)
Fixpoint soc_flags (state_copy : list R) (b_idx : Z) (n : nat) : option (list Z) :=
  match n with
  | O => Some []
  | S n' =>
      match py_index state_copy b_idx with
      | None => None
      | Some i =>
          match state_copy !! i with
          | None => None
          | Some s =>
              match soc_flags state_copy (b_idx + 1) n' with
              | None => None
              | Some rest => Some (flag_of s :: rest)
              end
          end
      end
  end.

(** The second inner loop: the constraints of one building.
<<
    for idx, flag in enumerate(soc_flags):
        if flag == -1:
            if action[ba_idx+idx] < 0:
                action[ba_idx+idx] = 0
        elif flag == 1:
            if action[ba_idx+idx] > 0:
                action[ba_idx+idx] = 0
>>
    [pos] is [ba_idx+idx]. *)
Fixpoint apply_flags (action : list R) (pos : nat) (flags : list Z)
  : option (list R) :=
  match flags with
  | [] => Some action
  | flag :: rest =>
      if (flag =? -1)%Z then
        match action !! pos with
        | None => None
        | Some a =>
            apply_flags (if Rlt_dec a 0 then <[pos := 0]> action else action)
              (S pos) rest
        end
      else if (flag =? 1)%Z then
        match action !! pos with
        | None => None
        | Some a =>
            apply_flags (if Rgt_dec a 0 then <[pos := 0]> action else action)
              (S pos) rest
        end
      else apply_flags action (S pos) rest
  end.

(** The loop over the buildings.
<<
    ba_idx = 0 # building action index
    bs_idx = self.shared_act # building state index
    for building in range(0,len(self.act_size)):
        bs_end_idx = bs_idx + self.obs_size[building] - self.shared_act
        ...
        ba_idx += self.act_size[building]
        bs_idx = bs_end_idx
>>
    The lists are the entries of [act_size] and [obs_size] from the
    current building on; a missing [obs_size] entry raises
    IndexError. *)
Fixpoint constrain (state_copy action : list R) (act_size : list nat)
    (obs_size : list Z) (shared_act : Z) (ba_idx : nat) (bs_idx : Z)
  : option (list R) :=
  match act_size with
  | [] => Some action
  | size :: act_rest =>
      match obs_size with
      | [] => None
      | obs :: obs_rest =>
          let bs_end_idx := (bs_idx + obs - shared_act)%Z in
          match soc_flags state_copy (bs_end_idx - Z.of_nat size) size with
          | None => None
          | Some flags =>
              match apply_flags action ba_idx flags with
              | None => None
              | Some action' =>
                  constrain state_copy action' act_rest obs_rest shared_act
                    (ba_idx + size) bs_end_idx
              end
          end
      end
  end.

(** [nn.Linear(in_features, out_features)]: [out_features] weight
    rows of [in_features] entries and [out_features] biases. *)
Definition linear_shape (layer : Linear) (in_features out_features : nat) : Prop :=
  length (weight layer) = out_features /\
  length (bias layer) = out_features /\
  Forall (fun row => length row = in_features) (weight layer).

(** The shapes that
    [GaussianPolicy(num_inputs, num_actions, hidden_dim, action_space)]
    gives its layers, for an action space of [num_actions]
    components:
<<
    self.linear1 = nn.Linear(num_inputs, hidden_dim)
    self.linear2 = nn.Linear(hidden_dim, hidden_dim)
    self.mean_linear = nn.Linear(hidden_dim, num_actions)
    self.log_std_linear = nn.Linear(hidden_dim, num_actions)
>>
*)
Definition policy_shape (p : GaussianPolicy.t)
    (num_inputs num_actions hidden_dim : nat) : Prop :=
  linear_shape (GaussianPolicy.linear1 p) num_inputs hidden_dim /\
  linear_shape (GaussianPolicy.linear2 p) hidden_dim hidden_dim /\
  linear_shape (GaussianPolicy.mean_linear p) hidden_dim num_actions /\
  linear_shape (GaussianPolicy.log_std_linear p) hidden_dim num_actions /\
  length (GaussianPolicy.action_scale p) = num_actions /\
  length (GaussianPolicy.action_bias p) = num_actions.

(** [self.linear1(state)] raises RuntimeError unless the state has
    the [in_features] entries of the layer. *)
Definition fits (layer : Linear) (x : Vec) : bool :=
  forallb (fun row => Nat.eqb (length row) (length x)) (weight layer).

(** [select_action(self, state)]; [noise] is the draw of the policy's
    sampler, one number per action.  A state that does not fit the
    first layer of the policy makes [self.policy.sample(state)]
    raise; the other layers fit each other by construction
    ([policy_shape]). *)
Definition select_action (self : t) (state noise : list R)
  : option (t * list R) :=
  let state_copy := state in
  if negb (fits (GaussianPolicy.linear1 (policy self)) state) then None
  else
  let '(sampled, _, mean) := GaussianPolicy.sample (policy self) state noise in
  let action := if evaluate self then mean else sampled in
  let constrained :=
    if constrain_action_space self then
      constrain state_copy action (act_size self) (obs_size self)
        (shared_act self) 0 (shared_act self)
    else Some action in
  match constrained with
  | None => None
  | Some action =>
      Some ({| evaluate := evaluate self;
               constrain_action_space := constrain_action_space self;
               act_size := act_size self;
               obs_size := obs_size self;
               shared_act := shared_act self;
               policy := policy self;
               action_tracker := action_tracker self ++ [action] |},
            action)
  end.

(** The values of the loop variables at building [b]: [ba_idx] is
    the sum of the action sizes of the buildings before it, and
    [bs_end_idx] is [shared_act] plus the sum of
    [obs_size[j] - shared_act] over the buildings up to and including
    it. *)
Definition action_offset (act_size : list nat) (b : nat) : nat :=
  sum_list (take b act_size).
Definition segments (obs_size : list Z) (shared_act : Z) (b : nat) : Z :=
  fold_right Z.add 0%Z (map (fun o => (o - shared_act)%Z) (take (S b) obs_size)).
Definition state_end (obs_size : list Z) (shared_act : Z) (b : nat) : Z :=
  (shared_act + segments obs_size shared_act b)%Z.

End SelectAction.

(** ** Further concrete objects *)

Module MoreExamples.
Import Energy.
Local Open Scope Q_scope.

(** A charger with its history of connected vehicles. *)
Definition station (max_discharging now : Q) : ChargerOps.t SimpleBattery :=
  {| ChargerOps.charger := Examples.charger_with max_discharging now;
     ChargerOps.past_connected_evs := [None] |}.

(** The base class counts time steps from 0. *)
Definition count_reset (time_step : nat) : nat := 0.
Definition count_next (time_step : nat) : nat := S time_step.

(** A Gaussian policy on the action space [-1, 1] whose hidden layers
    are zero and whose two heads have bias 4. *)
Definition gaussian : GaussianPolicy.t :=
  GaussianPolicy.init Examples.zero_layer Examples.zero_layer Examples.head_4
    Examples.head_4 Examples.unit_box.

(** A first layer for states of four entries, and a mean head with
    bias -4. *)
Definition wide_layer : Torch.Linear :=
  {| Torch.weight := [[0%R; 0%R; 0%R; 0%R]]; Torch.bias := [0%R] |}.
Definition head_minus_4 : Torch.Linear :=
  {| Torch.weight := [[0%R]]; Torch.bias := [(-4)%R] |}.

(** A Gaussian policy for four inputs and one action on the action
    space [-1, 1]; its mean action is [tanh (-4)], a discharge. *)
Definition discharging : GaussianPolicy.t :=
  GaussianPolicy.init wide_layer Examples.zero_layer head_minus_4
    Examples.head_4 Examples.unit_box.

(** A learner in evaluation for one building with one storage action;
    the state is two shared observations followed by the building's
    segment of two, the last of which is the state of charge. *)
Definition actor : SelectAction.t :=
  {| SelectAction.evaluate := true;
     SelectAction.constrain_action_space := true;
     SelectAction.act_size := [1%nat];
     SelectAction.obs_size := [4%Z];
     SelectAction.shared_act := 2%Z;
     SelectAction.policy := discharging;
     SelectAction.action_tracker := [] |}.

End MoreExamples.

(* ===================================================================== *)
(** * Properties                                                          *)
(* ===================================================================== *)

Section ReplayProofs.
Import PyNum ReplayMemory.
Context {T : Type}.
Implicit Types (m : ReplayMemory.t T) (xs : list T).

Lemma py_index_in_range {A : Type} (l : list A) (i : Z) :
  (0 <= i < Z.of_nat (length l))%Z -> py_index l i = Some (Z.to_nat i).
Proof.
  intros H. unfold py_index.
  destruct (Z.leb_spec 0 i); [|lia].
  destruct (Z.ltb_spec i (Z.of_nat (length l))); [|lia].
  reflexivity.
Qed.

Lemma push_all_snoc m xs x :
  push_all m (xs ++ [x]) =
  match push_all m xs with Some m' => push m' x | None => None end.
Proof.
  revert m. induction xs as [|y ys IH]; intros m; simpl.
  - destruct (push m x); reflexivity.
  - destruct (push m y); [apply IH | reflexivity].
Qed.

Lemma mod_window_ne (n j C : Z) :
  (0 < C -> n - C < j -> j < n -> j mod C <> n mod C)%Z.
Proof.
  intros HC H1 H2 E.
  pose proof (Z.div_mod n C ltac:(lia)) as Hn.
  pose proof (Z.div_mod j C ltac:(lia)) as Hj.
  rewrite E in Hj.
  assert (n - j = C * (n / C - j / C))%Z by lia.
  assert (0 < n / C - j / C)%Z by nia.
  nia.
Qed.

Lemma ring_inv_push (C : Z) xs m x :
  (0 < C)%Z -> ReplayMemory.ring_inv C xs m ->
  exists m', push m x = Some m' /\ ReplayMemory.ring_inv C (xs ++ [x]) m'.
Proof.
  intros HC (Hcap & Hlen & Hpos & Hslot & Hperm).
  set (n := Z.of_nat (length xs)) in *.
  assert (Hn0 : (0 <= n)%Z) by (subst n; lia).
  pose proof (Z.mod_pos_bound n C HC) as Hmod.
  unfold push. rewrite Hcap, Hpos.
  destruct (Z.ltb_spec (Z.of_nat (length (buffer m))) C) as [Hlt | Hge].
  - (* the buffer still grows: n < C and the cursor is at the end *)
    assert (HnC : (n < C)%Z) by lia.
    assert (Hl : length (buffer m) = length xs) by lia.
    rewrite (Z.mod_small n C) by lia.
    rewrite py_index_in_range by (rewrite length_app; simpl; lia).
    destruct (Z.eqb_spec C 0); [lia|].
    eexists; split; [reflexivity|].
    assert (Hins : <[Z.to_nat n := Some x]> (buffer m ++ [None]) = buffer m ++ [Some x]).
    { replace (Z.to_nat n) with (length (buffer m) + 0)%nat by lia.
      rewrite insert_app_r. reflexivity. }
    rewrite Hins.
    unfold ReplayMemory.ring_inv; simpl. rewrite !length_app; simpl.
    repeat split.
    + lia.
    + f_equal. lia.
    + intros j y Hj Hy.
      assert (Hjl : (j < length xs + 1)%nat).
      { apply lookup_lt_Some in Hy. rewrite length_app in Hy. simpl in Hy. lia. }
      rewrite Z.mod_small by lia. rewrite Nat2Z.id.
      destruct (decide (j = length xs)) as [->|Hne].
      * rewrite <- Hl at 1. rewrite list_lookup_middle by reflexivity.
        rewrite list_lookup_middle in Hy by reflexivity. congruence.
      * rewrite lookup_app_l by lia. rewrite lookup_app_l in Hy by lia.
        specialize (Hslot j y ltac:(lia) Hy).
        rewrite Z.mod_small in Hslot by lia. rewrite Nat2Z.id in Hslot. exact Hslot.
    + replace (Z.to_nat (Z.of_nat (length xs + 1) - C)) with 0%nat by lia.
      replace (Z.to_nat (n - C)) with 0%nat in Hperm by lia.
      rewrite !drop_0 in *. rewrite fmap_app. simpl.
      apply Permutation_app_tail. exact Hperm.
  - (* the buffer is full: the cursor slot holds the oldest push *)
    assert (HnC : (C <= n)%Z) by lia.
    assert (Hl : Z.of_nat (length (buffer m)) = C) by lia.
    rewrite py_index_in_range by lia.
    destruct (Z.eqb_spec C 0); [lia|].
    eexists; split; [reflexivity|].
    set (i := Z.to_nat (n mod C)).
    assert (Hi : (i < length (buffer m))%nat) by (subst i; lia).
    (* the oldest stored push *)
    set (o := Z.to_nat (n - C)).
    assert (Ho : (o < length xs)%nat) by (subst o n; lia).
    destruct (lookup_lt_is_Some_2 xs o Ho) as [xo Hxo].
    assert (Hold : buffer m !! i = Some (Some xo)).
    { specialize (Hslot o xo ltac:(subst o; lia) Hxo).
      replace (Z.of_nat o) with (n - C)%Z in Hslot by (subst o; lia).
      replace ((n - C) mod C)%Z with (n mod C)%Z in Hslot; [exact Hslot|].
      replace (n - C)%Z with (n + (-1) * C)%Z by lia.
      rewrite Z.mod_add by lia. reflexivity. }
    unfold ReplayMemory.ring_inv; simpl. rewrite length_insert, length_app; simpl.
    repeat split.
    + lia.
    + replace (Z.of_nat (length xs + 1)) with (n + 1)%Z by (subst n; lia).
      rewrite Z.add_mod_idemp_l by lia. reflexivity.
    + intros j y Hj Hy.
      assert (Hjl : (j < length xs + 1)%nat).
      { apply lookup_lt_Some in Hy. rewrite length_app in Hy. simpl in Hy. lia. }
      destruct (decide (j = length xs)) as [->|Hne].
      * rewrite list_lookup_middle in Hy by reflexivity. inversion Hy; subst y.
        fold n. fold i. apply list_lookup_insert_eq. exact Hi.
      * rewrite lookup_app_l in Hy by lia.
        assert (Hji : Z.to_nat (Z.of_nat j mod C) <> i).
        { subst i. intros E.
          pose proof (Z.mod_pos_bound (Z.of_nat j) C HC).
          apply (mod_window_ne n (Z.of_nat j) C); lia. }
        rewrite list_lookup_insert_ne by congruence.
        apply Hslot; [lia | exact Hy].
    + replace (Z.to_nat (Z.of_nat (length xs + 1) - C)) with (S o) by (subst o n; lia).
      rewrite drop_app_le by lia. rewrite fmap_app. simpl.
      fold o in Hperm.
      rewrite (drop_S xs xo o Hxo) in Hperm. rewrite fmap_cons in Hperm.
      rewrite (delete_Permutation _ _ _ Hold) in Hperm.
      apply Permutation_cons_inv in Hperm.
      rewrite <- Hperm.
      rewrite insert_take_drop by exact Hi.
      rewrite delete_take_drop.
      rewrite <- Permutation_middle.
      rewrite (Permutation_app_comm _ [Some x]). simpl. reflexivity.
Qed.

Lemma ring_inv_push_all (C : Z) xs :
  (0 < C)%Z -> exists m, push_all (init C) xs = Some m /\ ReplayMemory.ring_inv C xs m.
Proof.
  intros HC. induction xs as [|x xs IH] using rev_ind.
  - exists (init C). split; [reflexivity|].
    unfold ReplayMemory.ring_inv; simpl. repeat split.
    + lia.
    + intros j x _ Hx. rewrite lookup_nil in Hx. discriminate.
    + rewrite drop_nil. reflexivity.
  - destruct IH as (m & Hrun & Hinv).
    destruct (ring_inv_push C xs m x HC Hinv) as (m' & Hp & Hinv').
    exists m'. split; [|exact Hinv'].
    rewrite push_all_snoc, Hrun. exact Hp.
Qed.
(** After any run of pushes on a fresh memory no placeholder is
    left: every slot holds a transition. *)
Lemma pushed_slots_filled (C : Z) xs m :
  (0 < C)%Z -> push_all (init C) xs = Some m -> Forall is_Some (buffer m).
Proof.
  intros HC Hrun.
  destruct (ring_inv_push_all C xs HC) as (m' & Hrun' & _ & _ & _ & _ & Hperm).
  rewrite Hrun in Hrun'. injection Hrun' as <-.
  rewrite Hperm. apply Forall_fmap, Forall_true. intros x. eexists; reflexivity.
Qed.
End ReplayProofs.

(** C3: on a fresh memory of positive capacity [C] every run of [n]
    pushes returns; afterwards the length is [min(n, C)], the write
    cursor is [n mod C], each of the [C] most recent pushes [j] sits in
    slot [j mod C] (so a push on a full memory overwrites the oldest
    stored transition), and the slots are a rearrangement of exactly
    the [C] most recent pushes. *)
Theorem replay_memory_ring {T : Type} (C : Z) (xs : list T) :
  (0 < C)%Z ->
  exists m : ReplayMemory.t T,
    ReplayMemory.push_all (ReplayMemory.init C) xs = Some m /\
    Z.of_nat (ReplayMemory.len m) = Z.min (Z.of_nat (length xs)) C /\
    ReplayMemory.position m = (Z.of_nat (length xs) mod C)%Z /\
    (forall (j : nat) (x : T),
        (Z.of_nat (length xs) - C <= Z.of_nat j)%Z -> xs !! j = Some x ->
        ReplayMemory.buffer m !! Z.to_nat (Z.of_nat j mod C) = Some (Some x)) /\
    ReplayMemory.buffer m ≡ₚ
      Some <$> drop (Z.to_nat (Z.of_nat (length xs) - C)) xs.
Proof.
  intros HC.
  destruct (ring_inv_push_all C xs HC) as (m & Hrun & _ & Hlen & Hpos & Hslot & Hperm).
  exists m. repeat split; assumption.
Qed.

Lemma replay_memory_ring_witness :
  exists m : ReplayMemory.t nat,
    ReplayMemory.push_all (ReplayMemory.init 3) [10; 11; 12; 13; 14]%nat = Some m /\
    Z.of_nat (ReplayMemory.len m) = Z.min (Z.of_nat (length [10; 11; 12; 13; 14]%nat)) 3 /\
    ReplayMemory.position m = (Z.of_nat (length [10; 11; 12; 13; 14]%nat) mod 3)%Z /\
    (forall (j : nat) (x : nat),
        (Z.of_nat (length [10; 11; 12; 13; 14]%nat) - 3 <= Z.of_nat j)%Z ->
        [10; 11; 12; 13; 14]%nat !! j = Some x ->
        ReplayMemory.buffer m !! Z.to_nat (Z.of_nat j mod 3) = Some (Some x)) /\
    ReplayMemory.buffer m ≡ₚ
      Some <$> drop (Z.to_nat (Z.of_nat (length [10; 11; 12; 13; 14]%nat) - 3))
                 [10; 11; 12; 13; 14]%nat.
Proof.
  apply (replay_memory_ring 3%Z [10; 11; 12; 13; 14]%nat). lia.
Defined.

(** The ring after five pushes into capacity three. *)
Example ring_five_pushes :
  ReplayMemory.push_all (ReplayMemory.init 3) [10; 11; 12; 13; 14]%nat
  = Some {| ReplayMemory.capacity := 3;
            ReplayMemory.buffer := [Some 13; Some 14; Some 12]%nat;
            ReplayMemory.position := 2 |}.
Proof. reflexivity. Qed.

Section SampleProofs.
Import PyNum ReplayMemory.









Context {St Act Rew Dn : Type}.
Implicit Types (m : ReplayMemory.t (St * Act * Rew * St * Dn)).



End SampleProofs.




Section PyNumFacts.
Import PyNum.
Local Open Scope Q_scope.

Lemma Qltb_true (x y : Q) : Qltb x y = true <-> x < y.
Proof.
  unfold Qltb. rewrite negb_true_iff.
  split.
  - intros H. apply Qnot_le_lt. intros Hle.
    apply Qle_bool_iff in Hle. congruence.
  - intros H. destruct (Qle_bool y x) eqn:E; [|reflexivity].
    apply Qle_bool_iff in E. exfalso. exact (Qlt_not_le _ _ H E).
Qed.

Lemma Qleb_true (x y : Q) : Qleb x y = true <-> x <= y.
Proof. unfold Qleb. apply Qle_bool_iff. Qed.

Lemma py_index_length {A : Type} (l : list A) (i : Z) (k : nat) :
  py_index l i = Some k -> (k < length l)%nat.
Proof.
  unfold py_index.
  destruct (Z.leb_spec 0 i), (Z.ltb_spec i (Z.of_nat (length l))); simpl;
    try (intros [= <-]; lia);
    destruct (Z.leb_spec (- Z.of_nat (length l)) i), (Z.ltb_spec i 0); simpl;
    try discriminate; intros [= <-]; lia.
Qed.

Lemma py_index_valid {A : Type} (l : list A) (i : Z) :
  (- Z.of_nat (length l) <= i < Z.of_nat (length l))%Z ->
  exists k, py_index l i = Some k /\ (k < length l)%nat.
Proof.
  intros H. destruct (py_index l i) as [k|] eqn:E.
  - exists k. split; [reflexivity | eapply py_index_length; eauto].
  - exfalso. unfold py_index in E.
    destruct (Z.leb_spec 0 i), (Z.ltb_spec i (Z.of_nat (length l))); simpl in E;
      try discriminate; try lia;
      destruct (Z.leb_spec (- Z.of_nat (length l)) i), (Z.ltb_spec i 0); simpl in E;
      try discriminate; lia.
Qed.

Lemma py_index_last {A : Type} (l : list A) :
  (0 < length l)%nat -> py_index l (-1) = Some (pred (length l)).
Proof.
  intros Hl. unfold py_index.
  destruct (Z.leb_spec 0 (-1)); [lia|].
  simpl.
  destruct (Z.leb_spec (- Z.of_nat (length l)) (-1)); [|lia].
  simpl. f_equal. lia.
Qed.

Lemma fold_max_spec (xs : list Q) (x0 : Q) :
  let m := fold_left (fun m y => if Qlt_le_dec m y then y else m) xs x0 in
  (m = x0 \/ m ∈ xs) /\ x0 <= m /\ Forall (fun x => x <= m) xs.
Proof.
  revert x0. induction xs as [|y ys IH]; intros x0; simpl.
  - split; [left; reflexivity | split; [apply Qle_refl | constructor]].
  - destruct (Qlt_le_dec x0 y) as [Hlt | Hle].
    + destruct (IH y) as (Hin & Hy & Hall). repeat split.
      * right. destruct Hin as [-> | Hin]; [left | right; exact Hin].
      * eapply Qle_trans; [apply Qlt_le_weak; exact Hlt | exact Hy].
      * constructor; assumption.
    + destruct (IH x0) as (Hin & Hx & Hall). repeat split.
      * destruct Hin as [-> | Hin]; [left; reflexivity | right; right; exact Hin].
      * exact Hx.
      * constructor; [eapply Qle_trans; eassumption | exact Hall].
Qed.

(** Python's [max] returns an element of the list that bounds all of
    them. *)
Lemma py_max_spec (l : list Q) (m : Q) :
  py_max l = Some m -> m ∈ l /\ Forall (fun x => x <= m) l.
Proof.
  destruct l as [|x xs]; simpl; [discriminate|].
  intros [= <-].
  destruct (fold_max_spec xs x) as (Hin & Hx & Hall).
  split.
  - destruct Hin as [-> | Hin]; [left | right; exact Hin].
  - constructor; assumption.
Qed.

Lemma py_max_is_Some (l : list Q) : l <> [] -> exists m, py_max l = Some m.
Proof. destruct l; [congruence | intros _; eexists; reflexivity]. Qed.

Lemma np_clip_bounds (x lo hi : Q) : lo <= hi -> lo <= np_clip x lo hi <= hi.
Proof.
  intros H. unfold np_clip.
  destruct (Q.max_spec x lo) as [[? E1] | [? E1]];
    destruct (Q.min_spec (Qmax x lo) hi) as [[? E2] | [? E2]];
    rewrite E2 in *; rewrite ?E1 in *; split; Lqa.lra.
Qed.

Lemma Qdiv_5 (x : Q) : x / 5 == x * (1 # 5).
Proof. reflexivity. Qed.

Lemma Qdiv_50 (x : Q) : x / 50 == x * (1 # 50).
Proof. reflexivity. Qed.
End PyNumFacts.

Section ShapingProofs.
Import PyNum SAC.
Local Open Scope Q_scope.

(** The clip of the source is the clip of the specification. *)
Lemma np_clip_spec (raw : Q) :
  np_clip (raw / 5) (-1) 1 == spec_clipped_reward raw.
Proof.
  unfold np_clip, spec_clipped_reward. cbv zeta.
  set (x := raw / 5).
  destruct (Qlt_le_dec x (-1)) as [H1 | H1]; [|destruct (Qlt_le_dec 1 x) as [H2 | H2]];
    destruct (Q.max_spec x (-1)) as [[? E1] | [? E1]];
    destruct (Q.min_spec (Qmax x (-1)) 1) as [[? E2] | [? E2]];
    rewrite E2 in *; rewrite ?E1 in *; Lqa.lra.
Qed.

(** The chained comparison of the source is the magnitude test of the
    specification. *)
Lemma penal_of_spec (actions : list Q) : penal_of actions = spec_penalty actions.
Proof.
  unfold penal_of, spec_penalty. f_equal. apply map_ext. intros x.
  destruct (Qlt_le_dec (Qabs x) 0.001) as [Hlt | Hge].
  - apply Qabs_Qlt_condition in Hlt. destruct Hlt as [Hlo Hhi].
    apply Qltb_true in Hhi.
    assert (Hlo' : Qltb (-0.001) x = true) by (apply Qltb_true; exact Hlo).
    rewrite Hhi, Hlo'. reflexivity.
  - destruct (Qltb x 0.001 && Qltb (-0.001) x) eqn:E; [|reflexivity].
    apply andb_true_iff in E. destruct E as [E1 E2].
    apply Qltb_true in E1. apply Qltb_true in E2.
    exfalso. apply (Qlt_not_le (Qabs x) 0.001); [|exact Hge].
    apply Qabs_Qlt_condition. split; assumption.
Qed.

Lemma py_last_Some {A : Type} (l : list A) :
  l <> [] -> exists c, py_last l = Some c.
Proof.
  intros Hne. unfold py_last.
  assert (0 < length l)%nat by (destruct l; [congruence | simpl; lia]).
  destruct (py_index_valid l (-1) ltac:(lia)) as (k & -> & Hk).
  apply lookup_lt_is_Some_2. exact Hk.
Qed.

(** The tracker returns whenever the hour slot exists. *)
Lemma track_peak_spec (day_list : list Q) (hr_index : Z) (net : list Q) (c : Q) :
  length day_list = 24%nat ->
  (-24 <= hr_index < 24)%Z ->
  py_last net = Some c ->
  exists (max_peak : Q) (day_list' : list Q) (i : nat),
    track_peak day_list hr_index net = Some (max_peak, day_list') /\
    length day_list' = 24%nat /\
    py_index day_list hr_index = Some i /\
    (hr_index = 0%Z ->
       py_max day_list = Some max_peak /\
       day_list' = c :: replicate 23 0) /\
    (hr_index <> 0%Z ->
       day_list' = <[i := c]> day_list /\
       py_max day_list' = Some max_peak).
Proof.
  intros Hlen Hhr Hc. unfold track_peak. rewrite Hc.
  destruct (py_index_valid day_list hr_index ltac:(lia)) as (i & Hi & Hil).
  destruct (Z.eqb_spec hr_index 0) as [-> | Hne].
  - destruct (py_max_is_Some day_list) as [mp Hmp].
    { intros ->. discriminate. }
    rewrite Hmp.
    exists mp, (c :: replicate 23 0), i. repeat split; try assumption; try congruence.
  - rewrite Hi.
    destruct (py_max_is_Some (<[i := c]> day_list)) as [mp Hmp].
    { intros E. apply (f_equal length) in E. rewrite length_insert in E.
      simpl in E. lia. }
    rewrite Hmp.
    exists mp, (<[i := c]> day_list), i.
    repeat split; try assumption; try congruence.
    rewrite length_insert. exact Hlen.
Qed.

Lemma push_in_ring {T : Type} (m : ReplayMemory.t T) (x : T) :
  (0 <= ReplayMemory.position m < ReplayMemory.capacity m)%Z ->
  (ReplayMemory.position m <= Z.of_nat (length (ReplayMemory.buffer m)))%Z ->
  exists m',
    ReplayMemory.push m x = Some m' /\
    ReplayMemory.capacity m' = ReplayMemory.capacity m /\
    (0 <= ReplayMemory.position m' < ReplayMemory.capacity m')%Z /\
    (ReplayMemory.position m' <= Z.of_nat (length (ReplayMemory.buffer m')))%Z /\
    ReplayMemory.buffer m' !! Z.to_nat (ReplayMemory.position m) = Some (Some x).
Proof.
  intros Hpos Hle. unfold ReplayMemory.push.
  set (buf := if (Z.of_nat (length (ReplayMemory.buffer m)) <? ReplayMemory.capacity m)%Z
              then ReplayMemory.buffer m ++ [None] else ReplayMemory.buffer m).
  assert (Hbuf : (ReplayMemory.position m < Z.of_nat (length buf))%Z
                 /\ (length (ReplayMemory.buffer m) <= length buf)%nat).
  { subst buf.
    destruct (Z.ltb_spec (Z.of_nat (length (ReplayMemory.buffer m)))
                (ReplayMemory.capacity m)).
    - rewrite length_app. simpl. lia.
    - lia. }
  destruct Hbuf as [Hb1 Hb2].
  rewrite py_index_in_range by lia.
  destruct (Z.eqb_spec (ReplayMemory.capacity m) 0); [lia|].
  eexists; split; [reflexivity|]. simpl.
  pose proof (Z.mod_pos_bound (ReplayMemory.position m + 1)
                (ReplayMemory.capacity m) ltac:(lia)) as Hmod.
  rewrite length_insert.
  repeat split; try lia.
  - destruct (Z.eq_dec (ReplayMemory.position m + 1)%Z (ReplayMemory.capacity m)) as [E|E].
    + rewrite E, Z.mod_same by lia. lia.
    + rewrite Z.mod_small by lia. lia.
  - apply list_lookup_insert_eq. lia.
Qed.
End ShapingProofs.

Section ChargerProofs.
Import PyNum Energy.
Local Open Scope Q_scope.
Context {B : Type} `{Battery B}.

Lemma py_min2_spec (a b : Q) : py_min2 a b == Qmin a b /\ py_min2 a b <= a /\ py_min2 a b <= b.
Proof.
  unfold py_min2. destruct (Qltb b a) eqn:E.
  - apply Qltb_true in E.
    destruct (Q.min_spec a b) as [[? ->] | [? ->]]; repeat split; Lqa.lra.
  - assert (a <= b).
    { apply Qnot_lt_le. intros Hlt. apply Qltb_true in Hlt. congruence. }
    destruct (Q.min_spec a b) as [[? ->] | [? ->]]; repeat split; Lqa.lra.
Qed.

Lemma py_max2_spec (a b : Q) : py_max2 a b == Qmax a b /\ a <= py_max2 a b /\ b <= py_max2 a b.
Proof.
  unfold py_max2. destruct (Qltb a b) eqn:E.
  - apply Qltb_true in E.
    destruct (Q.max_spec a b) as [[? ->] | [? ->]]; repeat split; Lqa.lra.
  - assert (b <= a).
    { apply Qnot_lt_le. intros Hlt. apply Qltb_true in Hlt. congruence. }
    destruct (Q.max_spec a b) as [[? ->] | [? ->]]; repeat split; Lqa.lra.
Qed.

Lemma list_set_Some {A : Type} (l : list A) (i : nat) (x : A) :
  (i < length l)%nat -> list_set l i x = Some (<[i := x]> l).
Proof. intros Hi. unfold list_set. destruct (decide (i < length l)%nat); [reflexivity | lia]. Qed.

Lemma Qeq_bool_false (a b : Q) : ~ a == b -> Qeq_bool a b = false.
Proof.
  intros Hne. destruct (Qeq_bool a b) eqn:E; [|reflexivity].
  apply Qeq_bool_iff in E. contradiction.
Qed.

(** A call with a connected vehicle and a non-zero action returns, and
    the main battery receives the clamped energy times the
    efficiency. *)
Lemma update_charges (self : Charger.t B) (car : electric_vehicle.t B)
    (action_value soc_now : Q) :
  Charger.connected_ev self = Some car ->
  Charger.ready self car ->
  ~ action_value == 0 ->
  soc (electric_vehicle.battery car) !! Charger.time_step self = Some soc_now ->
  exists self' car',
    Charger.update_connected_ev_soc self action_value = Some self' /\
    Charger.connected_ev self' = Some car' /\
    electric_vehicle.battery car' =
      charge (electric_vehicle.battery car)
        (Charger.clamped_energy self car action_value soc_now
         * Charger.efficiency self).
Proof.
  intros Hcar (H1 & H2 & H3 & [req Hreq] & [aux Haux]) Hne Hsoc.
  unfold Charger.update_connected_ev_soc.
  rewrite list_set_Some by exact H1. rewrite Hcar.
  rewrite Qeq_bool_false by exact Hne. simpl negb. cbv iota.
  rewrite Hsoc.
  destruct (py_last_Some (Energy.electricity_consumption
              (charge (electric_vehicle.battery car)
                 (Charger.clamped_energy self car action_value soc_now
                  * Charger.efficiency self)))) as [used Hused].
  { apply charge_records. }
  rewrite Hused, Hreq, Haux.
  rewrite list_set_Some by exact H2.
  match goal with
  | |- context [py_last (Energy.electricity_consumption (charge ?b ?e))] =>
      destruct (py_last_Some (Energy.electricity_consumption (charge b e)))
        as [aux_used Haux_used]; [apply charge_records|]
  end.
  rewrite Haux_used.
  rewrite list_set_Some by exact H3.
  eexists; eexists; split; [reflexivity|]. simpl. split; reflexivity.
Qed.

Lemma requested_energy_cases (self : Charger.t B) (a : Q) :
  (0 < a -> Charger.requested_energy self a = a * Charger.max_charging_power self) /\
  (a <= 0 -> Charger.requested_energy self a = a * Charger.max_discharging_power self).
Proof.
  unfold Charger.requested_energy. split; intros Ha.
  - apply Qltb_true in Ha. rewrite Ha. reflexivity.
  - destruct (Qltb 0 a) eqn:E; [|reflexivity].
    apply Qltb_true in E. exfalso. Lqa.lra.
Qed.

Lemma clamped_energy_cases (self : Charger.t B) (car : electric_vehicle.t B)
    (a soc_now : Q) :
  let requested := Charger.requested_energy self a in
  let cap := capacity (electric_vehicle.battery car) in
  (0 <= requested ->
     Charger.clamped_energy self car a soc_now = py_min2 requested (cap - soc_now)) /\
  (requested < 0 ->
     Charger.clamped_energy self car a soc_now
     = py_max2 requested (- (soc_now - 0.10 * cap))).
Proof.
  cbv zeta. unfold Charger.clamped_energy. split; intros Hr.
  - apply Qleb_true in Hr. rewrite Hr. reflexivity.
  - destruct (Qleb 0 (Charger.requested_energy self a)) eqn:E; [|reflexivity].
    apply Qleb_true in E. exfalso. Lqa.lra.
Qed.
End ChargerProofs.

(** C5: with a connected vehicle and a non-zero action the call returns;
    the requested energy is the action times the maximum charging power
    for a positive action and times the maximum discharging power for a
    negative one; before the efficiency is applied it is clamped to
    [min(energy, capacity - soc)] when it charges ([energy >= 0]) and to
    [max(energy, -(soc - 0.10 * capacity))] when it discharges; the main
    battery is charged with the clamped energy times the efficiency; and
    with capacity 50, state of charge 48 and a request of 10 the clamped
    energy is 2. *)
Theorem charger_energy_clamp {B : Type} `{Energy.Battery B}
    (self : Charger.t B) (car : electric_vehicle.t B) (action_value soc_now : Q) :
  Charger.connected_ev self = Some car ->
  Charger.ready self car ->
  ~ (action_value == 0)%Q ->
  Energy.soc (electric_vehicle.battery car) !! Charger.time_step self = Some soc_now ->
  let requested := Charger.requested_energy self action_value in
  let energy := Charger.clamped_energy self car action_value soc_now in
  let cap := Energy.capacity (electric_vehicle.battery car) in
  ((0 < action_value)%Q ->
     requested = (action_value * Charger.max_charging_power self)%Q) /\
  ((action_value < 0)%Q ->
     requested = (action_value * Charger.max_discharging_power self)%Q) /\
  ((0 <= requested)%Q ->
     (energy == Qmin requested (cap - soc_now))%Q /\ (energy <= cap - soc_now)%Q) /\
  ((requested < 0)%Q ->
     (energy == Qmax requested (- (soc_now - 0.10 * cap)))%Q /\
     (- (soc_now - 0.10 * cap) <= energy)%Q) /\
  (exists self' car',
     Charger.update_connected_ev_soc self action_value = Some self' /\
     Charger.connected_ev self' = Some car' /\
     electric_vehicle.battery car' =
       Energy.charge (electric_vehicle.battery car)
         (energy * Charger.efficiency self)%Q) /\
  ((cap == 50)%Q -> (soc_now == 48)%Q -> (requested == 10)%Q -> (energy == 2)%Q).
Proof.
  intros Hcar Hready Hne Hsoc requested energy cap.
  destruct (requested_energy_cases self action_value) as [Hpos Hneg].
  destruct (clamped_energy_cases self car action_value soc_now) as [Hch Hdis].
  fold requested energy cap in Hch, Hdis.
  split; [exact Hpos|].
  split; [intros Ha; apply Hneg; Lqa.lra|].
  split.
  { intros Hr. rewrite (Hch Hr).
    destruct (py_min2_spec requested (cap - soc_now)%Q) as (E & _ & Hle).
    split; assumption. }
  split.
  { intros Hr. rewrite (Hdis Hr).
    destruct (py_max2_spec requested (- (soc_now - 0.10 * cap))%Q) as (E & _ & Hle).
    split; assumption. }
  split.
  { apply update_charges; assumption. }
  intros Hc Hs Hr.
  assert (Hr0 : (0 <= requested)%Q) by Lqa.lra.
  rewrite (Hch Hr0).
  destruct (py_min2_spec requested (cap - soc_now)%Q) as (E & _ & _).
  rewrite E.
  destruct (Q.min_spec requested (cap - soc_now)%Q) as [[? ->] | [? ->]]; Lqa.lra.
Qed.

Lemma charger_energy_clamp_witness :
  (Charger.clamped_energy (Examples.charger_with 50 48) (Examples.car_at 0 [48%Q])
     (1 # 5) 48 == 2)%Q.
Proof.
  apply (charger_energy_clamp (Examples.charger_with 50 48)
           (Examples.car_at 0 [48%Q]) (1 # 5) 48).
  - reflexivity.
  - unfold Charger.ready; simpl. repeat split; try lia; eexists; reflexivity.
  - intros E. discriminate E.
  - reflexivity.
  - reflexivity.
  - reflexivity.
  - reflexivity.
Defined.

(** C10 (amended): with a connected vehicle, a negative action, a
    positive maximum discharging power and a state of charge strictly
    below 0.10 times the capacity, the clamped energy is
    [max(action * max_discharging_power, -(soc - 0.10 * capacity))],
    equals the gap [0.10 * capacity - soc] to the floor and is strictly
    positive; the call returns and charges the main battery with that
    energy times the (positive) efficiency. *)
Theorem discharge_below_floor_charges {B : Type} `{Energy.Battery B}
    (self : Charger.t B) (car : electric_vehicle.t B) (action_value soc_now : Q) :
  Charger.connected_ev self = Some car ->
  Charger.ready self car ->
  Energy.soc (electric_vehicle.battery car) !! Charger.time_step self = Some soc_now ->
  (action_value < 0)%Q ->
  (0 < Charger.max_discharging_power self)%Q ->
  (0 < Charger.efficiency self)%Q ->
  (soc_now < 0.10 * Energy.capacity (electric_vehicle.battery car))%Q ->
  let energy := Charger.clamped_energy self car action_value soc_now in
  let cap := Energy.capacity (electric_vehicle.battery car) in
  (energy == Qmax (action_value * Charger.max_discharging_power self)
               (- (soc_now - 0.10 * cap)))%Q /\
  (energy == 0.10 * cap - soc_now)%Q /\
  (0 < energy)%Q /\
  (0 < energy * Charger.efficiency self)%Q /\
  exists self' car',
    Charger.update_connected_ev_soc self action_value = Some self' /\
    Charger.connected_ev self' = Some car' /\
    electric_vehicle.battery car' =
      Energy.charge (electric_vehicle.battery car)
        (energy * Charger.efficiency self)%Q.
Proof.
  intros Hcar Hready Hsoc Ha Hmdp Heff Hlow energy cap.
  destruct (requested_energy_cases self action_value) as [_ Hneg].
  specialize (Hneg ltac:(Lqa.lra)).
  assert (Hreq : (Charger.requested_energy self action_value < 0)%Q).
  { rewrite Hneg.
    pose proof (Qmult_lt_compat_r action_value 0 _ Hmdp Ha). Lqa.lra. }
  destruct (clamped_energy_cases self car action_value soc_now) as [_ Hdis].
  specialize (Hdis Hreq). fold energy cap in Hdis. rewrite Hneg in Hdis.
  destruct (py_max2_spec (action_value * Charger.max_discharging_power self)%Q
              (- (soc_now - 0.10 * cap))%Q) as (E & _ & Hle).
  rewrite <- Hdis in E, Hle.
  rewrite <- Hneg in E.
  assert (Egap : (energy == 0.10 * cap - soc_now)%Q).
  { rewrite E.
    destruct (Q.max_spec (Charger.requested_energy self action_value)
                (- (soc_now - 0.10 * cap))%Q) as [[? ->] | [? ->]];
      fold cap in Hlow; Lqa.lra. }
  assert (Hpos : (0 < energy)%Q) by (fold cap in Hlow; Lqa.lra).
  split; [rewrite <- Hneg; exact E|].
  split; [exact Egap|].
  split; [exact Hpos|].
  split.
  { pose proof (Qmult_lt_compat_r 0 energy _ Heff Hpos). Lqa.lra. }
  apply update_charges; try assumption.
  intros E0. Lqa.lra.
Qed.

Lemma discharge_below_floor_charges_witness :
  (0 < Charger.clamped_energy (Examples.charger_with 50 2) (Examples.car_at 0 [2%Q])
         (-1) 2)%Q.
Proof.
  apply (discharge_below_floor_charges (Examples.charger_with 50 2)
           (Examples.car_at 0 [2%Q]) (-1) 2).
  - reflexivity.
  - unfold Charger.ready; simpl. repeat split; try lia; eexists; reflexivity.
  - reflexivity.
  - reflexivity.
  - reflexivity.
  - reflexivity.
  - reflexivity.
Defined.

(** A charger that cannot discharge ([max_discharging_power = 0]): the
    negative action on a battery below the floor asks for energy 0,
    which counts as charging, and the clamped energy is 0, not
    positive. *)
Lemma discharge_below_floor_counterexample :
  Charger.connected_ev (Examples.charger_with 0 2) = Some (Examples.car_at 0 [2%Q]) /\
  (-1 < 0)%Q /\
  (2 < 0.10 * Energy.capacity (electric_vehicle.battery (Examples.car_at 0 [2%Q])))%Q /\
  ~ (0 < Charger.clamped_energy (Examples.charger_with 0 2) (Examples.car_at 0 [2%Q])
           (-1) 2)%Q.
Proof.
  repeat split. intros Hpos. vm_compute in Hpos. discriminate Hpos.
Qed.

(** On the battery modelled from the specification a positive energy
    raises a state of charge that is below the capacity. *)
Lemma simple_battery_charge_raises (b : Energy.SimpleBattery) (earlier : list Q)
    (now energy : Q) :
  Energy.sb_soc b = earlier ++ [now] ->
  (now < Energy.sb_capacity b)%Q -> (0 < energy)%Q ->
  exists new,
    Energy.sb_soc (Energy.sb_charge b energy) = earlier ++ [new] /\
    (now < new)%Q /\ (new <= Energy.sb_capacity b)%Q.
Proof.
  intros Hsoc Hcap He.
  assert (Hcur : Energy.sb_current b = now).
  { unfold Energy.sb_current, PyNum.py_last. rewrite Hsoc.
    rewrite py_index_last by (rewrite length_app; simpl; lia).
    rewrite length_app. simpl.
    replace (pred (length earlier + 1)) with (length earlier) by lia.
    rewrite list_lookup_middle by reflexivity. reflexivity. }
  exists (PyNum.np_clip (now + energy) 0 (Energy.sb_capacity b)).
  split.
  - unfold Energy.sb_charge. simpl. rewrite Hcur, Hsoc.
    rewrite length_app. simpl.
    replace (pred (length earlier + 1)) with (length earlier + 0)%nat by lia.
    rewrite insert_app_r. reflexivity.
  - unfold PyNum.np_clip.
    destruct (Q.max_spec (now + energy) 0) as [[? E1] | [? E1]];
      destruct (Q.min_spec (Qmax (now + energy) 0) (Energy.sb_capacity b))
        as [[? E2] | [? E2]];
      rewrite E2 in *; rewrite ?E1 in *; split; Lqa.lra.
Qed.

Section VehicleProofs.
Import PyNum Energy.
Local Open Scope Q_scope.
Context {B : Type} `{Battery B}.

(** What the source passes to the two ad-hoc adjustments: the final
    state of charge minus the battery's [initial_soc] attribute. *)
Lemma adjust_passes_final_minus_initial (self : electric_vehicle.t B)
    (soc_system_connection normal_draw : Q) :
  let a := electric_vehicle.adjust_locals self soc_system_connection normal_draw in
  let self' := electric_vehicle.adjust_ev_soc_on_system_connection
                 self soc_system_connection normal_draw in
  electric_vehicle.battery self' =
    set_ad_hoc_charge (electric_vehicle.battery self)
      (electric_vehicle.soc_final_kwh a
       - initial_soc (electric_vehicle.battery self)) /\
  electric_vehicle.aux_battery self' =
    set_ad_hoc_charge (electric_vehicle.aux_battery self)
      (electric_vehicle.aux_soc_final_kwh a
       - initial_soc (electric_vehicle.aux_battery self)).
Proof. split; reflexivity. Qed.
End VehicleProofs.

(** C7: at time step 1 a 50 kWh battery that started the episode at
    10 kWh holds 30 kWh; the predicted state of charge is 40 percent and
    the draw is 0, so the final state of charge is 20 kWh.  The source
    passes [20 - 10 = 10] kWh to the ad-hoc adjustment, not
    [20 - 30 = -10] kWh. *)
Lemma adjust_delta_from_initial_soc_not_current :
  let ev := Examples.car_at 1 [10; 30]%Q in
  let a := electric_vehicle.adjust_locals ev 40 0 in
  Energy.soc (electric_vehicle.battery ev) !! electric_vehicle.time_step ev
    = Some 30%Q /\
  (electric_vehicle.soc_final_kwh a == 20)%Q /\
  (electric_vehicle.ad_hoc_energy a == 10)%Q /\
  ~ (electric_vehicle.ad_hoc_energy a == electric_vehicle.soc_final_kwh a - 30)%Q /\
  electric_vehicle.battery (electric_vehicle.adjust_ev_soc_on_system_connection ev 40 0)
    = Energy.set_ad_hoc_charge (electric_vehicle.battery ev)
        (electric_vehicle.ad_hoc_energy a).
Proof.
  cbv zeta. repeat split.
  intros E. vm_compute in E. discriminate E.
Qed.

(** C8: for every draw the fraction applied to the target lies in
    [-0.2, 0.2]; the same fraction [v] perturbs both targets, so each
    final value is its target times [1 + v]; the two final values are in
    the ratio of the two targets, which is the ratio of the two
    capacities scaled by the common percentage. *)
Theorem adjustment_fraction_and_ratio {B : Type} `{Energy.Battery B}
    (self : electric_vehicle.t B) (soc_system_connection normal_draw : Q) :
  let a := electric_vehicle.adjust_locals self soc_system_connection normal_draw in
  let v := electric_vehicle.variation_percentage a in
  let target := electric_vehicle.soc_system_connection_kwh a in
  let aux_target := electric_vehicle.aux_soc_system_connection_kwh a in
  let final := electric_vehicle.soc_final_kwh a in
  let aux_final := electric_vehicle.aux_soc_final_kwh a in
  (-0.2 <= v <= 0.2)%Q /\
  target = (Energy.capacity (electric_vehicle.battery self)
            * (soc_system_connection / 100))%Q /\
  aux_target = (Energy.capacity (electric_vehicle.aux_battery self)
                * (soc_system_connection / 100))%Q /\
  (electric_vehicle.variation_kwh a == v * target)%Q /\
  (electric_vehicle.aux_variation_kwh a == v * aux_target)%Q /\
  (final == target * (1 + v))%Q /\
  (aux_final == aux_target * (1 + v))%Q /\
  (final * aux_target == aux_final * target)%Q /\
  (final * Energy.capacity (electric_vehicle.aux_battery self)
   == aux_final * Energy.capacity (electric_vehicle.battery self))%Q /\
  (~ (aux_target == 0)%Q -> (final / aux_final == target / aux_target)%Q).
Proof.
  cbv zeta. simpl.
  set (v := PyNum.np_clip normal_draw (-0.2) 0.2).
  set (cap := Energy.capacity (electric_vehicle.battery self)).
  set (aux_cap := Energy.capacity (electric_vehicle.aux_battery self)).
  assert (Hv : (-0.2 <= v <= 0.2)%Q).
  { apply np_clip_bounds. Lqa.lra. }
  split; [exact Hv|].
  split; [reflexivity|].
  split; [reflexivity|].
  split; [reflexivity|].
  split; [reflexivity|].
  split; [ring|].
  split; [ring|].
  split; [ring|].
  split; [unfold Qdiv; ring|].
  intros Hnz.
  assert (H1v : ~ (1 + v == 0)%Q) by (intros E; Lqa.lra).
  set (t := (cap * (soc_system_connection / 100))%Q) in *.
  set (u := (aux_cap * (soc_system_connection / 100))%Q) in *.
  clearbody t u.
  field. split; [exact Hnz|].
  intros E.
  assert (E' : (u * (1 + v) == 0)%Q) by (rewrite <- E; ring).
  apply Qmult_integral in E'. destruct E' as [E' | E']; contradiction.
Qed.

Section TargetUpdateProofs.
Import SAC.
Local Open Scope Q_scope.

Lemma zip_with_snd_same_length (tp p : Tensor) :
  length tp = length p -> zip_with (fun _ q => q) tp p = p.
Proof.
  revert p. induction tp as [|t tp IH]; intros [|q p] Hl; simpl in *;
    try discriminate; [reflexivity|].
  f_equal. apply IH. lia.
Qed.

(** The hard update copies the source exactly. *)
Lemma hard_update_exact (target source : Params) :
  same_shape target source -> hard_update target source = source.
Proof.
  intros Hs. induction Hs as [|tp p target source Hl _ IH]; simpl.
  - reflexivity.
  - rewrite zip_with_snd_same_length by exact Hl. rewrite IH. reflexivity.
Qed.

(** One entry of the soft update. *)
Lemma soft_update_entry (target source : Params) (tau : Q) (i j : nat)
    (tp p : Tensor) (t s : Q) :
  target !! i = Some tp -> tp !! j = Some t ->
  source !! i = Some p -> p !! j = Some s ->
  exists tp' t',
    soft_update target source tau !! i = Some tp' /\ tp' !! j = Some t' /\
    t' = t * (1 - tau) + s * tau /\
    t' == t + tau * (s - t) /\
    t' - t == tau * (s - t).
Proof.
  revert source i. induction target as [|tp0 target IH]; intros source i Ht Htj Hs Hsj.
  - destruct i; discriminate Ht.
  - destruct source as [|p0 source]; [destruct i; discriminate Hs|].
    destruct i as [|i]; simpl in *.
    + injection Ht as ->. injection Hs as ->.
      eexists; eexists; split; [reflexivity|].
      split; [|split; [reflexivity | split; ring]].
      rewrite lookup_zip_with, Htj. simpl. rewrite Hsj. reflexivity.
    + apply IH; assumption.
Qed.

Lemma soft_update_length (target source : Params) (tau : Q) :
  length (soft_update target source tau) = length target.
Proof.
  revert source. induction target as [|tp target IH]; intros [|p source]; simpl;
    try reflexivity. rewrite IH. reflexivity.
Qed.

(** The constructor: the target is the hard update from the fresh
    critic; with [continue_training] the critic is then replaced by
    the stored one. *)
Lemma init_target (critic0 target0 policy0 : Params) (ev ct : bool)
    (stored_actor stored_critic : option Params) (self : t) :
  init critic0 target0 policy0 ev ct stored_actor stored_critic = Some self ->
  critic_target self = hard_update target0 critic0 /\
  (ct = false -> critic self = critic0) /\
  (ct = true -> stored_critic = Some (critic self)).
Proof.
  unfold init. destruct ct.
  - unfold load_state_dict.
    destruct stored_actor as [pa|]; [|discriminate].
    destruct (decide (map length pa = map length policy0)); [|discriminate].
    destruct stored_critic as [pc|]; [|discriminate].
    destruct (decide (map length pc = map length critic0)); [|discriminate].
    intros [= <-]. simpl. repeat split; congruence.
  - intros [= <-]. simpl. repeat split; congruence.
Qed.

(** Without loading, target and critic agree after construction. *)
Lemma init_without_load_target_equals_critic
    (critic0 target0 policy0 : Params) (ev : bool)
    (stored_actor stored_critic : option Params) :
  same_shape target0 critic0 ->
  exists self,
    init critic0 target0 policy0 ev false stored_actor stored_critic = Some self /\
    critic_target self = critic self.
Proof.
  intros Hs. eexists; split; [reflexivity|]. simpl.
  apply hard_update_exact. exact Hs.
Qed.
End TargetUpdateProofs.

(** C9: construction with the default [continue_training = True].  The
    fresh critic is [[0]], the stored critic [[1]].  The constructor
    returns a learner whose critic is the stored [[1]] while the target
    is still the copy [[0]] of the fresh critic: target and critic
    differ immediately after construction. *)
Lemma init_target_differs_after_load :
  exists self : SAC.t,
    SAC.init [[0%Q]] [[5%Q]] [[0%Q]] false true (Some [[7%Q]]) (Some [[1%Q]])
      = Some self /\
    SAC.critic self = [[1%Q]] /\
    SAC.critic_target self = [[0%Q]] /\
    SAC.critic_target self <> SAC.critic self.
Proof.
  eexists; split; [reflexivity|]. simpl. repeat split. discriminate.
Qed.

Section AddToBufferProofs.
Import PyNum SAC.
Local Open Scope Q_scope.

Lemma init_wf (critic0 target0 policy0 : Params) (ev ct : bool)
    (stored_actor stored_critic : option Params) (self : t) :
  init critic0 target0 policy0 ev ct stored_actor stored_critic = Some self ->
  wf self.
Proof.
  unfold init. intros Hinit.
  destruct (if ct then _ else _) as [[pol cr]|]; [|discriminate].
  injection Hinit as <-. unfold wf; simpl. repeat split; try reflexivity; lia.
Qed.

(** A call whose hour slot exists returns; the result is described by
    the tracker and the push. *)
Lemma add_to_buffer_returns (self : t) (net states actions : list Q)
    (rewards : Q) (next_states : list Q) (dones : bool) (hour : Q) :
  wf self ->
  states !! 2%nat = Some hour ->
  (-23 <= py_int hour <= 24)%Z ->
  net <> [] ->
  exists (self' : t) (max_peak : Q) (day_list' : list Q),
    let total :=
      penal_of actions * sw4 self + np_clip (rewards / 5) (-1) 1 * sw5 self
      + max_peak / 50 * sw6 self + hr_pen_of hour (np_mean actions) * sw7 self in
    add_to_buffer self net states actions rewards next_states dones
      = Some (self', (total,
                      np_clip (rewards / 5) (-1) 1 * sw5 self,
                      penal_of actions * sw4 self,
                      max_peak / 50 * sw6 self,
                      hr_pen_of hour (np_mean actions) * sw7 self)) /\
    track_peak (day_list self) (py_int hour - 1) net = Some (max_peak, day_list') /\
    day_list self' = day_list' /\
    reward_tracker self' = reward_tracker self ++ [total] /\
    ReplayMemory.buffer (memory self')
      !! Z.to_nat (ReplayMemory.position (memory self))
      = Some (Some (states, actions, total, next_states, dones)) /\
    wf self'.
Proof.
  intros (W4 & W5 & W6 & W7 & Hday & Hpos & Hle) Hhour Hrange Hnet.
  destruct (py_last_Some net Hnet) as [c Hc].
  destruct (track_peak_spec (day_list self) (py_int hour - 1) net c Hday
              ltac:(lia) Hc) as (mp & dl & i & Htrack & Hdl & _).
  set (total := penal_of actions * sw4 self + np_clip (rewards / 5) (-1) 1 * sw5 self
                + mp / 50 * sw6 self + hr_pen_of hour (np_mean actions) * sw7 self).
  destruct (push_in_ring (memory self) (states, actions, total, next_states, dones)
              Hpos Hle) as (m' & Hpush & Hcap & Hpos' & Hle' & Hslot).
  unfold add_to_buffer. rewrite Hhour, Htrack. fold total. rewrite Hpush.
  eexists; exists mp, dl. cbv zeta. fold total.
  split; [reflexivity|]. unfold wf. simpl.
  repeat split; try assumption; try reflexivity; try lia.
Qed.
End AddToBufferProofs.

(** C1: on a learner as the constructor and earlier calls leave it, a
    call whose state vector carries an hour with a slot in the day list
    returns; the returned total is
    [0.5 * penalty + 1 * clipped_reward + (-0.5) * (max_peak / 50)
     + 2 * hr_pen], where [penalty] sums [-10] for every action
    component of magnitude below [0.001] and [+1] for every other,
    [clipped_reward] is the raw reward divided by 5 and clipped into
    [[-1, 1]], [max_peak] is the tracker's daily peak and [hr_pen] the
    hour bonus/penalty; the same total is stored in the replay memory
    slot written by the call and appended to the reward tracker. *)
Theorem add_to_buffer_shaped_reward (self : SAC.t) (net states actions : list Q)
    (rewards : Q) (next_states : list Q) (dones : bool) (hour : Q) :
  SAC.wf self ->
  states !! 2%nat = Some hour ->
  (-23 <= PyNum.py_int hour <= 24)%Z ->
  net <> [] ->
  exists (self' : SAC.t) (total r_term p_term k_term h_term max_peak : Q)
         (day_list' : list Q),
    SAC.add_to_buffer self net states actions rewards next_states dones
      = Some (self', (total, r_term, p_term, k_term, h_term)) /\
    SAC.track_peak (SAC.day_list self) (PyNum.py_int hour - 1) net
      = Some (max_peak, day_list') /\
    (total == 0.5 * SAC.spec_penalty actions
              + 1 * SAC.spec_clipped_reward rewards
              + (-0.5) * (max_peak / 50)
              + 2 * SAC.hr_pen_of hour (PyNum.np_mean actions))%Q /\
    (total == p_term + r_term + k_term + h_term)%Q /\
    (-1 <= SAC.spec_clipped_reward rewards <= 1)%Q /\
    ReplayMemory.buffer (SAC.memory self')
      !! Z.to_nat (ReplayMemory.position (SAC.memory self))
      = Some (Some (states, actions, total, next_states, dones)) /\
    SAC.reward_tracker self' = SAC.reward_tracker self ++ [total] /\
    SAC.wf self'.
Proof.
  intros Hwf Hhour Hrange Hnet.
  destruct (add_to_buffer_returns self net states actions rewards next_states dones
              hour Hwf Hhour Hrange Hnet)
    as (self' & mp & dl & Hrun & Htrack & _ & Htr & Hslot & Hwf').
  cbv zeta in *.
  destruct Hwf as (W4 & W5 & W6 & W7 & _).
  do 6 eexists. exists mp, dl.
  split; [exact Hrun|].
  split; [exact Htrack|].
  split.
  { rewrite W4, W5, W6, W7, <- np_clip_spec, <- penal_of_spec.
    rewrite (Qdiv_50 mp). unfold Qdiv. change (/ 2)%Q with (1 # 2)%Q. ring. }
  split; [ring|].
  split.
  { rewrite <- np_clip_spec. apply np_clip_bounds. Lqa.lra. }
  split; [exact Hslot|].
  split; [exact Htr | exact Hwf'].
Qed.

Lemma add_to_buffer_shaped_reward_witness :
  exists (self' : SAC.t) (total r_term p_term k_term h_term max_peak : Q)
         (day_list' : list Q),
    SAC.add_to_buffer Examples.learner [3; 10]%Q [0; 0; 1]%Q [0.5; 0]%Q (-3)%Q
      [0; 0; 2]%Q false
      = Some (self', (total, r_term, p_term, k_term, h_term)) /\
    SAC.track_peak (SAC.day_list Examples.learner) (PyNum.py_int 1 - 1) [3; 10]%Q
      = Some (max_peak, day_list') /\
    (total == 0.5 * SAC.spec_penalty [0.5; 0]%Q
              + 1 * SAC.spec_clipped_reward (-3)
              + (-0.5) * (max_peak / 50)
              + 2 * SAC.hr_pen_of 1 (PyNum.np_mean [0.5; 0]%Q))%Q /\
    (total == p_term + r_term + k_term + h_term)%Q /\
    (-1 <= SAC.spec_clipped_reward (-3) <= 1)%Q /\
    ReplayMemory.buffer (SAC.memory self')
      !! Z.to_nat (ReplayMemory.position (SAC.memory Examples.learner))
      = Some (Some ([0; 0; 1]%Q, [0.5; 0]%Q, total, [0; 0; 2]%Q, false)) /\
    SAC.reward_tracker self' = SAC.reward_tracker Examples.learner ++ [total] /\
    SAC.wf self'.
Proof.
  apply (add_to_buffer_shaped_reward Examples.learner [3; 10]%Q [0; 0; 1]%Q
           [0.5; 0]%Q (-3)%Q [0; 0; 2]%Q false 1%Q).
  - unfold SAC.wf; simpl. repeat split; try reflexivity; lia.
  - reflexivity.
  - vm_compute. split; discriminate.
  - discriminate.
Defined.

(** C2 (amended): on a call whose hour truncates to 1 the daily peak is
    the maximum of the day list as the earlier calls left it, which does
    not contain the consumption of the current step, and the list is
    then reset to zeros with the current consumption in slot 0; on any
    other call the current consumption is first written to slot
    [int(hour) - 1] and the daily peak is the maximum of the 24 slots,
    so it is at least the current consumption, at least every other
    slot (the values recorded since the reset and 0 for the slots not
    yet written), and is one of the slots.  The peak term of the shaped
    reward is the daily peak divided by 50 times [-1/2]. *)
Theorem daily_peak_tracking (self : SAC.t) (net states actions : list Q)
    (rewards : Q) (next_states : list Q) (dones : bool) (hour c : Q) :
  SAC.wf self ->
  states !! 2%nat = Some hour ->
  (-23 <= PyNum.py_int hour <= 24)%Z ->
  PyNum.py_last net = Some c ->
  exists (self' : SAC.t) (total r_term p_term k_term h_term max_peak : Q),
    SAC.add_to_buffer self net states actions rewards next_states dones
      = Some (self', (total, r_term, p_term, k_term, h_term)) /\
    (k_term == max_peak / 50 * -(1 # 2))%Q /\
    length (SAC.day_list self') = 24%nat /\
    (PyNum.py_int hour = 1%Z ->
       PyNum.py_max (SAC.day_list self) = Some max_peak /\
       max_peak ∈ SAC.day_list self /\
       Forall (fun x => (x <= max_peak)%Q) (SAC.day_list self) /\
       SAC.day_list self' = c :: replicate 23 0%Q) /\
    (PyNum.py_int hour <> 1%Z ->
       exists i : nat,
         PyNum.py_index (SAC.day_list self) (PyNum.py_int hour - 1) = Some i /\
         SAC.day_list self' = <[i := c]> (SAC.day_list self) /\
         PyNum.py_max (SAC.day_list self') = Some max_peak /\
         max_peak ∈ SAC.day_list self' /\
         Forall (fun x => (x <= max_peak)%Q) (SAC.day_list self') /\
         (c <= max_peak)%Q).
Proof.
  intros Hwf Hhour Hrange Hc.
  assert (Hnet : net <> []).
  { intros ->. discriminate Hc. }
  destruct (add_to_buffer_returns self net states actions rewards next_states dones
              hour Hwf Hhour Hrange Hnet)
    as (self' & mp & dl & Hrun & Htrack & Hday' & _ & _ & Hwf').
  cbv zeta in Hrun.
  destruct Hwf as (_ & _ & W6 & _ & Hday & _).
  destruct (track_peak_spec (SAC.day_list self) (PyNum.py_int hour - 1) net c Hday
              ltac:(lia) Hc) as (mp' & dl' & i & Htrack' & Hdl & Hi & Hreset & Hother).
  rewrite Htrack in Htrack'. injection Htrack' as <- <-.
  do 6 eexists. exists mp.
  split; [exact Hrun|].
  split; [rewrite W6; reflexivity|].
  split; [rewrite Hday'; exact Hdl|].
  split.
  - intros H1. destruct (Hreset ltac:(lia)) as [Hmax Hdl1].
    destruct (py_max_spec _ _ Hmax) as [Hin Hall].
    rewrite Hday'. repeat split; assumption.
  - intros H1. destruct (Hother ltac:(lia)) as [Hdl1 Hmax].
    destruct (py_max_spec _ _ Hmax) as [Hin Hall].
    exists i. rewrite Hday'. repeat split; try assumption.
    apply py_index_length in Hi.
    rewrite Forall_forall in Hall. apply Hall.
    rewrite Hdl1. apply list_elem_of_lookup. exists i.
    apply list_lookup_insert_eq. exact Hi.
Qed.

Lemma daily_peak_tracking_witness :
  exists (self' : SAC.t) (total r_term p_term k_term h_term max_peak : Q),
    SAC.add_to_buffer Examples.learner [3; 10]%Q [0; 0; 2]%Q [0.5; 0]%Q (-3)%Q
      [0; 0; 3]%Q false
      = Some (self', (total, r_term, p_term, k_term, h_term)) /\
    (k_term == max_peak / 50 * -(1 # 2))%Q /\
    length (SAC.day_list self') = 24%nat /\
    (PyNum.py_int 2 = 1%Z ->
       PyNum.py_max (SAC.day_list Examples.learner) = Some max_peak /\
       max_peak ∈ SAC.day_list Examples.learner /\
       Forall (fun x => (x <= max_peak)%Q) (SAC.day_list Examples.learner) /\
       SAC.day_list self' = 10%Q :: replicate 23 0%Q) /\
    (PyNum.py_int 2 <> 1%Z ->
       exists i : nat,
         PyNum.py_index (SAC.day_list Examples.learner) (PyNum.py_int 2 - 1) = Some i /\
         SAC.day_list self' = <[i := 10%Q]> (SAC.day_list Examples.learner) /\
         PyNum.py_max (SAC.day_list self') = Some max_peak /\
         max_peak ∈ SAC.day_list self' /\
         Forall (fun x => (x <= max_peak)%Q) (SAC.day_list self') /\
         (10 <= max_peak)%Q).
Proof.
  apply (daily_peak_tracking Examples.learner [3; 10]%Q [0; 0; 2]%Q [0.5; 0]%Q
           (-3)%Q [0; 0; 3]%Q false 2%Q 10%Q).
  - unfold SAC.wf; simpl. repeat split; try reflexivity; lia.
  - reflexivity.
  - vm_compute. split; discriminate.
  - reflexivity.
Defined.

(** The first call on a fresh learner, at hour 1 with consumption 10:
    the daily peak is 0, the maximum of the empty day, and does not
    include the 10 of the current step.  On the next day's hour 2, after
    consumptions -5 and -3, the daily peak is the 0 of the unwritten
    slots, not the running maximum -3 of the recorded values. *)
Lemma daily_peak_counterexample :
  (exists (self' : SAC.t) (total r_term p_term k_term h_term : Q),
     SAC.add_to_buffer Examples.learner [10%Q] [0; 0; 1]%Q [0.5; 0]%Q (-3)%Q
       [0; 0; 2]%Q false
       = Some (self', (total, r_term, p_term, k_term, h_term)) /\
     SAC.track_peak (SAC.day_list Examples.learner) (PyNum.py_int 1 - 1) [10%Q]
       = Some (0%Q, 10%Q :: replicate 23 0%Q) /\
     (k_term == 0)%Q /\
     ~ (k_term == 10 / 50 * -(1 # 2))%Q /\
     ~ (10 <= 0)%Q) /\
  SAC.track_peak ((-5)%Q :: replicate 23 0%Q) (PyNum.py_int 2 - 1) [(-3)%Q]
    = Some (0%Q, (-5)%Q :: (-3)%Q :: replicate 22 0%Q) /\
  ~ (0 == -3)%Q.
Proof.
  split; [|split; [reflexivity | intros E; discriminate E]].
  do 6 eexists. split; [vm_compute; reflexivity|].
  split; [reflexivity|].
  split; [reflexivity|].
  split; [intros E; vm_compute in E; discriminate E|].
  intros E. apply E. reflexivity.
Qed.

(** The day of the specification's example: consumptions 10, 5, 20, 8 at
    hours 1 to 4 after an empty day.  The peaks are 0 (the day before),
    10, 20, 20. *)
Example daily_peak_day_run :
  let d0 := replicate 24 0%Q in
  let d1 := 10%Q :: replicate 23 0%Q in
  let d2 := 10%Q :: 5%Q :: replicate 22 0%Q in
  let d3 := 10%Q :: 5%Q :: 20%Q :: replicate 21 0%Q in
  let d4 := 10%Q :: 5%Q :: 20%Q :: 8%Q :: replicate 20 0%Q in
  SAC.track_peak d0 (PyNum.py_int 1 - 1) [10%Q] = Some (0%Q, d1) /\
  SAC.track_peak d1 (PyNum.py_int 2 - 1) [10; 5]%Q = Some (10%Q, d2) /\
  SAC.track_peak d2 (PyNum.py_int 3 - 1) [10; 5; 20]%Q = Some (20%Q, d3) /\
  SAC.track_peak d3 (PyNum.py_int 4 - 1) [10; 5; 20; 8]%Q = Some (20%Q, d4) /\
  SAC.track_peak d4 (PyNum.py_int 1 - 1) [10; 5; 20; 8; 3]%Q
    = Some (20%Q, 3%Q :: replicate 23 0%Q).
Proof. repeat split. Qed.

Section PolicyProofs.
Import Torch.
Local Open Scope R_scope.

Lemma tanh_bounds (x : R) : -1 < tanh x < 1.
Proof.
  unfold tanh, sinh, cosh.
  pose proof (exp_pos x) as Hp. pose proof (exp_pos (- x)) as Hn.
  set (s := (exp x - exp (- x)) / 2). set (c := (exp x + exp (- x)) / 2).
  assert (Hc : 0 < c) by (subst c; lra).
  assert (E : s / c * c = s) by (field; lra).
  split; apply Rmult_lt_reg_r with c; try exact Hc; rewrite E; subst s c; lra.
Qed.

Lemma tanh_4_large : 3 / 4 < tanh 4.
Proof.
  unfold tanh, sinh, cosh.
  pose proof (exp_ineq1 4 ltac:(lra)) as Hp.
  pose proof (exp_pos (Ropp 4)) as Hn.
  assert (Hprod : exp (Ropp 4) * exp 4 = 1).
  { rewrite <- exp_plus. replace (Ropp 4 + 4) with 0 by lra. apply exp_0. }
  assert (Hsmall : exp (Ropp 4) < 1 / 5) by nra.
  set (s := (exp 4 - exp (Ropp 4)) / 2). set (c := (exp 4 + exp (Ropp 4)) / 2).
  assert (Hc : 0 < c) by (subst c; lra).
  assert (E : s / c * c = s) by (field; lra).
  apply Rmult_lt_reg_r with c; try exact Hc; rewrite E; subst s c; lra.
Qed.

Lemma clamp_bounds (lo hi v : R) : lo <= hi -> lo <= Rmin (Rmax v lo) hi <= hi.
Proof.
  intros H. unfold Rmin, Rmax.
  destruct (Rle_dec v lo); destruct (Rle_dec _ hi); lra.
Qed.

(** The affine rescale of a squashed value stays inside the box. *)
Lemma rescale_within (y lo hi : R) :
  -1 <= y <= 1 -> lo <= hi ->
  lo <= y * ((hi - lo) / 2) + (hi + lo) / 2 <= hi.
Proof. intros Hy Hb. split; nra. Qed.

(** An entry of a rescaled [tanh] comes from one entry of the input
    and one pair of bounds. *)
Lemma rescale_tanh_lookup (xs : Vec) (box : Box) (i : nat) (a : R) :
  rescale (map tanh xs) (action_scale_of box) (action_bias_of box) !! i = Some a ->
  exists x lo hi,
    xs !! i = Some x /\ low box !! i = Some lo /\ high box !! i = Some hi /\
    a = tanh x * ((hi - lo) / 2) + (hi + lo) / 2.
Proof.
  unfold rescale, action_scale_of, action_bias_of. intros Ha.
  apply lookup_zip_with_Some in Ha. destruct Ha as (m & b & -> & Hm & Hb).
  apply lookup_zip_with_Some in Hm. destruct Hm as (y & s & -> & Hy & Hs).
  apply lookup_zip_with_Some in Hs. destruct Hs as (hi & lo & -> & Hhi & Hlo).
  apply lookup_zip_with_Some in Hb. destruct Hb as (hi' & lo' & -> & Hhi' & Hlo').
  rewrite Hhi in Hhi'. rewrite Hlo in Hlo'. injection Hhi' as <-. injection Hlo' as <-.
  rewrite list_lookup_fmap in Hy.
  destruct (xs !! i) as [x|] eqn:Hx; [|discriminate].
  injection Hy as <-.
  exists x, lo, hi. repeat split; assumption.
Qed.

Lemma rescale_tanh_within (xs : Vec) (box : Box) (i : nat) (a : R) :
  ordered box ->
  rescale (map tanh xs) (action_scale_of box) (action_bias_of box) !! i = Some a ->
  exists lo hi,
    low box !! i = Some lo /\ high box !! i = Some hi /\ lo <= a <= hi.
Proof.
  intros Hord Ha.
  destruct (rescale_tanh_lookup xs box i a Ha) as (x & lo & hi & _ & Hlo & Hhi & ->).
  exists lo, hi. split; [exact Hlo|]. split; [exact Hhi|].
  apply rescale_within; [|eapply Hord; eassumption].
  pose proof (tanh_bounds x). lra.
Qed.
End PolicyProofs.

(** C6 (amended): for a box with [low <= high] in every component, every
    component of the action sampled by the Gaussian policy, of its
    deterministic mean action and of the mean of the deterministic
    policy lies in [[low, high]]; every component of the action sampled
    by the deterministic policy lies in [[low - 0.25, high + 0.25]]. *)
Theorem policy_action_bounds (box : Torch.Box) :
  Torch.ordered box ->
  (forall (l1 l2 lmean llog : Torch.Linear) (state noise : list R) (i : nat) (a : R),
     let out := GaussianPolicy.sample (GaussianPolicy.init l1 l2 lmean llog box)
                  state noise in
     (out.1.1 !! i = Some a \/ out.2 !! i = Some a) ->
     exists lo hi, Torch.low box !! i = Some lo /\ Torch.high box !! i = Some hi /\
                   (lo <= a <= hi)%R) /\
  (forall (l1 l2 lmean : Torch.Linear) (state normal_draw : list R) (i : nat) (a : R),
     let out := DeterministicPolicy.sample (DeterministicPolicy.init l1 l2 lmean box)
                  state normal_draw in
     (out.2 !! i = Some a ->
        exists lo hi, Torch.low box !! i = Some lo /\ Torch.high box !! i = Some hi /\
                      (lo <= a <= hi)%R) /\
     (out.1.1 !! i = Some a ->
        exists lo hi, Torch.low box !! i = Some lo /\ Torch.high box !! i = Some hi /\
                      (lo - 0.25 <= a <= hi + 0.25)%R)).
Proof.
  intros Hord. split.
  - intros l1 l2 lmean llog state noise i a out Ha.
    subst out. unfold GaussianPolicy.sample, GaussianPolicy.forward in Ha.
    simpl in Ha.
    destruct Ha as [Ha | Ha]; eapply rescale_tanh_within; eassumption.
  - intros l1 l2 lmean state normal_draw i a out. subst out.
    unfold DeterministicPolicy.sample. simpl. split.
    + intros Ha. unfold DeterministicPolicy.forward in Ha. simpl in Ha.
      eapply rescale_tanh_within; eassumption.
    + intros Ha.
      apply lookup_zip_with_Some in Ha. destruct Ha as (m & n & -> & Hm & Hn).
      unfold DeterministicPolicy.forward in Hm. simpl in Hm.
      destruct (rescale_tanh_within _ box i m Hord Hm) as (lo & hi & Hlo & Hhi & Hb).
      exists lo, hi. split; [exact Hlo|]. split; [exact Hhi|].
      unfold Torch.clamp in Hn. rewrite list_lookup_fmap in Hn.
      destruct (normal_draw !! i) as [d|]; [|discriminate].
      injection Hn as <-.
      pose proof (clamp_bounds (-0.25) 0.25 d ltac:(lra)). lra.
Qed.

Lemma policy_action_bounds_witness :
  exists a lo hi : R,
    (DeterministicPolicy.sample Examples.deterministic [0%R] [1%R]).1.1 !! 0%nat
      = Some a /\
    Torch.low Examples.unit_box !! 0%nat = Some lo /\
    Torch.high Examples.unit_box !! 0%nat = Some hi /\
    (lo - 0.25 <= a <= hi + 0.25)%R.
Proof.
  assert (Hord : Torch.ordered Examples.unit_box).
  { intros i lo hi Hlo Hhi.
    destruct i as [|i]; simpl in Hlo, Hhi; [|discriminate].
    injection Hlo as <-. injection Hhi as <-. lra. }
  eexists.
  edestruct (proj2 (policy_action_bounds Examples.unit_box Hord)
               Examples.zero_layer Examples.zero_layer Examples.head_4
               [0%R] [1%R] 0%nat) as [_ Hact].
  destruct (Hact eq_refl) as (lo & hi & Hlo & Hhi & Hb).
  exists lo, hi. split; [reflexivity|]. split; [exact Hlo|]. split; [exact Hhi | exact Hb].
Defined.

(** The deterministic policy on the action space [[-1, 1]]: the mean is
    [tanh 4] and the clipped noise [0.25], so the sampled action exceeds
    the upper bound 1. *)
Lemma deterministic_action_counterexample :
  exists a : R,
    (DeterministicPolicy.sample Examples.deterministic [0%R] [1%R]).1.1 = [a] /\
    Torch.high Examples.unit_box = [1%R] /\
    (1 < a)%R.
Proof.
  eexists. split; [reflexivity|]. split; [reflexivity|].
  unfold Torch.dot, Rmin, Rmax; simpl.
  replace (0 * Rmax 0 _ + 0 + 4)%R with 4%R by ring.
  pose proof tanh_4_large.
  unfold Rmin, Rmax.
  repeat match goal with |- context [Rle_dec ?a ?b] => destruct (Rle_dec a b) end; lra.
Qed.

Section RewardFunctionProofs.
Import PyNum.
Local Open Scope Q_scope.

Lemma cube_sign (e : Q) :
  (0 <= e -> 0 <= e ^ 3) /\ (e < 0 -> e ^ 3 < 0).
Proof.
  assert (E : e ^ 3 == e * (e * e)) by (simpl; ring).
  split; intros He; rewrite E.
  - apply Qmult_le_0_compat; [exact He|]. apply Qmult_le_0_compat; exact He.
  - assert (Hsq : 0 < e * e).
    { pose proof (Qmult_lt_0_compat (- e) (- e) ltac:(Lqa.lra) ltac:(Lqa.lra)).
      Lqa.lra. }
    pose proof (Qmult_lt_compat_r e 0 (e * e) Hsq He). Lqa.lra.
Qed.

Lemma cube_monotone_negative (e1 e2 : Q) :
  e1 <= e2 -> e2 < 0 -> e1 ^ 3 <= e2 ^ 3.
Proof.
  intros H12 H2.
  assert (E1 : e1 ^ 3 == e1 * (e1 * e1)) by (simpl; ring).
  assert (E2 : e2 ^ 3 == e2 * (e2 * e2)) by (simpl; ring).
  rewrite E1, E2.
  pose proof (Qmult_le_0_compat (- e2) (- e2) ltac:(Lqa.lra) ltac:(Lqa.lra)) as S2.
  pose proof (Qmult_le_0_compat (- e1) (- e2) ltac:(Lqa.lra) ltac:(Lqa.lra)) as S12.
  pose proof (Qmult_le_0_compat (- e1) (- e1) ltac:(Lqa.lra) ltac:(Lqa.lra)) as S1.
  pose proof (Qmult_le_0_compat (e2 - e1) (e2 * e2 + e1 * e2 + e1 * e1)
                ltac:(Lqa.lra) ltac:(Lqa.lra)) as P.
  Lqa.lra.
Qed.

Lemma get_rewards_lookup (electricity_demand : list Q) (i : nat) :
  reward_function_ma.get_rewards electricity_demand !! i
  = (fun e => if Qltb 0 (e ^ 3) then 0 else e ^ 3) <$> electricity_demand !! i.
Proof.
  unfold reward_function_ma.get_rewards. cbv zeta.
  rewrite !list_lookup_fmap.
  destruct (electricity_demand !! i); reflexivity.
Qed.

Lemma reward_cases (e : Q) :
  let r := if Qltb 0 (e ^ 3) then 0 else e ^ 3 in
  r <= 0 /\ (0 <= e -> r == 0) /\ (e < 0 -> r == e ^ 3 /\ r < 0).
Proof.
  cbv zeta. destruct (cube_sign e) as [Hpos Hneg].
  destruct (Qltb 0 (e ^ 3)) eqn:E.
  - apply Qltb_true in E.
    split; [Lqa.lra|]. split; [intros _; reflexivity|].
    intros He. specialize (Hneg He). Lqa.lra.
  - assert (Hle : e ^ 3 <= 0).
    { apply Qnot_lt_le. intros Hlt. apply Qltb_true in Hlt. congruence. }
    split; [exact Hle|]. split.
    + intros He. specialize (Hpos He). Lqa.lra.
    + intros He. split; [reflexivity | apply Hneg; exact He].
Qed.
End RewardFunctionProofs.

(** X1: [get_rewards] returns one reward per building and never a
    positive one; a building whose demand is zero or positive gets
    reward 0, so only a building with negative demand is penalised. *)
Theorem get_rewards_never_positive (electricity_demand : list Q) :
  length (reward_function_ma.get_rewards electricity_demand)
    = length electricity_demand /\
  forall (i : nat) (e : Q),
    electricity_demand !! i = Some e ->
    exists r : Q,
      reward_function_ma.get_rewards electricity_demand !! i = Some r /\
      (r <= 0)%Q /\
      ((0 <= e)%Q -> (r == 0)%Q) /\
      ((r < 0)%Q -> (e < 0)%Q).
Proof.
  split.
  - unfold reward_function_ma.get_rewards. cbv zeta. rewrite !length_map. reflexivity.
  - intros i e He. rewrite get_rewards_lookup, He. simpl.
    eexists; split; [reflexivity|].
    destruct (reward_cases e) as (H1 & H2 & _).
    split; [exact H1|]. split; [exact H2|].
    intros Hr. destruct (Qlt_le_dec e 0) as [Hneg | Hpos]; [exact Hneg|].
    exfalso. apply (Qlt_irrefl 0). eapply Qle_lt_trans; [|exact Hr].
    apply Qle_lteq. right. symmetry. exact (H2 Hpos).
Qed.

(** X2: the reward is monotone in the demand: of two buildings the one
    with the lower (more negative) demand never gets the higher
    reward. *)
Theorem get_rewards_monotone (electricity_demand : list Q) (i j : nat)
    (e1 e2 r1 r2 : Q) :
  electricity_demand !! i = Some e1 ->
  electricity_demand !! j = Some e2 ->
  reward_function_ma.get_rewards electricity_demand !! i = Some r1 ->
  reward_function_ma.get_rewards electricity_demand !! j = Some r2 ->
  (e1 <= e2)%Q ->
  (r1 <= r2)%Q.
Proof.
  intros H1 H2 R1 R2 Hle.
  rewrite get_rewards_lookup, H1 in R1. rewrite get_rewards_lookup, H2 in R2.
  simpl in R1, R2. injection R1 as <-. injection R2 as <-.
  destruct (reward_cases e1) as (A1 & B1 & C1).
  destruct (reward_cases e2) as (A2 & B2 & C2).
  cbv zeta in *.
  destruct (Qlt_le_dec e2 0) as [Hneg | Hpos].
  - destruct (C2 Hneg) as [E2 _].
    destruct (C1 ltac:(Lqa.lra)) as [E1 _].
    rewrite E1, E2. apply cube_monotone_negative; assumption.
  - rewrite (B2 Hpos). exact A1.
Qed.

Lemma get_rewards_monotone_witness : (-8 <= -1)%Q.
Proof.
  apply (get_rewards_monotone [-2; 5; -1]%Q 0 2 (-2) (-1) (-8) (-1));
    try reflexivity.
  vm_compute; discriminate.
Defined.
Section RBCProofs.
Import PyNum.
Local Open Scope Q_scope.

Lemma rbc_night_test (h : Q) :
  (Qleb 1 h && Qleb h 8) || (Qleb 22 h && Qleb h 24) = true <-> RBC_Agent.night_hours h.
Proof.
  unfold RBC_Agent.night_hours.
  rewrite orb_true_iff, !andb_true_iff, !Qleb_true. reflexivity.
Qed.

Lemma rbc_day_test (h : Q) : Qleb 9 h && Qleb h 21 = true <-> RBC_Agent.day_hours h.
Proof. unfold RBC_Agent.day_hours. rewrite andb_true_iff, !Qleb_true. reflexivity. Qed.

(** [np.array] returns its argument, and only when the rows have one
    common length. *)
Lemma np_array_Some (a array : list (list Q)) :
  RBC_Agent.np_array a = Some array ->
  array = a /\
  forall (i j : nat) (r1 r2 : list Q),
    a !! i = Some r1 -> a !! j = Some r2 -> length r1 = length r2.
Proof.
  unfold RBC_Agent.np_array. destruct a as [|row rest]; [intros [= <-]|].
  - split; [reflexivity|]. intros i j r1 r2 H. rewrite lookup_nil in H. discriminate.
  - destruct (forallb _ rest) eqn:E; [|discriminate]. intros [= <-].
    split; [reflexivity|].
    assert (Hall : forall (i : nat) (r : list Q),
               (row :: rest) !! i = Some r -> length r = length row).
    { intros [|i] r Hr; simpl in Hr; [congruence|].
      rewrite forallb_forall in E.
      apply Nat.eqb_eq. apply E. apply list_elem_of_In.
      eapply list_elem_of_lookup_2. exact Hr. }
    intros i j r1 r2 H1 H2. rewrite (Hall _ _ H1), (Hall _ _ H2). reflexivity.
Qed.

Lemma np_array_uniform (a : list (list Q)) (n : nat) :
  Forall (fun r => length r = n) a -> RBC_Agent.np_array a = Some a.
Proof.
  intros Hall. unfold RBC_Agent.np_array. destruct a as [|row rest]; [reflexivity|].
  apply Forall_cons in Hall. destruct Hall as [Hrow Hrest].
  assert (E : forallb (fun r => Nat.eqb (length r) (length row)) rest = true).
  { apply forallb_forall. intros r Hr. apply Nat.eqb_eq.
    rewrite Forall_forall in Hrest. rewrite Hrow. apply Hrest.
    apply list_elem_of_In. exact Hr. }
  rewrite E. reflexivity.
Qed.

Lemma np_array_ragged (a : list (list Q)) (i j : nat) (r1 r2 : list Q) :
  a !! i = Some r1 -> a !! j = Some r2 -> length r1 <> length r2 ->
  RBC_Agent.np_array a = None.
Proof.
  intros H1 H2 Hne. destruct (RBC_Agent.np_array a) as [array|] eqn:E; [|reflexivity].
  destruct (np_array_Some _ _ E) as [_ Hall].
  exfalso. apply Hne. eapply Hall; eassumption.
Qed.

(** The nested list that [select_action] builds before it calls
    [np.array]. *)
Lemma rbc_select_action_cases (self : RBC_Agent.t) (states : list Q) (h : Q) :
  states !! 0%nat = Some h ->
  exists a,
    RBC_Agent.select_action self states
      = match RBC_Agent.np_array a with
        | None => None
        | Some array =>
            Some ({| RBC_Agent.actions_spaces := RBC_Agent.actions_spaces self;
                     RBC_Agent.action_tracker := RBC_Agent.action_tracker self ++ [a] |},
                  array)
        end /\
    length a = length (RBC_Agent.actions_spaces self) /\
    (RBC_Agent.night_hours h ->
       a = map (fun d => if Nat.eqb d 2 then [0.091; 0.091] else [0.091])
             (RBC_Agent.actions_spaces self)) /\
    (RBC_Agent.day_hours h ->
       a = map (fun d => replicate d (-0.08)) (RBC_Agent.actions_spaces self)) /\
    (~ RBC_Agent.night_hours h -> ~ RBC_Agent.day_hours h ->
       a = map (fun d => replicate d 0.0) (RBC_Agent.actions_spaces self)).
Proof.
  intros Hh. unfold RBC_Agent.select_action. rewrite Hh.
  eexists; split; [reflexivity|].
  split.
  { destruct ((Qleb 1 h && Qleb h 8) || (Qleb 22 h && Qleb h 24));
      destruct (Qleb 9 h && Qleb h 21); apply length_map. }
  destruct ((Qleb 1 h && Qleb h 8) || (Qleb 22 h && Qleb h 24)) eqn:En;
    destruct (Qleb 9 h && Qleb h 21) eqn:Ed.
  - apply rbc_night_test in En. apply rbc_day_test in Ed.
    exfalso. unfold RBC_Agent.night_hours, RBC_Agent.day_hours in *. Lqa.lra.
  - apply rbc_night_test in En.
    split; [reflexivity|]. split.
    + intros Hd. exfalso. unfold RBC_Agent.night_hours, RBC_Agent.day_hours in *. Lqa.lra.
    + intros Hn. contradiction.
  - apply rbc_day_test in Ed.
    split; [|split; [reflexivity|]].
    + intros Hn. exfalso. unfold RBC_Agent.night_hours, RBC_Agent.day_hours in *. Lqa.lra.
    + intros _ Hd. contradiction.
  - split; [|split; [|reflexivity]].
    + intros Hn. apply rbc_night_test in Hn. congruence.
    + intros Hd. apply rbc_day_test in Hd. congruence.
Qed.

(** Outside the charging hours the rows have the dimensions of the
    spaces. *)
Lemma rbc_rows_outside_night (self : RBC_Agent.t) (h : Q) (a : list (list Q)) :
  ~ RBC_Agent.night_hours h ->
  (RBC_Agent.day_hours h ->
     a = map (fun d => replicate d (-0.08)) (RBC_Agent.actions_spaces self)) ->
  (~ RBC_Agent.night_hours h -> ~ RBC_Agent.day_hours h ->
     a = map (fun d => replicate d 0.0) (RBC_Agent.actions_spaces self)) ->
  forall (i d : nat),
    RBC_Agent.actions_spaces self !! i = Some d ->
    exists row, a !! i = Some row /\ length row = d.
Proof.
  intros Hnn Hd Hz i d Hi.
  assert (Hcase : a = map (fun d => replicate d (-0.08)) (RBC_Agent.actions_spaces self)
                  \/ a = map (fun d => replicate d 0.0) (RBC_Agent.actions_spaces self)).
  { destruct (Qlt_le_dec h 9) as [H9|H9].
    - right. apply Hz; [exact Hnn|]. unfold RBC_Agent.day_hours. Lqa.lra.
    - destruct (Qlt_le_dec 21 h) as [H21|H21].
      + right. apply Hz; [exact Hnn|]. unfold RBC_Agent.day_hours. Lqa.lra.
      + left. apply Hd. split; assumption. }
  destruct Hcase as [-> | ->]; rewrite list_lookup_fmap, Hi; simpl;
    eexists; (split; [reflexivity | apply length_replicate]).
Qed.
Lemma rbc_night_dec (h : Q) : RBC_Agent.night_hours h \/ ~ RBC_Agent.night_hours h.
Proof.
  destruct ((Qleb 1 h && Qleb h 8) || (Qleb 22 h && Qleb h 24)) eqn:E.
  - left. apply rbc_night_test. exact E.
  - right. intros Hn. apply rbc_night_test in Hn. congruence.
Qed.

(** With action spaces of one common dimension the call returns the
    list it built. *)
Lemma rbc_uniform_returns (self : RBC_Agent.t) (states : list Q) (h : Q)
    (dimension : nat) :
  states !! 0%nat = Some h ->
  Forall (fun d => d = dimension) (RBC_Agent.actions_spaces self) ->
  exists a,
    RBC_Agent.select_action self states
      = Some ({| RBC_Agent.actions_spaces := RBC_Agent.actions_spaces self;
                 RBC_Agent.action_tracker := RBC_Agent.action_tracker self ++ [a] |},
              a) /\
    length a = length (RBC_Agent.actions_spaces self) /\
    (RBC_Agent.night_hours h ->
       a = map (fun d => if Nat.eqb d 2 then [0.091; 0.091] else [0.091])
             (RBC_Agent.actions_spaces self)) /\
    (RBC_Agent.day_hours h ->
       a = map (fun d => replicate d (-0.08)) (RBC_Agent.actions_spaces self)) /\
    (~ RBC_Agent.night_hours h -> ~ RBC_Agent.day_hours h ->
       a = map (fun d => replicate d 0.0) (RBC_Agent.actions_spaces self)) /\
    (forall (i : nat) (row : list Q),
       a !! i = Some row ->
       (~ RBC_Agent.night_hours h -> length row = dimension) /\
       (RBC_Agent.night_hours h ->
          length row = (if Nat.eqb dimension 2 then 2 else 1)%nat)).
Proof.
  intros Hh Hdim.
  destruct (rbc_select_action_cases self states h Hh)
    as (a & Hrun & Hlen & Hn & Hd & Hz).
  assert (Hrows : forall (i : nat) (row : list Q),
             a !! i = Some row ->
             (~ RBC_Agent.night_hours h -> length row = dimension) /\
             (RBC_Agent.night_hours h ->
                length row = (if Nat.eqb dimension 2 then 2 else 1)%nat)).
  { intros i row Hrow.
    destruct (lookup_lt_is_Some_2 (RBC_Agent.actions_spaces self) i
                ltac:(rewrite <- Hlen; eapply lookup_lt_Some; exact Hrow)) as [d Hi].
    pose proof (Forall_lookup_1 _ _ _ _ Hdim Hi) as Ed. simpl in Ed. subst d.
    split.
    - intros Hnn.
      destruct (rbc_rows_outside_night self h a Hnn Hd Hz i dimension Hi)
        as (row' & Hr' & Hl').
      rewrite Hrow in Hr'. injection Hr' as <-. exact Hl'.
    - intros Hnight. rewrite (Hn Hnight), list_lookup_fmap, Hi in Hrow.
      simpl in Hrow. injection Hrow as <-.
      destruct (Nat.eqb dimension 2); reflexivity. }
  assert (Harr : RBC_Agent.np_array a = Some a).
  { destruct (rbc_night_dec h) as [Hnight | Hnn].
    - apply (np_array_uniform a (if Nat.eqb dimension 2 then 2 else 1)%nat).
      apply Forall_lookup_2. intros i row Hrow. apply (Hrows i row Hrow). exact Hnight.
    - apply (np_array_uniform a dimension).
      apply Forall_lookup_2. intros i row Hrow. apply (Hrows i row Hrow). exact Hnn. }
  rewrite Harr in Hrun.
  exists a. repeat split; try assumption; apply (Hrows i row); assumption.
Qed.
End RBCProofs.

(** X3: for a state whose first entry is the hour [h], a call of the
    rule-based agent that returns gives one action list per action
    space, the list that it appended to its tracker; every action value
    is [0.091] (charge) when [1 <= h <= 8] or [22 <= h <= 24], [-0.08]
    (discharge) when [9 <= h <= 21], and [0] for every other hour, so
    it never charges one storage while discharging another.  The call
    returns for action spaces of one common dimension. *)
Theorem rbc_select_action_values (self : RBC_Agent.t) (states : list Q) (h : Q)
    (dimension : nat) :
  states !! 0%nat = Some h ->
  Forall (fun d => d = dimension) (RBC_Agent.actions_spaces self) ->
  exists (self' : RBC_Agent.t) (a : list (list Q)),
    RBC_Agent.select_action self states = Some (self', a) /\
    RBC_Agent.action_tracker self' = RBC_Agent.action_tracker self ++ [a] /\
    length a = length (RBC_Agent.actions_spaces self) /\
    forall (i : nat) (row : list Q) (v : Q),
      a !! i = Some row -> v ∈ row ->
      (RBC_Agent.night_hours h -> v = 0.091%Q) /\
      (RBC_Agent.day_hours h -> v = (-0.08)%Q) /\
      (~ RBC_Agent.night_hours h -> ~ RBC_Agent.day_hours h -> v = 0.0%Q).
Proof.
  intros Hh Hdim.
  destruct (rbc_uniform_returns self states h dimension Hh Hdim)
    as (a & Hrun & Hlen & Hn & Hd & Hz & _).
  eexists; exists a. split; [exact Hrun|]. split; [reflexivity|].
  split; [exact Hlen|].
  intros i row v Hrow Hv.
  split; [|split].
  - intros Hnight. rewrite (Hn Hnight) in Hrow.
    rewrite list_lookup_fmap in Hrow.
    destruct (RBC_Agent.actions_spaces self !! i) as [d|]; [|discriminate].
    simpl in Hrow. injection Hrow as <-.
    destruct (Nat.eqb d 2);
      repeat (apply elem_of_cons in Hv; destruct Hv as [-> | Hv]; [reflexivity|]);
      inversion Hv.
  - intros Hday. rewrite (Hd Hday) in Hrow.
    rewrite list_lookup_fmap in Hrow.
    destruct (RBC_Agent.actions_spaces self !! i) as [d|]; [|discriminate].
    simpl in Hrow. injection Hrow as <-.
    apply elem_of_replicate in Hv. tauto.
  - intros Hnn Hnd. rewrite (Hz Hnn Hnd) in Hrow.
    rewrite list_lookup_fmap in Hrow.
    destruct (RBC_Agent.actions_spaces self !! i) as [d|]; [|discriminate].
    simpl in Hrow. injection Hrow as <-.
    apply elem_of_replicate in Hv. tauto.
Qed.

Lemma rbc_select_action_values_witness :
  exists (self' : RBC_Agent.t) (a : list (list Q)),
    RBC_Agent.select_action (RBC_Agent.init [2; 2]%nat) [23; 0]%Q = Some (self', a) /\
    RBC_Agent.action_tracker self'
      = RBC_Agent.action_tracker (RBC_Agent.init [2; 2]%nat) ++ [a] /\
    length a = length (RBC_Agent.actions_spaces (RBC_Agent.init [2; 2]%nat)) /\
    forall (i : nat) (row : list Q) (v : Q),
      a !! i = Some row -> v ∈ row ->
      (RBC_Agent.night_hours 23 -> v = 0.091%Q) /\
      (RBC_Agent.day_hours 23 -> v = (-0.08)%Q) /\
      (~ RBC_Agent.night_hours 23 -> ~ RBC_Agent.day_hours 23 -> v = 0.0%Q).
Proof.
  apply (rbc_select_action_values (RBC_Agent.init [2; 2]%nat) [23; 0]%Q 23%Q 2%nat).
  - reflexivity.
  - repeat constructor.
Defined.

(** X4: when the rule-based agent returns and when it raises.  For a
    state that has an hour, a call whose action spaces have one common
    dimension [d] returns rows of length [d] outside the charging
    hours and, in the charging hours, rows of length 2 for [d = 2] and
    of length 1 for every other [d], so that the action has the
    dimension of the space only for [d = 1] and [d = 2].  The call
    raises when the rows are ragged: outside the charging hours for two
    spaces of different dimensions, in the charging hours for a space
    of dimension 2 beside a space of another dimension.  A state vector
    without entries makes the call raise. *)
Theorem rbc_select_action_shape (self : RBC_Agent.t) (states : list Q) (h : Q) :
  states !! 0%nat = Some h ->
  (forall dimension : nat,
     Forall (fun d => d = dimension) (RBC_Agent.actions_spaces self) ->
     exists (self' : RBC_Agent.t) (a : list (list Q)),
       RBC_Agent.select_action self states = Some (self', a) /\
       length a = length (RBC_Agent.actions_spaces self) /\
       forall (i : nat) (row : list Q),
         a !! i = Some row ->
         (~ RBC_Agent.night_hours h -> length row = dimension) /\
         (RBC_Agent.night_hours h ->
            length row = (if Nat.eqb dimension 2 then 2 else 1)%nat /\
            (length row = dimension <-> dimension = 1%nat \/ dimension = 2%nat))) /\
  (forall (i j di dj : nat),
     RBC_Agent.actions_spaces self !! i = Some di ->
     RBC_Agent.actions_spaces self !! j = Some dj ->
     (~ RBC_Agent.night_hours h /\ di <> dj)
     \/ (RBC_Agent.night_hours h /\ di = 2%nat /\ dj <> 2%nat) ->
     RBC_Agent.select_action self states = None) /\
  RBC_Agent.select_action self [] = None.
Proof.
  intros Hh.
  destruct (rbc_select_action_cases self states h Hh)
    as (a & Hrun & Hlen & Hn & Hd & Hz).
  split; [|split; [|reflexivity]].
  - intros dimension Hdim.
    destruct (rbc_uniform_returns self states h dimension Hh Hdim)
      as (a' & Hrun' & Hlen' & _ & _ & _ & Hrows).
    eexists; exists a'. split; [exact Hrun'|]. split; [exact Hlen'|].
    intros i row Hrow. destruct (Hrows i row Hrow) as [H1 H2].
    split; [exact H1|]. intros Hnight. specialize (H2 Hnight).
    split; [exact H2|]. rewrite H2.
    destruct (Nat.eqb_spec dimension 2) as [-> | Hne]; split; intros; lia.
  - intros i j di dj Hi Hj Hcase.
    assert (Hrag : RBC_Agent.np_array a = None).
    { destruct Hcase as [[Hnn Hne] | (Hnight & -> & Hne)].
      - destruct (rbc_rows_outside_night self h a Hnn Hd Hz i di Hi) as (r1 & Hr1 & Hl1).
        destruct (rbc_rows_outside_night self h a Hnn Hd Hz j dj Hj) as (r2 & Hr2 & Hl2).
        apply (np_array_ragged a i j r1 r2 Hr1 Hr2). lia.
      - apply (np_array_ragged a i j [0.091; 0.091]%Q [0.091]%Q);
          [| |simpl; lia]; rewrite (Hn Hnight), list_lookup_fmap.
        + rewrite Hi. reflexivity.
        + rewrite Hj. simpl. destruct (Nat.eqb_spec dj 2); [contradiction | reflexivity]. }
    rewrite Hrag in Hrun. exact Hrun.
Qed.

Lemma rbc_select_action_shape_witness :
  (exists (self' : RBC_Agent.t) (a : list (list Q)),
     RBC_Agent.select_action (RBC_Agent.init [3; 3]%nat) [23]%Q = Some (self', a) /\
     length a = 2%nat /\
     forall (i : nat) (row : list Q),
       a !! i = Some row ->
       (~ RBC_Agent.night_hours 23 -> length row = 3%nat) /\
       (RBC_Agent.night_hours 23 ->
          length row = 1%nat /\ (length row = 3%nat <-> 3%nat = 1%nat \/ 3%nat = 2%nat))) /\
  RBC_Agent.select_action (RBC_Agent.init [2; 1]%nat) [23]%Q = None.
Proof.
  split.
  - apply (proj1 (rbc_select_action_shape (RBC_Agent.init [3; 3]%nat) [23]%Q 23%Q eq_refl)
             3%nat).
    repeat constructor.
  - apply (proj1 (proj2 (rbc_select_action_shape (RBC_Agent.init [2; 1]%nat) [23]%Q 23%Q
                           eq_refl)) 0%nat 1%nat 2%nat 1%nat eq_refl eq_refl).
    right. split; [|split; [reflexivity | discriminate]].
    unfold RBC_Agent.night_hours. right. split; discriminate.
Defined.

Section ChargerUpdateFacts.
Import PyNum Energy.
Local Open Scope Q_scope.
Context {B : Type} `{Battery B}.

Lemma list_set_inv {A : Type} (l l' : list A) (i : nat) (x : A) :
  list_set l i x = Some l' -> (i < length l)%nat /\ l' = <[i := x]> l.
Proof.
  unfold list_set. destruct (decide (i < length l)%nat); [|discriminate].
  intros [= <-]. split; [assumption | reflexivity].
Qed.

Lemma list_set_None {A : Type} (l : list A) (i : nat) (x : A) :
  (length l <= i)%nat -> list_set l i x = None.
Proof.
  intros Hi. unfold list_set. destruct (decide (i < length l)%nat); [lia | reflexivity].
Qed.

(** What every returning call does to the series and the settings. *)
Lemma update_series (self self' : Charger.t B) (action_value : Q) :
  Charger.update_connected_ev_soc self action_value = Some self' ->
  let ts := Charger.time_step self in
  (ts < length (Charger.past_charging_action_values self))%nat /\
  Charger.past_charging_action_values self'
    = <[ts := action_value]> (Charger.past_charging_action_values self) /\
  (ts < length (Charger.electricity_consumption self))%nat /\
  (exists used, Charger.electricity_consumption self'
                = <[ts := used]> (Charger.electricity_consumption self)) /\
  (ts < length (Charger.electricity_consumption_without_partial_load self))%nat /\
  (exists used, Charger.electricity_consumption_without_partial_load self'
                = <[ts := used]> (Charger.electricity_consumption_without_partial_load self)) /\
  Charger.time_step self' = ts /\
  Charger.incoming_ev self' = Charger.incoming_ev self /\
  Charger.efficiency self' = Charger.efficiency self /\
  Charger.nominal_power self' = Charger.nominal_power self /\
  Charger.max_charging_power self' = Charger.max_charging_power self /\
  Charger.max_discharging_power self' = Charger.max_discharging_power self.
Proof.
  unfold Charger.update_connected_ev_soc. cbv zeta.
  repeat (match goal with
          | |- (match ?x with _ => _ end = Some _) -> _ => destruct x eqn:?
          | |- ((if ?x then _ else _) = Some _) -> _ => destruct x eqn:?
          end; try discriminate);
    intros [= <-];
    repeat match goal with
           | E : list_set _ _ _ = Some _ |- _ =>
               apply list_set_inv in E; destruct E as [? ->]
           end;
    simpl; repeat split; try assumption; eexists; reflexivity.
Qed.
End ChargerUpdateFacts.

(** X5: the two guarded setters of the charger.  An efficiency that is
    stored is positive: [None] becomes 1.0 and a value that is not
    positive is refused.  A nominal power that is stored is positive
    too: [None] and 0 become the small constant
    [ZERO_DIVISION_CAPACITY], and a negative value is refused. *)
Theorem charger_setters_guard :
  (forall (e : option Q) (v : Q),
     ChargerOps.efficiency_setter e = Some v -> (0 < v)%Q) /\
  ChargerOps.efficiency_setter None = Some 1.0%Q /\
  (forall x : Q, (x <= 0)%Q -> ChargerOps.efficiency_setter (Some x) = None) /\
  (forall (p : option Q) (v : Q),
     ChargerOps.nominal_power_setter p = Some v -> (0 < v)%Q) /\
  ChargerOps.nominal_power_setter None = Some ChargerOps.ZERO_DIVISION_CAPACITY /\
  (forall x : Q, (x == 0)%Q ->
     ChargerOps.nominal_power_setter (Some x) = Some ChargerOps.ZERO_DIVISION_CAPACITY) /\
  (forall x : Q, (x < 0)%Q -> ChargerOps.nominal_power_setter (Some x) = None).
Proof.
  repeat split.
  - intros [e|] v; simpl.
    + destruct (PyNum.Qltb 0 e) eqn:E; [|discriminate].
      intros [= <-]. apply Qltb_true. exact E.
    + intros [= <-]. reflexivity.
  - intros x Hx. simpl. destruct (PyNum.Qltb 0 x) eqn:E; [|reflexivity].
    apply Qltb_true in E. exfalso. Lqa.lra.
  - intros [p|] v; simpl.
    + destruct (Qeq_bool p 0) eqn:E0.
      * intros [= <-]. reflexivity.
      * destruct (PyNum.Qleb 0 p) eqn:E; [|discriminate].
        intros [= <-]. apply Qleb_true in E.
        apply Qeq_bool_neq in E0. apply Qle_lt_or_eq in E.
        destruct E as [E|E]; [exact E | exfalso; apply E0; symmetry; exact E].
    + intros [= <-]. reflexivity.
  - intros x Hx. simpl. apply Qeq_bool_iff in Hx. rewrite Hx. reflexivity.
  - intros x Hx. simpl.
    rewrite Qeq_bool_false by (intros E; Lqa.lra).
    destruct (PyNum.Qleb 0 x) eqn:E; [|reflexivity].
    apply Qleb_true in E. exfalso. Lqa.lra.
Qed.

Section ChargerLifeProofs.
Import PyNum Energy.
Local Open Scope Q_scope.
Context {B : Type} `{Battery B}.
Variable base_reset : nat -> nat.
Variable base_next_time_step : nat -> nat.

Lemma step_series_length (s s' : ChargerOps.t B) (c : ChargerOps.call B) (n : nat) :
  ChargerOps.series_length s n ->
  ChargerOps.step base_next_time_step s c = Some s' ->
  ChargerOps.series_length s'
    (n + ChargerOps.count_next_time_step [c]).
Proof.
  intros (L1 & L2 & L3 & L4).
  destruct c as [car| |car| | |x|a]; simpl.
  - unfold ChargerOps.plug_car.
    destruct (list_set _ _ _) as [past|] eqn:E; [|discriminate].
    apply list_set_inv in E. destruct E as [_ ->].
    intros [= <-]. unfold ChargerOps.series_length; simpl.
    rewrite length_insert. repeat split; lia.
  - intros [= <-]. unfold ChargerOps.series_length; simpl. repeat split; lia.
  - intros [= <-]. unfold ChargerOps.series_length; simpl. repeat split; lia.
  - intros [= <-]. unfold ChargerOps.series_length; simpl. repeat split; lia.
  - intros [= <-]. unfold ChargerOps.series_length; simpl.
    rewrite !length_app. simpl. repeat split; lia.
  - unfold ChargerOps.update_electricity_consumption.
    destruct (Qleb 0 x); [|discriminate].
    destruct (_ !! _); [|discriminate].
    intros [= <-]. unfold ChargerOps.series_length; simpl.
    rewrite length_insert. repeat split; lia.
  - unfold ChargerOps.update_connected_ev_soc.
    destruct (Charger.update_connected_ev_soc _ _) as [c'|] eqn:E; [|discriminate].
    intros [= <-].
    destruct (update_series _ _ _ E)
      as (_ & Ea & _ & [u1 E1] & _ & [u2 E2] & _).
    unfold ChargerOps.series_length; simpl.
    rewrite Ea, E1, E2, !length_insert. repeat split; lia.
Qed.

Lemma run_series_length (calls : list (ChargerOps.call B)) (s s' : ChargerOps.t B)
    (n : nat) :
  ChargerOps.series_length s n ->
  ChargerOps.run base_next_time_step s calls = Some s' ->
  ChargerOps.series_length s' (n + ChargerOps.count_next_time_step calls).
Proof.
  revert s n. induction calls as [|c calls IH]; intros s n Hs;
    cbn [ChargerOps.run].
  - intros [= <-]. simpl. rewrite Nat.add_0_r. exact Hs.
  - destruct (ChargerOps.step base_next_time_step s c) as [s1|] eqn:E; [|discriminate].
    intros Hrun.
    pose proof (step_series_length s s1 c n Hs E) as H1.
    pose proof (IH s1 _ H1 Hrun) as H2.
    replace (n + ChargerOps.count_next_time_step (c :: calls))%nat
      with (n + ChargerOps.count_next_time_step [c]
            + ChargerOps.count_next_time_step calls)%nat; [exact H2|].
    destruct c; simpl; lia.
Qed.
End ChargerLifeProofs.

(** X6: between two resets the four series of a charger (actions,
    consumption, consumption without partial load, connected
    vehicles) keep one common length: after a reset and any sequence
    of calls that return, each series has one entry per
    [next_time_step] call plus the entry of the reset. *)
Theorem charger_series_stay_aligned {B : Type} `{Energy.Battery B}
    (base_reset base_next_time_step : nat -> nat)
    (s s' : ChargerOps.t B) (calls : list (ChargerOps.call B)) :
  ChargerOps.run base_next_time_step (ChargerOps.reset base_reset s) calls = Some s' ->
  ChargerOps.series_length s' (1 + ChargerOps.count_next_time_step calls).
Proof.
  apply run_series_length.
  unfold ChargerOps.series_length; simpl. repeat split; reflexivity.
Qed.

Lemma charger_series_stay_aligned_witness :
  exists s' : ChargerOps.t Energy.SimpleBattery,
    ChargerOps.run MoreExamples.count_next
      (ChargerOps.reset MoreExamples.count_reset (MoreExamples.station 50 48))
      [ChargerOps.call_next_time_step;
       ChargerOps.call_plug_car (Examples.car_at 1 [48; 48]%Q);
       ChargerOps.call_update_electricity_consumption 3%Q;
       ChargerOps.call_unplug_car;
       ChargerOps.call_next_time_step] = Some s' /\
    ChargerOps.series_length s' 3.
Proof.
  eexists. split; [reflexivity|].
  apply (charger_series_stay_aligned MoreExamples.count_reset MoreExamples.count_next
           (MoreExamples.station 50 48) _
           [ChargerOps.call_next_time_step;
            ChargerOps.call_plug_car (Examples.car_at 1 [48; 48]%Q);
            ChargerOps.call_update_electricity_consumption 3%Q;
            ChargerOps.call_unplug_car;
            ChargerOps.call_next_time_step]).
  reflexivity.
Defined.

(** X7: [plug_car] needs an entry for the current time step in the
    history of connected vehicles and fails without one; when it
    returns, the vehicle is connected and recorded at the current step,
    and [unplug_car] disconnects it without erasing the record. *)
Theorem plug_car_history {B : Type} `{Energy.Battery B}
    (self : ChargerOps.t B) (car : electric_vehicle.t B) :
  let ts := Charger.time_step (ChargerOps.charger self) in
  ((length (ChargerOps.past_connected_evs self) <= ts)%nat ->
     ChargerOps.plug_car self car = None) /\
  ((ts < length (ChargerOps.past_connected_evs self))%nat ->
     exists self',
       ChargerOps.plug_car self car = Some self' /\
       Charger.connected_ev (ChargerOps.charger self') = Some car /\
       ChargerOps.past_connected_evs self' !! ts = Some (Some car) /\
       Charger.connected_ev (ChargerOps.charger (ChargerOps.unplug_car self')) = None /\
       ChargerOps.past_connected_evs (ChargerOps.unplug_car self') !! ts
         = Some (Some car) /\
       (forall i, i <> ts ->
          ChargerOps.past_connected_evs (ChargerOps.unplug_car self') !! i
          = ChargerOps.past_connected_evs self !! i)).
Proof.
  cbv zeta. split.
  - intros Hlen. unfold ChargerOps.plug_car.
    rewrite list_set_None by exact Hlen. reflexivity.
  - intros Hlen. unfold ChargerOps.plug_car.
    rewrite list_set_Some by exact Hlen.
    eexists; split; [reflexivity|]. simpl.
    repeat split; try (apply list_lookup_insert_eq; exact Hlen).
    intros i Hi. apply list_lookup_insert_ne. congruence.
Qed.

(** X8: [update_electricity_consumption] refuses a negative amount;
    a non-negative amount is added to the consumption of the current
    step, so the available nominal power drops by exactly that
    amount. *)
Theorem consumption_update_reduces_available_power {B : Type} `{Energy.Battery B}
    (self : ChargerOps.t B) (x available : Q) :
  ChargerOps.available_nominal_power self = Some available ->
  ((x < 0)%Q -> ChargerOps.update_electricity_consumption self x = None) /\
  ((0 <= x)%Q ->
     exists (self' : ChargerOps.t B) (available' : Q),
       ChargerOps.update_electricity_consumption self x = Some self' /\
       ChargerOps.available_nominal_power self' = Some available' /\
       (available' == available - x)%Q).
Proof.
  unfold ChargerOps.available_nominal_power, ChargerOps.update_electricity_consumption.
  cbv zeta.
  destruct (Charger.electricity_consumption (ChargerOps.charger self)
              !! Charger.time_step (ChargerOps.charger self)) as [now|] eqn:E;
    [|discriminate].
  intros [= <-]. split.
  - intros Hx. destruct (PyNum.Qleb 0 x) eqn:Ex; [|reflexivity].
    apply Qleb_true in Ex. exfalso. Lqa.lra.
  - intros Hx. apply Qleb_true in Hx. rewrite Hx.
    eexists; eexists. split; [reflexivity|]. simpl.
    rewrite list_lookup_insert_eq by (eapply lookup_lt_Some; exact E).
    split; [reflexivity | ring].
Qed.

Lemma consumption_update_reduces_available_power_witness :
  exists (self' : ChargerOps.t Energy.SimpleBattery) (available' : Q),
    ChargerOps.update_electricity_consumption (MoreExamples.station 50 48) 3
      = Some self' /\
    ChargerOps.available_nominal_power self' = Some available' /\
    (available' == 50 - 0 - 3)%Q.
Proof.
  apply (consumption_update_reduces_available_power (MoreExamples.station 50 48) 3
           (50 - 0)%Q).
  - reflexivity.
  - vm_compute. discriminate.
Defined.

(** X9: without a connected vehicle, or with an action equal to zero, a
    call on a charger whose series reach the current time step
    returns; it records the action, sets the consumption of the step
    to 0 in both consumption series and leaves the connected vehicle
    as it was. *)
Theorem update_idle_step {B : Type} `{Energy.Battery B}
    (self : Charger.t B) (action_value : Q) :
  Charger.connected_ev self = None \/ (action_value == 0)%Q ->
  (Charger.time_step self < length (Charger.past_charging_action_values self))%nat ->
  (Charger.time_step self < length (Charger.electricity_consumption self))%nat ->
  (Charger.time_step self
     < length (Charger.electricity_consumption_without_partial_load self))%nat ->
  exists self',
    Charger.update_connected_ev_soc self action_value = Some self' /\
    Charger.connected_ev self' = Charger.connected_ev self /\
    Charger.past_charging_action_values self' !! Charger.time_step self
      = Some action_value /\
    Charger.electricity_consumption self' !! Charger.time_step self = Some 0%Q /\
    Charger.electricity_consumption_without_partial_load self' !! Charger.time_step self
      = Some 0%Q.
Proof.
  intros Hidle H1 H2 H3.
  unfold Charger.update_connected_ev_soc. cbv zeta.
  rewrite !list_set_Some by assumption.
  destruct (Charger.connected_ev self) as [car|] eqn:Ecar.
  - destruct Hidle as [Hnone | Hzero]; [discriminate|].
    apply Qeq_bool_iff in Hzero. rewrite Hzero. simpl.
    rewrite ?list_set_Some by assumption.
    eexists; split; [reflexivity|]. simpl.
    repeat split; try (symmetry; exact Ecar); apply list_lookup_insert_eq; assumption.
  - eexists; split; [reflexivity|]. simpl.
    repeat split; apply list_lookup_insert_eq; assumption.
Qed.

Lemma update_idle_step_witness :
  exists self',
    Charger.update_connected_ev_soc (Examples.charger_with 50 48) 0 = Some self' /\
    Charger.connected_ev self' = Charger.connected_ev (Examples.charger_with 50 48) /\
    Charger.past_charging_action_values self'
      !! Charger.time_step (Examples.charger_with 50 48) = Some 0%Q /\
    Charger.electricity_consumption self'
      !! Charger.time_step (Examples.charger_with 50 48) = Some 0%Q /\
    Charger.electricity_consumption_without_partial_load self'
      !! Charger.time_step (Examples.charger_with 50 48) = Some 0%Q.
Proof.
  apply (update_idle_step (Examples.charger_with 50 48) 0).
  - right. reflexivity.
  - simpl. lia.
  - simpl. lia.
  - simpl. lia.
Defined.

(** X10: a discharge never takes a battery that is at or above the
    floor of 10 percent of its capacity below that floor: for a negative
    action, a positive maximum discharging power and a state of charge
    at or above the floor, the clamped energy lies between the request
    and 0, and the state of charge plus the clamped energy is at least
    the floor.  With capacity 50, state of charge 6 and a request of
    -10 the clamped energy is -1. *)
Theorem discharge_respects_floor {B : Type} `{Energy.Battery B}
    (self : Charger.t B) (car : electric_vehicle.t B) (action_value soc_now : Q) :
  (action_value < 0)%Q ->
  (0 < Charger.max_discharging_power self)%Q ->
  (0.10 * Energy.capacity (electric_vehicle.battery car) <= soc_now)%Q ->
  let energy := Charger.clamped_energy self car action_value soc_now in
  let cap := Energy.capacity (electric_vehicle.battery car) in
  (action_value * Charger.max_discharging_power self <= energy)%Q /\
  (energy <= 0)%Q /\
  (0.10 * cap <= soc_now + energy)%Q /\
  ((cap == 50)%Q -> (soc_now == 6)%Q ->
   (action_value * Charger.max_discharging_power self == -10)%Q ->
   (energy == -1)%Q).
Proof.
  intros Ha Hmdp Hfloor energy cap.
  destruct (requested_energy_cases self action_value) as [_ Hneg].
  specialize (Hneg ltac:(Lqa.lra)).
  assert (Hreq : (Charger.requested_energy self action_value < 0)%Q).
  { rewrite Hneg.
    pose proof (Qmult_lt_compat_r action_value 0 _ Hmdp Ha). Lqa.lra. }
  destruct (clamped_energy_cases self car action_value soc_now) as [_ Hdis].
  specialize (Hdis Hreq). fold energy cap in Hdis. rewrite Hneg in Hdis.
  rewrite Hneg in Hreq.
  destruct (py_max2_spec (action_value * Charger.max_discharging_power self)%Q
              (- (soc_now - 0.10 * cap))%Q) as (E & Hle1 & Hle2).
  rewrite <- Hdis in E, Hle1, Hle2.
  fold cap in Hfloor.
  assert (Hmax : (energy <= 0)%Q).
  { rewrite E.
    destruct (Q.max_spec (action_value * Charger.max_discharging_power self)%Q
                (- (soc_now - 0.10 * cap))%Q) as [[? ->] | [? ->]]; Lqa.lra. }
  split; [exact Hle1|]. split; [exact Hmax|]. split; [Lqa.lra|].
  intros Hc Hs Hr. rewrite E.
  destruct (Q.max_spec (action_value * Charger.max_discharging_power self)%Q
              (- (soc_now - 0.10 * cap))%Q) as [[? ->] | [? ->]]; Lqa.lra.
Qed.

Lemma discharge_respects_floor_witness :
  (Charger.clamped_energy (Examples.charger_with 50 6) (Examples.car_at 0 [6%Q])
     (-(1 # 5)) 6 == -1)%Q.
Proof.
  apply (discharge_respects_floor (Examples.charger_with 50 6)
           (Examples.car_at 0 [6%Q]) (-(1 # 5)) 6).
  - reflexivity.
  - reflexivity.
  - vm_compute. discriminate.
  - reflexivity.
  - reflexivity.
  - reflexivity.
Defined.

(** X11: a charge never fills a battery beyond its capacity: for a
    positive action and a non-negative maximum charging power the
    clamped energy is at most the request and at most the free
    capacity.  While the state of charge does not exceed the capacity
    the clamped energy is not negative; for a battery above its
    capacity the clamp turns the charge request into the negative
    energy [capacity - soc]. *)
Theorem charge_respects_capacity {B : Type} `{Energy.Battery B}
    (self : Charger.t B) (car : electric_vehicle.t B) (action_value soc_now : Q) :
  (0 < action_value)%Q ->
  (0 <= Charger.max_charging_power self)%Q ->
  let energy := Charger.clamped_energy self car action_value soc_now in
  let cap := Energy.capacity (electric_vehicle.battery car) in
  (energy <= action_value * Charger.max_charging_power self)%Q /\
  (soc_now + energy <= cap)%Q /\
  ((soc_now <= cap)%Q -> (0 <= energy)%Q) /\
  ((cap < soc_now)%Q -> (energy == cap - soc_now)%Q /\ (energy < 0)%Q).
Proof.
  intros Ha Hmcp energy cap.
  destruct (requested_energy_cases self action_value) as [Hpos _].
  specialize (Hpos Ha).
  assert (Hreq : (0 <= Charger.requested_energy self action_value)%Q).
  { rewrite Hpos. apply Qmult_le_0_compat; Lqa.lra. }
  destruct (clamped_energy_cases self car action_value soc_now) as [Hch _].
  specialize (Hch Hreq). fold energy cap in Hch. rewrite Hpos in Hch, Hreq.
  destruct (py_min2_spec (action_value * Charger.max_charging_power self)%Q
              (cap - soc_now)%Q) as (E & Hle1 & Hle2).
  rewrite <- Hch in E, Hle1, Hle2.
  split; [exact Hle1|]. split; [Lqa.lra|]. split.
  - intros Hs. rewrite E.
    destruct (Q.min_spec (action_value * Charger.max_charging_power self)%Q
                (cap - soc_now)%Q) as [[? ->] | [? ->]]; Lqa.lra.
  - intros Hs. rewrite E.
    destruct (Q.min_spec (action_value * Charger.max_charging_power self)%Q
                (cap - soc_now)%Q) as [[? ->] | [? ->]]; split; Lqa.lra.
Qed.

Lemma charge_respects_capacity_witness :
  (48 + Charger.clamped_energy (Examples.charger_with 50 48) (Examples.car_at 0 [48%Q])
          (1 # 5) 48
   <= Energy.capacity (electric_vehicle.battery (Examples.car_at 0 [48%Q])))%Q.
Proof.
  apply (charge_respects_capacity (Examples.charger_with 50 48)
           (Examples.car_at 0 [48%Q]) (1 # 5) 48).
  - reflexivity.
  - vm_compute. discriminate.
Defined.

(** X12: every call that returns records the action at the current
    time step and changes nothing else in the histories: every other
    entry of the three series, their lengths, the time step, the
    incoming vehicle and the power and efficiency settings are as
    before. *)
Theorem update_records_action {B : Type} `{Energy.Battery B}
    (self self' : Charger.t B) (action_value : Q) :
  Charger.update_connected_ev_soc self action_value = Some self' ->
  let ts := Charger.time_step self in
  Charger.past_charging_action_values self' !! ts = Some action_value /\
  (forall i : nat, i <> ts ->
     Charger.past_charging_action_values self' !! i
       = Charger.past_charging_action_values self !! i /\
     Charger.electricity_consumption self' !! i
       = Charger.electricity_consumption self !! i /\
     Charger.electricity_consumption_without_partial_load self' !! i
       = Charger.electricity_consumption_without_partial_load self !! i) /\
  length (Charger.past_charging_action_values self')
    = length (Charger.past_charging_action_values self) /\
  length (Charger.electricity_consumption self')
    = length (Charger.electricity_consumption self) /\
  length (Charger.electricity_consumption_without_partial_load self')
    = length (Charger.electricity_consumption_without_partial_load self) /\
  Charger.time_step self' = ts /\
  Charger.incoming_ev self' = Charger.incoming_ev self /\
  Charger.efficiency self' = Charger.efficiency self /\
  Charger.max_charging_power self' = Charger.max_charging_power self /\
  Charger.max_discharging_power self' = Charger.max_discharging_power self.
Proof.
  intros Hrun ts.
  destruct (update_series self self' action_value Hrun)
    as (Ha & Ea & H1 & [u1 E1] & H2 & [u2 E2] & Ets & Einc & Eeff & _ & Emc & Emd).
  fold ts in Ha, Ea, H1, E1, H2, E2, Ets.
  rewrite Ea, E1, E2, !length_insert.
  split; [apply list_lookup_insert_eq; exact Ha|].
  split.
  { intros i Hi. repeat split; apply list_lookup_insert_ne; congruence. }
  repeat split; assumption.
Qed.

Lemma update_records_action_witness :
  match Charger.update_connected_ev_soc (Examples.charger_with 50 48) (1 # 5) with
  | Some self' =>
      Charger.past_charging_action_values self' !! 0%nat = Some (1 # 5)%Q /\
      Charger.efficiency self' = 1%Q
  | None => False
  end.
Proof.
  destruct (Charger.update_connected_ev_soc (Examples.charger_with 50 48) (1 # 5))
    as [self'|] eqn:E.
  - destruct (update_records_action (Examples.charger_with 50 48) self' (1 # 5) E)
      as (Hact & _ & _ & _ & _ & _ & _ & Heff & _).
    split; [exact Hact | exact Heff].
  - vm_compute in E. discriminate E.
Defined.

(** X13: a charger whose action series, consumption series or
    no-partial-load series has no entry for the current time step
    fails on every call, whatever the action and the connected
    vehicle. *)
Theorem update_without_slot_fails {B : Type} `{Energy.Battery B}
    (self : Charger.t B) (action_value : Q) :
  (length (Charger.past_charging_action_values self) <= Charger.time_step self
   \/ length (Charger.electricity_consumption self) <= Charger.time_step self
   \/ length (Charger.electricity_consumption_without_partial_load self)
      <= Charger.time_step self)%nat ->
  Charger.update_connected_ev_soc self action_value = None.
Proof.
  intros Hshort.
  destruct (Charger.update_connected_ev_soc self action_value) as [self'|] eqn:E;
    [|reflexivity].
  destruct (update_series self self' action_value E) as (Ha & _ & H1 & _ & H2 & _).
  lia.
Qed.

Lemma update_without_slot_fails_witness :
  Charger.update_connected_ev_soc
    (ChargerOps.charger
       (ChargerOps.next_time_step (fun ts => S (S ts)) (MoreExamples.station 50 48)))
    (1 # 5) = None.
Proof.
  apply update_without_slot_fails. left. simpl. lia.
Defined.

Section LearnerMoreProofs.
Import PyNum SAC.
Local Open Scope Q_scope.

Lemma py_sum_shift (l : list Q) (a : Q) : fold_left Qplus l a == a + py_sum l.
Proof.
  unfold py_sum. revert a. induction l as [|x l IH]; intros a; simpl.
  - ring.
  - rewrite (IH (a + x)), (IH (0 + x)). ring.
Qed.

Lemma py_sum_cons (x : Q) (l : list Q) : py_sum (x :: l) == x + py_sum l.
Proof. unfold py_sum at 1. simpl. rewrite py_sum_shift. ring. Qed.

Lemma penal_of_cons (x : Q) (l : list Q) :
  penal_of (x :: l)
  == (if negb (Qltb x 0.001 && Qltb (-0.001) x) then 1 else -10) + penal_of l.
Proof. unfold penal_of. simpl map. apply py_sum_cons. Qed.

Lemma penal_of_nil : penal_of [] == 0.
Proof. reflexivity. Qed.
End LearnerMoreProofs.

(** X14: the action-inactivity penalty of [add_to_buffer] for [n]
    action components lies between [-10 n] and [n]; it is [-10 n] when
    every component is exactly zero (or of magnitude below 0.001) and
    [n] when every component has magnitude at least 0.001. *)
Theorem penalty_extremes (actions : list Q) :
  let n := inject_Z (Z.of_nat (length actions)) in
  (-10 * n <= SAC.penal_of actions <= n)%Q /\
  (Forall (fun x => (Qabs x < 0.001)%Q) actions -> (SAC.penal_of actions == -10 * n)%Q) /\
  (Forall (fun x => (0.001 <= Qabs x)%Q) actions -> (SAC.penal_of actions == n)%Q) /\
  (SAC.penal_of (replicate (length actions) 0%Q) == -10 * n)%Q.
Proof.
  cbv zeta.
  assert (Hn : forall (x : Q) (l : list Q),
             (inject_Z (Z.of_nat (length (x :: l)))
              == 1 + inject_Z (Z.of_nat (length l)))%Q).
  { intros x l. simpl length. rewrite Nat2Z.inj_succ, <- Z.add_1_l, inject_Z_plus.
    reflexivity. }
  assert (Hsmall : forall l, Forall (fun x => (Qabs x < 0.001)%Q) l ->
             (SAC.penal_of l == -10 * inject_Z (Z.of_nat (length l)))%Q).
  { intros l Hl. induction Hl as [|x l Hx _ IH].
    - reflexivity.
    - rewrite penal_of_cons, IH, Hn.
      apply Qabs_Qlt_condition in Hx. destruct Hx as [Hlo Hhi].
      assert (Hlo' : PyNum.Qltb (-0.001) x = true) by (apply Qltb_true; exact Hlo).
      apply Qltb_true in Hhi. rewrite Hlo', Hhi. simpl. ring. }
  split; [|split; [apply Hsmall | split]].
  - induction actions as [|x l IH].
    + split; vm_compute; discriminate.
    + rewrite penal_of_cons, Hn.
      destruct (negb _); Lqa.lra.
  - intros Hl. induction Hl as [|x l Hx _ IH].
    + reflexivity.
    + rewrite penal_of_cons, IH, Hn.
      destruct (PyNum.Qltb x 0.001 && PyNum.Qltb (-0.001) x) eqn:E.
      * apply andb_true_iff in E. destruct E as [E1 E2].
        apply Qltb_true in E1. apply Qltb_true in E2.
        exfalso. apply (Qlt_not_le (Qabs x) 0.001); [|exact Hx].
        apply Qabs_Qlt_condition. split; assumption.
      * simpl. ring.
  - rewrite Hsmall.
    + rewrite length_replicate. reflexivity.
    + apply Forall_replicate. reflexivity.
Qed.

(** X15: the hour-of-day term of [add_to_buffer] is -1, 0 or 1.  It is
    1 exactly when the mean action exceeds 0.1 in the hours
    [1 <= h < 12] or [22 <= h <= 24]; a mean action that is zero or
    negative is never rewarded, and charging (mean above 0) in the
    hours [12 <= h < 20] gives -1. *)
Theorem hour_term_values (hour mean : Q) :
  let hr_pen := SAC.hr_pen_of hour mean in
  (hr_pen = 1%Q \/ hr_pen = 0%Q \/ hr_pen = (-1)%Q) /\
  (hr_pen = 1%Q <->
     (((1 <= hour)%Q /\ (hour < 12)%Q) \/ ((22 <= hour)%Q /\ (hour <= 24)%Q))
     /\ (0.1 < mean)%Q) /\
  ((mean <= 0)%Q -> hr_pen = 0%Q \/ hr_pen = (-1)%Q) /\
  ((12 <= hour)%Q -> (hour < 20)%Q -> (0 < mean)%Q -> hr_pen = (-1)%Q).
Proof.
  cbv zeta. unfold SAC.hr_pen_of.
  destruct (PyNum.Qleb 1 hour) eqn:E1; destruct (PyNum.Qltb hour 12) eqn:E12;
    destruct (PyNum.Qleb 22 hour) eqn:E22; destruct (PyNum.Qleb hour 24) eqn:E24;
    destruct (PyNum.Qltb 0.1 mean) eqn:Em1; destruct (PyNum.Qltb hour 8) eqn:E8;
    destruct (PyNum.Qltb mean 0) eqn:Em0; destruct (PyNum.Qleb 12 hour) eqn:E12';
    destruct (PyNum.Qltb hour 20) eqn:E20; destruct (PyNum.Qltb 0 mean) eqn:Emp;
    simpl;
    repeat match goal with
           | E : PyNum.Qleb _ _ = true |- _ => apply Qleb_true in E
           | E : PyNum.Qltb _ _ = true |- _ => apply Qltb_true in E
           | E : PyNum.Qleb ?a ?b = false |- _ =>
               assert (~ (a <= b)%Q) by (intros Habs; apply Qleb_true in Habs; congruence);
               clear E
           | E : PyNum.Qltb ?a ?b = false |- _ =>
               assert (~ (a < b)%Q) by (intros Habs; apply Qltb_true in Habs; congruence);
               clear E
           end;
    try (exfalso; Lqa.lra);
    (split; [tauto|]);
    (split; [split; [first [discriminate | intros _; split; [tauto | assumption]]
                    | first [reflexivity | intros [Hh Hm]; exfalso; tauto]]|]);
    (split; [intros Hm; first [tauto | exfalso; Lqa.lra]|]);
    intros Ha Hb Hc; first [reflexivity | exfalso; Lqa.lra | exfalso; tauto].
Qed.

(** X16: [add_to_buffer] fails when the state vector has fewer than
    three entries, when the environment has no net consumption yet, and
    when the hour truncates to 25 or more or to -24 or less (no slot in
    the 24 hourly slots); nothing is stored in these cases. *)
Theorem add_to_buffer_failures (self : SAC.t) (net states actions : list Q)
    (rewards : Q) (next_states : list Q) (dones : bool) :
  length (SAC.day_list self) = 24%nat ->
  ((length states < 3)%nat ->
     SAC.add_to_buffer self net states actions rewards next_states dones = None) /\
  (net = [] ->
     SAC.add_to_buffer self net states actions rewards next_states dones = None) /\
  (forall hour : Q,
     states !! 2%nat = Some hour ->
     (25 <= PyNum.py_int hour \/ PyNum.py_int hour <= -24)%Z ->
     SAC.add_to_buffer self net states actions rewards next_states dones = None).
Proof.
  intros Hday. unfold SAC.add_to_buffer. cbv zeta. repeat split.
  - intros Hlen. rewrite (lookup_ge_None_2 states 2) by lia. reflexivity.
  - intros ->. destruct (states !! 2%nat) as [hour|]; [|reflexivity].
    unfold SAC.track_peak.
    destruct (Z.eqb_spec (PyNum.py_int hour - 1) 0) as [-> | Hne].
    + destruct (PyNum.py_max (SAC.day_list self)); reflexivity.
    + destruct (PyNum.py_index (SAC.day_list self) (PyNum.py_int hour - 1));
        reflexivity.
  - intros hour Hhour Hrange. rewrite Hhour.
    unfold SAC.track_peak.
    destruct (Z.eqb_spec (PyNum.py_int hour - 1) 0) as [E | Hne]; [lia|].
    destruct (PyNum.py_index (SAC.day_list self) (PyNum.py_int hour - 1)) as [i|] eqn:Ei;
      [|reflexivity].
    exfalso. unfold PyNum.py_index in Ei. rewrite Hday in Ei.
    destruct (Z.leb_spec 0 (PyNum.py_int hour - 1)),
             (Z.ltb_spec (PyNum.py_int hour - 1) (Z.of_nat 24)); simpl in Ei;
      try lia;
      destruct (Z.leb_spec (- Z.of_nat 24) (PyNum.py_int hour - 1)),
               (Z.ltb_spec (PyNum.py_int hour - 1) 0); simpl in Ei;
      try discriminate; lia.
Qed.

Lemma add_to_buffer_failures_witness :
  SAC.add_to_buffer Examples.learner [3%Q] [0; 0; 25]%Q [0.5%Q] 1 [0; 0; 1]%Q false
  = None.
Proof.
  apply (add_to_buffer_failures Examples.learner [3%Q] [0; 0; 25]%Q [0.5%Q] 1
           [0; 0; 1]%Q false eq_refl) with (hour := 25%Q).
  - reflexivity.
  - left. vm_compute. discriminate.
Defined.

(** X17: an hour observation that truncates to 0 (any hour in
    [(-1, 1)]) does not fail: the index -1 wraps around, the consumption
    is written to the last of the 24 slots, the slot of hour 24, and
    the daily peak is the maximum of the slots after the write. *)
Theorem hour_zero_wraps_to_last_slot (self : SAC.t) (net states actions : list Q)
    (rewards : Q) (next_states : list Q) (dones : bool) (hour c : Q) :
  SAC.wf self ->
  states !! 2%nat = Some hour ->
  PyNum.py_int hour = 0%Z ->
  PyNum.py_last net = Some c ->
  exists (self' : SAC.t) (out : Q * Q * Q * Q * Q) (max_peak : Q),
    SAC.add_to_buffer self net states actions rewards next_states dones
      = Some (self', out) /\
    SAC.day_list self' = <[23%nat := c]> (SAC.day_list self) /\
    SAC.day_list self' !! 23%nat = Some c /\
    PyNum.py_max (SAC.day_list self') = Some max_peak /\
    (out.1.2 == max_peak / 50 * -(1 # 2))%Q.
Proof.
  intros Hwf Hhour Hint Hc.
  assert (Hnet : net <> []) by (intros ->; discriminate Hc).
  destruct (add_to_buffer_returns self net states actions rewards next_states dones
              hour Hwf Hhour ltac:(lia) Hnet)
    as (self' & mp & dl & Hrun & Htrack & Hday' & _).
  cbv zeta in Hrun.
  destruct Hwf as (_ & _ & W6 & _ & Hday & _).
  destruct (track_peak_spec (SAC.day_list self) (PyNum.py_int hour - 1) net c Hday
              ltac:(lia) Hc) as (mp' & dl' & i & Htrack' & Hdl & Hi & _ & Hother).
  rewrite Htrack in Htrack'. injection Htrack' as <- <-.
  destruct (Hother ltac:(lia)) as [Hdl1 Hmax].
  assert (Ei : i = 23%nat).
  { rewrite Hint in Hi. unfold PyNum.py_index in Hi. rewrite Hday in Hi.
    simpl in Hi. injection Hi as <-. reflexivity. }
  subst i.
  eexists; eexists; exists mp. split; [exact Hrun|].
  rewrite Hday'. split; [exact Hdl1|].
  split; [rewrite Hdl1; apply list_lookup_insert_eq; lia|].
  split; [exact Hmax|].
  simpl. rewrite W6. reflexivity.
Qed.

Lemma hour_zero_wraps_to_last_slot_witness :
  exists (self' : SAC.t) (out : Q * Q * Q * Q * Q) (max_peak : Q),
    SAC.add_to_buffer Examples.learner [7%Q] [0; 0; 0.5]%Q [0.5%Q] 1 [0; 0; 1]%Q false
      = Some (self', out) /\
    SAC.day_list self' = <[23%nat := 7%Q]> (SAC.day_list Examples.learner) /\
    SAC.day_list self' !! 23%nat = Some 7%Q /\
    PyNum.py_max (SAC.day_list self') = Some max_peak /\
    (out.1.2 == max_peak / 50 * -(1 # 2))%Q.
Proof.
  apply (hour_zero_wraps_to_last_slot Examples.learner [7%Q] [0; 0; 0.5]%Q [0.5%Q] 1
           [0; 0; 1]%Q false 0.5%Q 7%Q).
  - unfold SAC.wf; simpl. repeat split; try reflexivity; lia.
  - reflexivity.
  - reflexivity.
  - reflexivity.
Defined.

Section SoftUpdateShape.
Import SAC.

Lemma soft_update_same_shape (target source : Params) (tau : Q) :
  same_shape target source -> same_shape (soft_update target source tau) source.
Proof.
  unfold same_shape. intros Hs.
  induction Hs as [|tp p target source Hl _ IH]; simpl; constructor; [|exact IH].
  rewrite length_zip_with. lia.
Qed.

Lemma soft_update_iter_same_shape (target source : Params) (tau : Q) (k : nat) :
  same_shape target source ->
  same_shape (Nat.iter k (fun tg => soft_update tg source tau) target) source.
Proof.
  intros Hs. induction k as [|k IH]; simpl; [exact Hs|].
  apply soft_update_same_shape. exact IH.
Qed.
End SoftUpdateShape.

(** X18: repeated soft updates toward a source of the same shape that
    does not change keep that shape and shrink the distance of every
    target entry to its source entry geometrically: after [k] updates
    with coefficient [tau] the difference is [(1 - tau)^k] times the
    initial difference. *)
Theorem soft_update_converges (target source : list (list Q)) (tau : Q) (k i j : nat)
    (tp p : list Q) (t s : Q) :
  SAC.same_shape target source ->
  target !! i = Some tp -> tp !! j = Some t ->
  source !! i = Some p -> p !! j = Some s ->
  SAC.same_shape (Nat.iter k (fun tg => SAC.soft_update tg source tau) target) source /\
  exists (tp' : list Q) (t' : Q),
    Nat.iter k (fun tg => SAC.soft_update tg source tau) target !! i = Some tp' /\
    tp' !! j = Some t' /\
    (t' - s == (1 - tau) ^ Z.of_nat k * (t - s))%Q.
Proof.
  intros Hshape Ht Htj Hs Hsj.
  split; [apply soft_update_iter_same_shape; exact Hshape|].
  induction k as [|k IH].
  - exists tp, t. simpl. repeat split; try assumption. ring.
  - destruct IH as (tpk & tk & Hk & Hkj & Ek).
    destruct (soft_update_entry (Nat.iter k (fun tg => SAC.soft_update tg source tau) target)
                source tau i j tpk p tk s Hk Hkj Hs Hsj)
      as (tp' & t' & H1 & H2 & _ & _ & E').
    exists tp', t'. simpl Nat.iter. split; [exact H1|]. split; [exact H2|].
    rewrite Nat2Z.inj_succ, <- Z.add_1_r.
    rewrite Qpower.Qpower_plus' by lia.
    assert (Estep : (t' - s == (1 - tau) * (tk - s))%Q) by Lqa.lra.
    rewrite Estep, Ek. simpl. ring.
Qed.

Lemma soft_update_converges_witness :
  exists (tp' : list Q) (t' : Q),
    Nat.iter 2 (fun tg => SAC.soft_update tg [[1; 5]%Q] (1 # 2)) [[0; 1]%Q] !! 0%nat
      = Some tp' /\
    tp' !! 1%nat = Some t' /\
    (t' - 5 == (1 - (1 # 2)) ^ Z.of_nat 2 * (1 - 5))%Q.
Proof.
  apply (soft_update_converges [[0; 1]%Q] [[1; 5]%Q] (1 # 2) 2 0 1
           [0; 1]%Q [1; 5]%Q 1 5);
    try reflexivity.
  repeat constructor.
Defined.

(** X19: a replay memory whose capacity is zero or negative stores
    nothing: the first push on it raises, and so does every run of
    pushes that is not empty. *)
Theorem replay_memory_without_capacity {T : Type} (C : Z) (x : T) (xs : list T) :
  (C <= 0)%Z ->
  ReplayMemory.push (ReplayMemory.init C) x = None /\
  ReplayMemory.push_all (ReplayMemory.init C) (x :: xs) = None.
Proof.
  intros HC.
  assert (Hp : ReplayMemory.push (ReplayMemory.init C) x = None).
  { unfold ReplayMemory.push, ReplayMemory.init. simpl.
    destruct (Z.ltb_spec (Z.of_nat 0) C); [lia|]. reflexivity. }
  split; [exact Hp|]. simpl. rewrite Hp. reflexivity.
Qed.

Lemma replay_memory_without_capacity_witness :
  ReplayMemory.push (ReplayMemory.init 0) 1%nat = None /\
  ReplayMemory.push_all (ReplayMemory.init 0) [1; 2]%nat = None.
Proof.
  apply (replay_memory_without_capacity 0%Z 1%nat [2%nat]). lia.
Defined.

(** X20: a push on a memory whose cursor is inside the ring changes
    one slot only: the slot under the cursor receives the new
    transition, every other stored slot keeps its content, the capacity
    is unchanged, the cursor moves on by one modulo the capacity, and
    the length grows by one until the capacity is reached and stays
    there. *)
Theorem replay_push_changes_one_slot {T : Type} (m : ReplayMemory.t T) (x : T) :
  (0 <= ReplayMemory.position m < ReplayMemory.capacity m)%Z ->
  (ReplayMemory.position m <= Z.of_nat (ReplayMemory.len m))%Z ->
  exists m' : ReplayMemory.t T,
    ReplayMemory.push m x = Some m' /\
    ReplayMemory.capacity m' = ReplayMemory.capacity m /\
    ReplayMemory.position m'
      = ((ReplayMemory.position m + 1) mod ReplayMemory.capacity m)%Z /\
    ReplayMemory.buffer m' !! Z.to_nat (ReplayMemory.position m) = Some (Some x) /\
    (forall i : nat,
       i <> Z.to_nat (ReplayMemory.position m) -> (i < ReplayMemory.len m)%nat ->
       ReplayMemory.buffer m' !! i = ReplayMemory.buffer m !! i) /\
    ReplayMemory.len m'
      = (if (Z.of_nat (ReplayMemory.len m) <? ReplayMemory.capacity m)%Z
         then S (ReplayMemory.len m) else ReplayMemory.len m).
Proof.
  unfold ReplayMemory.len. intros Hpos Hle. unfold ReplayMemory.push.
  destruct (Z.ltb_spec (Z.of_nat (length (ReplayMemory.buffer m)))
              (ReplayMemory.capacity m)) as [Hlt | Hge].
  - rewrite py_index_in_range by (rewrite length_app; simpl; lia).
    destruct (Z.eqb_spec (ReplayMemory.capacity m) 0); [lia|].
    eexists; split; [reflexivity|]. simpl.
    repeat split.
    + apply list_lookup_insert_eq. rewrite length_app. simpl. lia.
    + intros i Hi Hlen. rewrite list_lookup_insert_ne by congruence.
      apply lookup_app_l. exact Hlen.
    + rewrite length_insert, length_app. simpl. lia.
  - rewrite py_index_in_range by lia.
    destruct (Z.eqb_spec (ReplayMemory.capacity m) 0); [lia|].
    eexists; split; [reflexivity|]. simpl.
    repeat split.
    + apply list_lookup_insert_eq. lia.
    + intros i Hi Hlen. apply list_lookup_insert_ne. congruence.
    + apply length_insert.
Qed.

Lemma replay_push_changes_one_slot_witness :
  exists m' : ReplayMemory.t (nat * nat * nat * nat * bool),
    ReplayMemory.push Examples.small_memory (0, 0, 0, 0, true)%nat = Some m' /\
    ReplayMemory.capacity m' = ReplayMemory.capacity Examples.small_memory /\
    ReplayMemory.position m'
      = ((ReplayMemory.position Examples.small_memory + 1)
         mod ReplayMemory.capacity Examples.small_memory)%Z /\
    ReplayMemory.buffer m' !! Z.to_nat (ReplayMemory.position Examples.small_memory)
      = Some (Some (0, 0, 0, 0, true)%nat) /\
    (forall i : nat,
       i <> Z.to_nat (ReplayMemory.position Examples.small_memory) ->
       (i < ReplayMemory.len Examples.small_memory)%nat ->
       ReplayMemory.buffer m' !! i = ReplayMemory.buffer Examples.small_memory !! i) /\
    ReplayMemory.len m'
      = (if (Z.of_nat (ReplayMemory.len Examples.small_memory)
             <? ReplayMemory.capacity Examples.small_memory)%Z
         then S (ReplayMemory.len Examples.small_memory)
         else ReplayMemory.len Examples.small_memory).
Proof.
  apply (replay_push_changes_one_slot Examples.small_memory (0, 0, 0, 0, true)%nat).
  - simpl. lia.
  - unfold ReplayMemory.len. simpl. lia.
Defined.



(** X22: the auto-regressive memory is not bounded by its capacity: the
    capacity only sets the number of initial zeros, every push appends,
    and after [n] pushes the memory holds the zeros followed by the [n]
    pushed values in order. *)
Theorem autoregressive_memory_grows (capacity : nat) (pushed : list (list Q)) :
  let m := fold_left AutoRegressiveMemory.push pushed
             (AutoRegressiveMemory.init capacity) in
  AutoRegressiveMemory.buffer m
    = replicate capacity AutoRegressiveMemory.zero
      ++ map AutoRegressiveMemory.pushed pushed /\
  AutoRegressiveMemory.len m = (capacity + length pushed)%nat.
Proof.
  cbv zeta.
  assert (Hgen : forall (m0 : AutoRegressiveMemory.t),
             AutoRegressiveMemory.buffer (fold_left AutoRegressiveMemory.push pushed m0)
             = AutoRegressiveMemory.buffer m0 ++ map AutoRegressiveMemory.pushed pushed).
  { induction pushed as [|x l IH]; intros m0; simpl.
    - rewrite app_nil_r. reflexivity.
    - rewrite IH. simpl. rewrite <- app_assoc. reflexivity. }
  split.
  - rewrite Hgen. reflexivity.
  - unfold AutoRegressiveMemory.len. rewrite Hgen. simpl.
    rewrite length_app, length_replicate, length_map. reflexivity.
Qed.

(** X23: the adjusted state of charge stays within 20 percent of the
    target: for a target that is not negative the final value lies
    between 0.8 and 1.2 times the target, whatever the draw; a draw
    inside [[-0.2, 0.2]] is applied unclipped, and a draw of 0 gives
    exactly the target. *)
Theorem adjustment_within_twenty_percent {B : Type} `{Energy.Battery B}
    (self : electric_vehicle.t B) (soc_system_connection normal_draw : Q) :
  let a := electric_vehicle.adjust_locals self soc_system_connection normal_draw in
  let target := electric_vehicle.soc_system_connection_kwh a in
  let final := electric_vehicle.soc_final_kwh a in
  ((0 <= target)%Q -> (0.8 * target <= final <= 1.2 * target)%Q) /\
  ((target <= 0)%Q -> (1.2 * target <= final <= 0.8 * target)%Q) /\
  ((-0.2 <= normal_draw <= 0.2)%Q -> (final == target * (1 + normal_draw))%Q) /\
  ((normal_draw == 0)%Q -> (final == target)%Q).
Proof.
  cbv zeta. simpl.
  set (v := PyNum.np_clip normal_draw (-0.2) 0.2).
  set (t := (Energy.capacity (electric_vehicle.battery self)
             * (soc_system_connection / 100))%Q).
  assert (Hv : (-0.2 <= v <= 0.2)%Q) by (apply np_clip_bounds; Lqa.lra).
  assert (Hclip : (-0.2 <= normal_draw <= 0.2)%Q -> (v == normal_draw)%Q).
  { intros Hd. subst v. unfold PyNum.np_clip.
    destruct (Q.max_spec normal_draw (-0.2)) as [[? E1] | [? E1]];
      destruct (Q.min_spec (Qmax normal_draw (-0.2)) 0.2) as [[? E2] | [? E2]];
      rewrite E2 in *; rewrite ?E1 in *; Lqa.lra. }
  clearbody v t.
  split; [|split; [|split]].
  - intros Ht.
    pose proof (Qmult_le_0_compat (v + 0.2) t ltac:(Lqa.lra) Ht).
    pose proof (Qmult_le_0_compat (0.2 - v) t ltac:(Lqa.lra) Ht).
    split; Lqa.lra.
  - intros Ht.
    pose proof (Qmult_le_0_compat (v + 0.2) (- t) ltac:(Lqa.lra) ltac:(Lqa.lra)).
    pose proof (Qmult_le_0_compat (0.2 - v) (- t) ltac:(Lqa.lra) ltac:(Lqa.lra)).
    split; Lqa.lra.
  - intros Hd. rewrite (Hclip Hd). ring.
  - intros Hd. rewrite (Hclip ltac:(Lqa.lra)), Hd. ring.
Qed.

(** X24: the critic target of one transition.  For a terminal
    transition (mask 0) it is the reward alone.  For a mask and a
    discount that are not negative it never exceeds the target that
    either of the two target critics alone would give, and it equals
    the smaller of the two; exchanging the two critics does not change
    it. *)
Theorem critic_target_is_pessimistic
    (alpha gamma reward mask q1 q2 log_pi : Q) :
  (SACUpdate.next_q_value alpha gamma reward 0 q1 q2 log_pi == reward)%Q /\
  (SACUpdate.next_q_value alpha gamma reward mask q1 q2 log_pi
   == SACUpdate.next_q_value alpha gamma reward mask q2 q1 log_pi)%Q /\
  ((0 <= mask)%Q -> (0 <= gamma)%Q ->
   (SACUpdate.next_q_value alpha gamma reward mask q1 q2 log_pi
    <= reward + mask * gamma * (q1 - alpha * log_pi))%Q /\
   (SACUpdate.next_q_value alpha gamma reward mask q1 q2 log_pi
    <= reward + mask * gamma * (q2 - alpha * log_pi))%Q /\
   ((SACUpdate.next_q_value alpha gamma reward mask q1 q2 log_pi
     == reward + mask * gamma * (q1 - alpha * log_pi))%Q \/
    (SACUpdate.next_q_value alpha gamma reward mask q1 q2 log_pi
     == reward + mask * gamma * (q2 - alpha * log_pi))%Q)).
Proof.
  unfold SACUpdate.next_q_value. cbv zeta.
  split; [ring|]. split.
  - rewrite (Q.min_comm q1 q2). reflexivity.
  - intros Hm Hg.
    pose proof (Qmult_le_0_compat mask gamma Hm Hg) as Hmg.
    set (mg := (mask * gamma)%Q) in *. clearbody mg.
    destruct (Q.min_spec q1 q2) as [[Hlt E] | [Hle E]].
    + pose proof (Qmult_le_0_compat mg (q2 - q1) Hmg ltac:(Lqa.lra)).
      assert (Em : (mg * (Qmin q1 q2 - alpha * log_pi)
                    == mg * (q1 - alpha * log_pi))%Q) by (rewrite E; reflexivity).
      split; [Lqa.lra|]. split; [Lqa.lra|]. left. Lqa.lra.
    + pose proof (Qmult_le_0_compat mg (q1 - q2) Hmg ltac:(Lqa.lra)).
      assert (Em : (mg * (Qmin q1 q2 - alpha * log_pi)
                    == mg * (q2 - alpha * log_pi))%Q) by (rewrite E; reflexivity).
      split; [Lqa.lra|]. split; [Lqa.lra|]. right. Lqa.lra.
Qed.

Section PolicyMoreProofs.
Import Torch.
Local Open Scope R_scope.

Lemma sum_exp_shift (inputs : list R) (s : R) :
  fold_right Rplus 0 (map (fun x => exp (x - s)) inputs)
  = exp (- s) * fold_right Rplus 0 (map exp inputs).
Proof.
  induction inputs as [|x l IH]; simpl.
  - ring.
  - rewrite IH. unfold Rminus. rewrite exp_plus. ring.
Qed.

Lemma sum_exp_pos (inputs : list R) :
  inputs <> [] -> 0 < fold_right Rplus 0 (map exp inputs).
Proof.
  intros Hne. destruct inputs as [|x l]; [congruence|]. clear Hne. simpl.
  assert (Hl : 0 <= fold_right Rplus 0 (map exp l)).
  { induction l as [|y l IH]; simpl; [lra|].
    pose proof (exp_pos y). lra. }
  pose proof (exp_pos x). lra.
Qed.

Lemma fold_max_ge (xs : list R) (x0 : R) :
  x0 <= fold_left Rmax xs x0 /\ Forall (fun x => x <= fold_left Rmax xs x0) xs.
Proof.
  revert x0. induction xs as [|y ys IH]; intros x0; simpl.
  - split; [lra | constructor].
  - destruct (IH (Rmax x0 y)) as [H0 Hall].
    pose proof (Rmax_l x0 y). pose proof (Rmax_r x0 y).
    split; [lra|]. constructor; [lra | exact Hall].
Qed.
Lemma quadratic_sum_nonpos (ds log_std : list R) :
  fold_right Rplus 0
    (zip_with (fun d ls => - ((0.5 * d / exp ls) ^ 2)) ds log_std) <= 0.
Proof.
  revert log_std. induction ds as [|d ds IH]; intros [|ls log_std]; simpl; try lra.
  specialize (IH log_std). pose proof (pow2_ge_0 (0.5 * d / exp ls)).
  simpl in *. lra.
Qed.

Lemma quadratic_sum_at_mean (mean log_std : list R) :
  fold_right Rplus 0
    (zip_with (fun d ls => - ((0.5 * d / exp ls) ^ 2))
       (zip_with Rminus mean mean) log_std) = 0.
Proof.
  revert log_std. induction mean as [|m mean IH]; intros [|ls log_std]; simpl;
    try reflexivity.
  rewrite IH. pose proof (exp_pos ls). field. lra.
Qed.
End PolicyMoreProofs.

(** X25: on a tensor that is not empty [logsumexp] is the logarithm of
    the sum of the exponentials (the subtraction of the maximum does
    not change the value) and is at least every input; on the empty
    tensor it fails. *)
Theorem logsumexp_value (inputs : list R) :
  inputs <> [] ->
  exists out : R,
    TorchFunctions.logsumexp inputs = Some out /\
    out = ln (fold_right Rplus 0%R (map exp inputs)) /\
    Forall (fun x => (x <= out)%R) inputs /\
    TorchFunctions.logsumexp [] = None.
Proof.
  intros Hne. unfold TorchFunctions.logsumexp, TorchFunctions.tensor_max.
  destruct inputs as [|x l] eqn:El; [congruence|]. rewrite <- El in *.
  set (s := fold_left Rmax l x).
  eexists; split; [reflexivity|].
  pose proof (sum_exp_pos inputs Hne) as Hpos.
  assert (Eval : (s + ln (fold_right Rplus 0%R (map (fun y => exp (y - s)) inputs))
                  = ln (fold_right Rplus 0%R (map exp inputs)))%R).
  { rewrite sum_exp_shift.
    rewrite ln_mult; [|apply exp_pos | exact Hpos].
    rewrite ln_exp. ring. }
  split; [exact Eval|]. split; [|reflexivity].
  rewrite Eval. apply Forall_forall. intros y Hy.
  assert (Hle : (exp y <= fold_right Rplus 0%R (map exp inputs))%R).
  { clear -Hy. induction inputs as [|z l IH]; [inversion Hy|].
    simpl. apply elem_of_cons in Hy.
    assert (Hl : (0 <= fold_right Rplus 0%R (map exp l))%R).
    { clear. induction l as [|w l IH]; simpl; [lra|].
      pose proof (exp_pos w). lra. }
    destruct Hy as [-> | Hy]; [lra|].
    specialize (IH Hy). pose proof (exp_pos z). lra. }
  rewrite <- (ln_exp y).
  destruct (Rle_lt_or_eq_dec _ _ Hle) as [Hlt | Heq].
  - left. apply ln_increasing; [apply exp_pos | exact Hlt].
  - right. rewrite Heq. reflexivity.
Qed.

Lemma logsumexp_value_witness :
  exists out : R,
    TorchFunctions.logsumexp [0%R; 1%R] = Some out /\
    out = ln (fold_right Rplus 0%R (map exp [0%R; 1%R])) /\
    Forall (fun x => (x <= out)%R) [0%R; 1%R] /\
    TorchFunctions.logsumexp [] = None.
Proof.
  apply (logsumexp_value [0%R; 1%R]). discriminate.
Defined.

(** X26: [GaussianPolicy.forward] clamps the log standard deviation:
    every component lies in [[-20, 2]], so the standard deviation
    [exp(log_std)] used by the sampler is positive and at most
    [exp 2]. *)
Theorem gaussian_log_std_clamped (self : GaussianPolicy.t) (state : list R)
    (i : nat) (v : R) :
  (GaussianPolicy.forward self state).2 !! i = Some v ->
  (GaussianPolicy.LOG_SIG_MIN <= v <= GaussianPolicy.LOG_SIG_MAX)%R /\
  (-20 <= v <= 2)%R /\
  (0 < exp v <= exp 2)%R.
Proof.
  unfold GaussianPolicy.forward. simpl. unfold Torch.clamp.
  rewrite list_lookup_fmap.
  destruct (_ !! i) as [w|]; [|discriminate].
  simpl. intros [= <-].
  pose proof (clamp_bounds GaussianPolicy.LOG_SIG_MIN GaussianPolicy.LOG_SIG_MAX w) as Hb.
  unfold GaussianPolicy.LOG_SIG_MIN, GaussianPolicy.LOG_SIG_MAX in *.
  specialize (Hb ltac:(lra)).
  split; [exact Hb|]. split; [exact Hb|].
  split; [apply exp_pos|].
  destruct Hb as [_ Hhi].
  destruct (Rle_lt_or_eq_dec _ _ Hhi) as [Hlt | Heq].
  - left. apply exp_increasing. exact Hlt.
  - right. rewrite Heq. reflexivity.
Qed.

(** X27: with zero noise the sampled action of the Gaussian policy is
    its deterministic mean action (the action used in evaluation), when
    the mean head and the log-std head have the same number of
    outputs. *)
Theorem gaussian_zero_noise_is_mean (self : GaussianPolicy.t) (state : list R) (n : nat) :
  length (GaussianPolicy.forward self state).2
    = length (GaussianPolicy.forward self state).1 ->
  (length (GaussianPolicy.forward self state).1 <= n)%nat ->
  (GaussianPolicy.sample self state (replicate n 0%R)).1.1
  = (GaussianPolicy.sample self state (replicate n 0%R)).2.
Proof.
  unfold GaussianPolicy.sample.
  destruct (GaussianPolicy.forward self state) as [mean log_std] eqn:Ef. simpl.
  intros Hlen Hn. f_equal. f_equal.
  assert (Hz : forall (std : list R) (k : nat),
             (length std <= k)%nat ->
             zip_with Rmult std (replicate k 0%R) = replicate (length std) 0%R).
  { induction std as [|a std IH]; intros k Hk; [reflexivity|].
    destruct k as [|k]; simpl in *; [lia|].
    rewrite IH by lia. f_equal. ring. }
  assert (Hp : forall (m : list R) (k : nat),
             (length m <= k)%nat -> zip_with Rplus m (replicate k 0%R) = m).
  { induction m as [|a m IH]; intros k Hk; [reflexivity|].
    destruct k as [|k]; simpl in *; [lia|].
    rewrite IH by lia. f_equal. ring. }
  rewrite Hz by (rewrite length_map; lia).
  rewrite length_map. apply Hp. lia.
Qed.

Lemma gaussian_log_std_clamped_witness :
  exists v : R,
    (GaussianPolicy.forward MoreExamples.gaussian [0%R]).2 !! 0%nat = Some v /\
    (-20 <= v <= 2)%R.
Proof.
  eexists. split; [reflexivity|].
  exact (proj1 (proj2 (gaussian_log_std_clamped MoreExamples.gaussian [0%R] 0%nat _
                         eq_refl))).
Defined.

Lemma gaussian_zero_noise_is_mean_witness :
  (GaussianPolicy.sample MoreExamples.gaussian [0%R] (replicate 1 0%R)).1.1
  = (GaussianPolicy.sample MoreExamples.gaussian [0%R] (replicate 1 0%R)).2.
Proof.
  apply (gaussian_zero_noise_is_mean MoreExamples.gaussian [0%R] 1%nat).
  - reflexivity.
  - exact (le_n 1).
Defined.

(** X28: [create_log_gaussian] on one-dimensional tensors of one
    common length is largest at the mean: for every [t] the value is at
    most the value at [t = mean], which is
    [- sum(log_std) - 0.5 * n * log(2 pi)] for [n] the length of
    [mean]. *)
Theorem log_gaussian_maximal_at_mean (mean log_std t : list R) :
  length log_std = length mean ->
  length t = length mean ->
  (TorchFunctions.create_log_gaussian mean log_std t
   <= TorchFunctions.create_log_gaussian mean log_std mean)%R /\
  TorchFunctions.create_log_gaussian mean log_std mean
  = (- fold_right Rplus 0 log_std - 0.5 * (INR (length mean) * ln (2 * PI)))%R.
Proof.
  intros _ _. unfold TorchFunctions.create_log_gaussian.
  rewrite quadratic_sum_at_mean.
  pose proof (quadratic_sum_nonpos (zip_with Rminus t mean) log_std).
  split; lra.
Qed.

Lemma log_gaussian_maximal_at_mean_witness :
  (TorchFunctions.create_log_gaussian [0%R] [0%R] [1%R]
   <= TorchFunctions.create_log_gaussian [0%R] [0%R] [0%R])%R.
Proof.
  exact (proj1 (log_gaussian_maximal_at_mean [0%R] [0%R] [1%R] eq_refl eq_refl)).
Defined.
Section SelectActionProofs.
Import PyNum Torch SelectAction.
Local Open Scope R_scope.

Lemma soc_flags_spec (sc : list R) (n : nat) :
  forall (b : Z) (flags : list Z),
    soc_flags sc b n = Some flags ->
    length flags = n /\
    forall k : nat, (k < n)%nat ->
      exists (i : nat) (s : R),
        py_index sc (b + Z.of_nat k) = Some i /\ sc !! i = Some s /\
        flags !! k = Some (flag_of s).
Proof.
  induction n as [|n IH]; intros b flags; simpl.
  - intros [= <-]. split; [reflexivity | intros k Hk; lia].
  - destruct (py_index sc b) as [i|] eqn:Ei; [|discriminate].
    destruct (sc !! i) as [s|] eqn:Es; [|discriminate].
    destruct (soc_flags sc (b + 1) n) as [rest|] eqn:Er; [|discriminate].
    intros [= <-]. destruct (IH _ _ Er) as [Hlen Hk]. split; [simpl; lia|].
    intros [|k] Hlt.
    + exists i, s. rewrite Z.add_0_r. repeat split; assumption.
    + destruct (Hk k ltac:(lia)) as (i' & s' & Hi & Hs & Hf).
      exists i', s'. replace (b + Z.of_nat (S k))%Z with (b + 1 + Z.of_nat k)%Z by lia.
      repeat split; assumption.
Qed.

(** What one run of the second inner loop does to the action. *)
Lemma apply_flags_spec (flags : list Z) :
  forall (action : list R) (pos : nat) (action' : list R),
    apply_flags action pos flags = Some action' ->
    length action' = length action /\
    (forall p : nat, (p < pos)%nat \/ (pos + length flags <= p)%nat ->
       action' !! p = action !! p) /\
    (forall (p : nat) (a' : R), action' !! p = Some a' ->
       action !! p = Some a' \/ a' = 0) /\
    (forall (k : nat) (flag : Z), flags !! k = Some flag ->
       (flag = -1 \/ flag = 1)%Z ->
       exists a' : R, action' !! (pos + k)%nat = Some a' /\
         (flag = (-1)%Z -> 0 <= a') /\ (flag = 1%Z -> a' <= 0)) /\
    ((forall flag : Z, flag ∈ flags -> flag <> (-1)%Z /\ flag <> 1%Z) ->
       action' = action).
Proof.
  induction flags as [|flag rest IH]; intros action pos action'.
  - simpl. intros [= <-]. split; [reflexivity|]. split; [reflexivity|].
    split; [intros; left; assumption|]. split; [|reflexivity].
    intros k flag Hk. rewrite lookup_nil in Hk. discriminate.
  - cbn [apply_flags].
    assert (Hstep : forall (a : R) (zero : bool) (action1 : list R),
               action !! pos = Some a ->
               action1 = (if zero then <[pos := 0]> action else action) ->
               (flag = (-1)%Z -> zero = false -> 0 <= a) ->
               (flag = 1%Z -> zero = false -> a <= 0) ->
               (flag = -1 \/ flag = 1)%Z ->
               apply_flags action1 (S pos) rest = Some action' ->
               length action' = length action /\
               (forall p : nat, (p < pos)%nat \/ (pos + length (flag :: rest) <= p)%nat ->
                  action' !! p = action !! p) /\
               (forall (p : nat) (a' : R), action' !! p = Some a' ->
                  action !! p = Some a' \/ a' = 0) /\
               (forall (k : nat) (flag0 : Z), (flag :: rest) !! k = Some flag0 ->
                  (flag0 = -1 \/ flag0 = 1)%Z ->
                  exists a' : R, action' !! (pos + k)%nat = Some a' /\
                    (flag0 = (-1)%Z -> 0 <= a') /\ (flag0 = 1%Z -> a' <= 0)) /\
               ((forall flag0 : Z, flag0 ∈ flag :: rest ->
                   flag0 <> (-1)%Z /\ flag0 <> 1%Z) -> action' = action)).
    { intros a zero action1 Ha E1 Hneg Hpos Hflag Hrun.
      destruct (IH _ _ _ Hrun) as (Hlen & Hout & Hzero & Hin & _).
      assert (Hlen1 : length action1 = length action).
      { subst action1. destruct zero; [apply length_insert | reflexivity]. }
      assert (Hother : forall p : nat, p <> pos -> action1 !! p = action !! p).
      { intros p Hp. subst action1. destruct zero; [|reflexivity].
        apply list_lookup_insert_ne. congruence. }
      assert (Hat : exists a1 : R, action1 !! pos = Some a1 /\ (a1 = a \/ a1 = 0) /\
                      (flag = (-1)%Z -> 0 <= a1) /\ (flag = 1%Z -> a1 <= 0)).
      { subst action1. destruct zero.
        - exists 0. split.
          + apply list_lookup_insert_eq. apply lookup_lt_Some in Ha. exact Ha.
          + split; [right; reflexivity|]. split; intros; lra.
        - exists a. split; [exact Ha|]. split; [left; reflexivity|].
          split; intros; auto. }
      split; [congruence|]. split.
      { intros p Hp. simpl in Hp. rewrite Hout by lia. apply Hother. lia. }
      split.
      { intros p a' Hp. destruct (Hzero _ _ Hp) as [H1 | H1]; [|right; exact H1].
        destruct (Nat.eq_dec p pos) as [-> | Hne].
        - destruct Hat as (a1 & Ha1 & [-> | ->] & _).
          + left. congruence.
          + right. congruence.
        - left. rewrite <- Hother by exact Hne. exact H1. }
      split.
      { intros [|k] flag0 Hk Hf0.
        - simpl in Hk. injection Hk as <-.
          destruct Hat as (a1 & Ha1 & _ & Hn1 & Hp1).
          exists a1. rewrite Nat.add_0_r, Hout by lia.
          repeat split; assumption.
        - simpl in Hk. destruct (Hin _ _ Hk Hf0) as (a' & Ha' & Hb).
          exists a'. replace (pos + S k)%nat with (S pos + k)%nat by lia.
          split; assumption. }
      intros Hnone. exfalso.
      destruct (Hnone flag ltac:(left)) as [H1 H2]. destruct Hflag; contradiction. }
    destruct (Z.eqb_spec flag (-1)) as [E | E].
    { destruct (action !! pos) as [a|] eqn:Ha; [|discriminate].
      intros Hrun.
      apply (Hstep a (if Rlt_dec a 0 then true else false)
               (if Rlt_dec a 0 then <[pos := 0]> action else action) eq_refl);
        [destruct (Rlt_dec a 0); reflexivity | | | left; exact E | exact Hrun].
      - intros _. destruct (Rlt_dec a 0); [discriminate | intros _; lra].
      - intros E1. lia. }
    destruct (Z.eqb_spec flag 1) as [E1 | E1].
    { destruct (action !! pos) as [a|] eqn:Ha; [|discriminate].
      intros Hrun.
      apply (Hstep a (if Rgt_dec a 0 then true else false)
               (if Rgt_dec a 0 then <[pos := 0]> action else action) eq_refl);
        [destruct (Rgt_dec a 0); reflexivity | | | right; exact E1 | exact Hrun].
      - intros E2. lia.
      - intros _. destruct (Rgt_dec a 0); [discriminate | intros _; lra]. }
    intros Hrun. destruct (IH _ _ _ Hrun) as (Hlen & Hout & Hzero & Hin & Hsame).
    split; [exact Hlen|]. split.
    { intros p Hp. simpl in Hp. apply Hout. lia. }
    split; [exact Hzero|]. split.
    { intros [|k] flag0 Hk Hf0.
      - simpl in Hk. injection Hk as <-. lia.
      - simpl in Hk. destruct (Hin _ _ Hk Hf0) as (a' & Ha' & Hb).
        exists a'. replace (pos + S k)%nat with (S pos + k)%nat by lia.
        split; assumption. }
    intros Hnone. apply Hsame. intros f Hf. apply Hnone. right. exact Hf.
Qed.

Lemma constrain_spec (sc : list R) (sh : Z) (acts : list nat) :
  forall (action : list R) (obs : list Z) (ba : nat) (bs : Z) (action' : list R),
    constrain sc action acts obs sh ba bs = Some action' ->
    length action' = length action /\
    (forall p : nat, (p < ba)%nat -> action' !! p = action !! p) /\
    (forall (p : nat) (a' : R), action' !! p = Some a' ->
       action !! p = Some a' \/ a' = 0) /\
    (forall (b size k : nat),
       acts !! b = Some size -> (k < size)%nat ->
       exists (i : nat) (s : R),
         py_index sc (bs + segments obs sh b - Z.of_nat size + Z.of_nat k) = Some i /\
         sc !! i = Some s /\
         ((s < 0.01 \/ 0.99 < s) ->
          exists a' : R,
            action' !! (ba + sum_list (take b acts) + k)%nat = Some a' /\
            (s < 0.01 -> 0 <= a') /\ (~ s < 0.01 -> 0.99 < s -> a' <= 0))) /\
    ((forall (b size k : nat) (i : nat) (s : R),
        acts !! b = Some size -> (k < size)%nat ->
        py_index sc (bs + segments obs sh b - Z.of_nat size + Z.of_nat k) = Some i ->
        sc !! i = Some s -> 0.01 <= s <= 0.99) ->
     action' = action).
Proof.
  induction acts as [|size acts IH]; intros action obs ba bs action'.
  - simpl. intros [= <-]. split; [reflexivity|]. split; [reflexivity|].
    split; [intros; left; assumption|]. split; [|reflexivity].
    intros b size k Hb. rewrite lookup_nil in Hb. discriminate.
  - cbn [constrain]. destruct obs as [|o obs]; [discriminate|].
    destruct (soc_flags sc (bs + o - sh - Z.of_nat size) size) as [flags|] eqn:Ef;
      [|discriminate].
    destruct (apply_flags action ba flags) as [action1|] eqn:Ea; [|discriminate].
    intros Hrun.
    destruct (soc_flags_spec _ _ _ _ Ef) as [Hfl Hflags].
    destruct (apply_flags_spec _ _ _ _ Ea) as (Hlen1 & Hout1 & Hzero1 & Hin1 & Hsame1).
    destruct (IH _ _ _ _ _ Hrun) as (Hlen & Hbelow & Hzero & Hin & Hsame).
    split; [congruence|]. split.
    { intros p Hp. rewrite Hbelow by lia. apply Hout1. left. exact Hp. }
    split.
    { intros p a' Hp. destruct (Hzero _ _ Hp) as [H1 | H1]; [|right; exact H1].
      apply Hzero1. exact H1. }
    split.
    { intros [|b] size0 k Hb Hk.
      - simpl in Hb. injection Hb as <-.
        destruct (Hflags k Hk) as (i & s & Hi & Hs & Hf).
        exists i, s. unfold segments. simpl.
        replace (bs + (o - sh + 0) - Z.of_nat size + Z.of_nat k)%Z
          with (bs + o - sh - Z.of_nat size + Z.of_nat k)%Z by lia.
        split; [exact Hi|]. split; [exact Hs|]. intros Hext.
        assert (Hflag : (flag_of s = -1 \/ flag_of s = 1)%Z).
        { unfold flag_of. destruct (Rlt_dec s 0.01); [left; reflexivity|].
          destruct (Rgt_dec s 0.99); [right; reflexivity|].
          unfold Rgt in *. destruct Hext; contradiction. }
        destruct (Hin1 _ _ Hf Hflag) as (a' & Ha' & Hneg & Hpos).
        exists a'. rewrite Nat.add_0_r, Hbelow by lia.
        split; [exact Ha'|]. split.
        + intros Hs1. apply Hneg. unfold flag_of.
          destruct (Rlt_dec s 0.01); [reflexivity | contradiction].
        + intros Hn Hs1. apply Hpos. unfold flag_of.
          destruct (Rlt_dec s 0.01); [contradiction|].
          destruct (Rgt_dec s 0.99); [reflexivity|]. unfold Rgt in *. contradiction.
      - simpl in Hb. destruct (Hin _ _ _ Hb Hk) as (i & s & Hi & Hs & Hrest).
        exists i, s. unfold segments in *. simpl.
        replace (bs + (o - sh + fold_right Z.add 0 (map (fun o0 : Z => o0 - sh) (take (S b) obs)))
                 - Z.of_nat size0 + Z.of_nat k)%Z
          with (bs + o - sh + fold_right Z.add 0 (map (fun o0 : Z => o0 - sh) (take (S b) obs))
                - Z.of_nat size0 + Z.of_nat k)%Z by lia.
        split; [exact Hi|]. split; [exact Hs|].
        replace (ba + (size + sum_list (take b acts)) + k)%nat
          with (ba + size + sum_list (take b acts) + k)%nat by lia.
        exact Hrest. }
    intros Hmid.
    assert (E1 : action1 = action).
    { apply Hsame1. intros flag Hflag.
      apply list_elem_of_lookup in Hflag. destruct Hflag as [k Hk].
      assert (Hlt : (k < size)%nat) by (apply lookup_lt_Some in Hk; lia).
      destruct (Hflags k Hlt) as (i & s & Hi & Hs & Hf).
      rewrite Hk in Hf. injection Hf as ->.
      assert (Hb : 0.01 <= s <= 0.99).
      { apply (Hmid 0%nat size k i s); [reflexivity | exact Hlt | | exact Hs].
        unfold segments. simpl.
        replace (bs + (o - sh + 0) - Z.of_nat size + Z.of_nat k)%Z
          with (bs + o - sh - Z.of_nat size + Z.of_nat k)%Z by lia.
        exact Hi. }
      unfold flag_of. destruct (Rlt_dec s 0.01); [lra|].
      destruct (Rgt_dec s 0.99); [unfold Rgt in *; lra|]. split; discriminate. }
    rewrite <- E1. apply Hsame.
    intros b size0 k i s Hb Hk Hi Hs.
    apply (Hmid (S b) size0 k i s); [exact Hb | exact Hk | | exact Hs].
    unfold segments in *. simpl.
    replace (bs + (o - sh + fold_right Z.add 0 (map (fun o0 : Z => o0 - sh) (take (S b) obs)))
             - Z.of_nat size0 + Z.of_nat k)%Z
      with (bs + o - sh + fold_right Z.add 0 (map (fun o0 : Z => o0 - sh) (take (S b) obs))
            - Z.of_nat size0 + Z.of_nat k)%Z by lia.
    exact Hi.
Qed.
(** A state that does not fit the first layer makes the call raise. *)
Lemma select_action_misfit (self : t) (state noise : list R)
    (num_inputs hidden_dim : nat) :
  linear_shape (GaussianPolicy.linear1 (policy self)) num_inputs hidden_dim ->
  (0 < hidden_dim)%nat -> length state <> num_inputs ->
  select_action self state noise = None.
Proof.
  intros (Hrows & _ & Hall) Hpos Hne. unfold select_action.
  assert (E : fits (GaussianPolicy.linear1 (policy self)) state = false).
  { unfold fits. destruct (weight (GaussianPolicy.linear1 (policy self))) as [|row rest];
      [simpl in Hrows; lia|].
    apply Forall_cons in Hall. destruct Hall as [Hrow _].
    simpl. destruct (Nat.eqb_spec (length row) (length state)) as [E | _]; [|reflexivity].
    exfalso. apply Hne. congruence. }
  rewrite E. reflexivity.
Qed.

Lemma select_action_fits (self self' : t) (state noise action : list R)
    (num_inputs hidden_dim : nat) :
  linear_shape (GaussianPolicy.linear1 (policy self)) num_inputs hidden_dim ->
  (0 < hidden_dim)%nat ->
  select_action self state noise = Some (self', action) ->
  length state = num_inputs.
Proof.
  intros Hshape Hpos Hrun.
  destruct (Nat.eq_dec (length state) num_inputs) as [E | Hne]; [exact E|].
  rewrite (select_action_misfit self state noise num_inputs hidden_dim Hshape Hpos Hne)
    in Hrun. discriminate.
Qed.

Lemma apply_linear_length (layer : Linear) (x : Vec) (i o : nat) :
  linear_shape layer i o -> length (apply_linear layer x) = o.
Proof.
  intros (Hw & Hb & _). unfold apply_linear. rewrite length_zip_with. lia.
Qed.

(** The policy of a learner proposes one value per action. *)
Lemma proposed_length (p : GaussianPolicy.t) (state noise : list R)
    (num_inputs num_actions hidden_dim : nat) :
  policy_shape p num_inputs num_actions hidden_dim ->
  length noise = num_actions ->
  length (GaussianPolicy.sample p state noise).1.1 = num_actions /\
  length (GaussianPolicy.sample p state noise).2 = num_actions.
Proof.
  intros (_ & _ & Hm & Hl & Hs & Hb) Hn.
  unfold GaussianPolicy.sample, GaussianPolicy.forward. cbn [fst snd].
  unfold rescale, clamp.
  rewrite !length_zip_with, !length_map, !length_zip_with, !length_map.
  rewrite (apply_linear_length _ _ _ _ Hm), (apply_linear_length _ _ _ _ Hl).
  lia.
Qed.

Lemma actor_shape : policy_shape (policy MoreExamples.actor) 4 1 1.
Proof. repeat split; repeat constructor. Qed.

Lemma actor_selects :
  select_action MoreExamples.actor [0; 0; 0; 0.005] [0] <> None.
Proof.
  unfold select_action. cbn -[Rlt_dec Rgt_dec].
  change (py_index _ _) with (Some 3%nat).
  cbn -[Rlt_dec Rgt_dec]. unfold flag_of.
  repeat match goal with
         | |- context [Rlt_dec ?a ?b] => destruct (Rlt_dec a b)
         | |- context [Rgt_dec ?a ?b] => destruct (Rgt_dec a b)
         end; cbn -[Rlt_dec Rgt_dec];
  repeat match goal with
         | |- context [Rlt_dec ?a ?b] => destruct (Rlt_dec a b)
         | |- context [Rgt_dec ?a ?b] => destruct (Rgt_dec a b)
         end; discriminate.
Qed.

(** The policy of the example proposes a discharge. *)
Lemma actor_proposes_discharge :
  exists m : R,
    (GaussianPolicy.sample (policy MoreExamples.actor) [0; 0; 0; 0.005] [0]).2 = [m] /\
    m < 0.
Proof.
  eexists. split; [reflexivity|].
  unfold dot; simpl.
  replace (0 * Rmax 0 _ + 0 + -4) with (Ropp 4) by ring.
  assert (Eneg : tanh (Ropp 4) = - tanh 4).
  { unfold tanh, sinh, cosh. rewrite Ropp_involutive.
    pose proof (exp_pos 4). pose proof (exp_pos (Ropp 4)). field. lra. }
  rewrite Eneg. pose proof tanh_4_large. lra.
Qed.
End SelectActionProofs.

(** X29: [select_action] never invents an action value.  For a policy
    with the layer shapes of its constructor and one noise value per
    action, a state that has not the policy's number of inputs makes
    the call raise.  When the call returns, the action has one
    component per action, every component is the one proposed by the
    policy (the mean in evaluation, the sampled action otherwise) or 0,
    the action is appended to [action_tracker], and without the
    constraint, or when every state of charge read by the constraint
    lies in [[0.01, 0.99]], it is exactly the proposed action. *)
Theorem select_action_only_zeroes (self : SelectAction.t) (state noise : list R)
    (num_inputs num_actions hidden_dim : nat) :
  SelectAction.policy_shape (SelectAction.policy self) num_inputs num_actions hidden_dim ->
  (0 < hidden_dim)%nat ->
  length noise = num_actions ->
  (length state <> num_inputs -> SelectAction.select_action self state noise = None) /\
  forall (self' : SelectAction.t) (action : list R),
    SelectAction.select_action self state noise = Some (self', action) ->
    let out := GaussianPolicy.sample (SelectAction.policy self) state noise in
    let proposed := if SelectAction.evaluate self then out.2 else out.1.1 in
    length state = num_inputs /\
    length action = num_actions /\
    length proposed = num_actions /\
    (forall (p : nat) (a : R), action !! p = Some a ->
       proposed !! p = Some a \/ a = 0%R) /\
    SelectAction.action_tracker self'
      = SelectAction.action_tracker self ++ [action] /\
    (SelectAction.constrain_action_space self = false -> action = proposed) /\
    ((forall (b size k i : nat) (s : R),
        SelectAction.act_size self !! b = Some size -> (k < size)%nat ->
        PyNum.py_index state
          (SelectAction.state_end (SelectAction.obs_size self)
             (SelectAction.shared_act self) b - Z.of_nat size + Z.of_nat k)
          = Some i ->
        state !! i = Some s -> (0.01 <= s <= 0.99)%R) ->
     action = proposed).
Proof.
  intros Hshape Hhid Hnoise.
  pose proof (proj1 Hshape) as Hl1.
  split.
  { intros Hne.
    apply (select_action_misfit self state noise num_inputs hidden_dim Hl1 Hhid Hne). }
  intros self' action Hrun.
  pose proof (select_action_fits self self' state noise action num_inputs hidden_dim
                Hl1 Hhid Hrun) as Hfit.
  destruct (proposed_length (SelectAction.policy self) state noise
              num_inputs num_actions hidden_dim Hshape Hnoise) as [Hlen_s Hlen_m].
  cbv zeta.
  assert (Hprop : length (if SelectAction.evaluate self
                          then (GaussianPolicy.sample (SelectAction.policy self) state noise).2
                          else (GaussianPolicy.sample (SelectAction.policy self) state noise).1.1)
                  = num_actions).
  { destruct (SelectAction.evaluate self); assumption. }
  revert Hrun Hprop. clear Hlen_s Hlen_m.
  unfold SelectAction.select_action.
  destruct (negb (SelectAction.fits _ state)); [discriminate|].
  destruct (GaussianPolicy.sample (SelectAction.policy self) state noise)
    as [[sampled log_prob] mean] eqn:Es.
  cbn [fst snd].
  set (proposed := if SelectAction.evaluate self then mean else sampled).
  destruct (SelectAction.constrain_action_space self) eqn:Ec.
  - destruct (SelectAction.constrain state proposed _ _ _ _ _) as [constrained|] eqn:Ek;
      [|discriminate].
    intros [= <- <-] Hprop. cbn [SelectAction.action_tracker].
    destruct (constrain_spec _ _ _ _ _ _ _ _ Ek) as (Hlen & _ & Hzero & _ & Hsame).
    split; [exact Hfit|]. split; [congruence|]. split; [exact Hprop|].
    split; [exact Hzero|]. split; [reflexivity|].
    split; [discriminate|].
    intros Hmid. apply Hsame. intros b size k i s Hb Hk Hi Hs.
    apply (Hmid b size k i s Hb Hk); [|exact Hs].
    unfold SelectAction.state_end. exact Hi.
  - intros [= <- <-] Hprop. cbn [SelectAction.action_tracker].
    split; [exact Hfit|]. split; [exact Hprop|]. split; [exact Hprop|].
    split; [intros; left; assumption|].
    split; [reflexivity|]. split; intros; reflexivity.
Qed.

Lemma select_action_only_zeroes_witness :
  SelectAction.select_action MoreExamples.actor [0; 0; 0.005]%R [0%R] = None /\
  exists (self' : SelectAction.t) (action : list R),
    SelectAction.select_action MoreExamples.actor [0; 0; 0; 0.005]%R [0%R]
      = Some (self', action) /\
    SelectAction.action_tracker self' = [action] /\
    length action = 1%nat.
Proof.
  split.
  - apply (proj1 (select_action_only_zeroes MoreExamples.actor [0; 0; 0.005]%R [0%R]
                    4%nat 1%nat 1%nat actor_shape (le_n 1) eq_refl)).
    discriminate.
  - destruct (SelectAction.select_action MoreExamples.actor [0; 0; 0; 0.005]%R [0%R])
      as [[self' action]|] eqn:E.
    + exists self', action. split; [reflexivity|].
      destruct (proj2 (select_action_only_zeroes MoreExamples.actor
                         [0; 0; 0; 0.005]%R [0%R] 4%nat 1%nat 1%nat
                         actor_shape (le_n 1) eq_refl) self' action E)
        as (_ & Hlen & _ & _ & Htr & _).
      split; [exact Htr | exact Hlen].
    + exfalso. exact (actor_selects E).
Defined.

(** X30: the feasibility constraint of [select_action].  For a policy
    with the layer shapes of its constructor and one noise value per
    action: with [constrain_action_space] set, for action [k] of
    building [b] a call that returns has read the state entry at index
    [bs_end_idx - act_size[b] + k], and when that entry is below 0.01
    (storage empty) the returned action at index [ba_idx + k] is not
    negative, when it is above 0.99 (storage full) that action is not
    positive. *)
Theorem select_action_respects_soc (self self' : SelectAction.t)
    (state noise action : list R) (num_inputs num_actions hidden_dim b size k : nat) :
  SelectAction.policy_shape (SelectAction.policy self) num_inputs num_actions hidden_dim ->
  (0 < hidden_dim)%nat ->
  length noise = num_actions ->
  SelectAction.constrain_action_space self = true ->
  SelectAction.select_action self state noise = Some (self', action) ->
  SelectAction.act_size self !! b = Some size ->
  (k < size)%nat ->
  length state = num_inputs /\
  exists (i : nat) (s : R),
    PyNum.py_index state
      (SelectAction.state_end (SelectAction.obs_size self)
         (SelectAction.shared_act self) b - Z.of_nat size + Z.of_nat k) = Some i /\
    state !! i = Some s /\
    ((s < 0.01 \/ 0.99 < s)%R ->
     exists a : R,
       action !! (SelectAction.action_offset (SelectAction.act_size self) b + k)%nat
         = Some a /\
       ((s < 0.01)%R -> (0 <= a)%R) /\
       ((0.99 < s)%R -> (a <= 0)%R)).
Proof.
  intros Hshape Hhid Hnoise Hc Hrun Hb Hk.
  split.
  { apply (select_action_fits self self' state noise action num_inputs hidden_dim
             (proj1 Hshape) Hhid Hrun). }
  revert Hrun. unfold SelectAction.select_action. rewrite Hc.
  destruct (negb (SelectAction.fits _ state)); [discriminate|].
  destruct (GaussianPolicy.sample (SelectAction.policy self) state noise)
    as [[sampled log_prob] mean].
  destruct (SelectAction.constrain state _ _ _ _ _ _) as [constrained|] eqn:Ek;
    [|discriminate].
  intros [= <- <-].
  destruct (constrain_spec _ _ _ _ _ _ _ _ Ek) as (_ & _ & _ & Hin & _).
  destruct (Hin b size k Hb Hk) as (i & s & Hi & Hs & Hrest).
  exists i, s. unfold SelectAction.state_end, SelectAction.action_offset.
  split; [exact Hi|]. split; [exact Hs|]. intros Hext.
  destruct (Hrest Hext) as (a & Ha & Hneg & Hpos).
  exists a. split; [exact Ha|]. split; [exact Hneg|].
  intros Hs1. apply Hpos; [lra | exact Hs1].
Qed.

Lemma select_action_respects_soc_witness :
  exists (self' : SelectAction.t) (action : list R) (m a : R),
    (GaussianPolicy.sample (SelectAction.policy MoreExamples.actor)
       [0; 0; 0; 0.005]%R [0%R]).2 = [m] /\ (m < 0)%R /\
    SelectAction.select_action MoreExamples.actor [0; 0; 0; 0.005]%R [0%R]
      = Some (self', action) /\
    action !! 0%nat = Some a /\ (0 <= a)%R.
Proof.
  destruct actor_proposes_discharge as (m & Hm & Hneg_m).
  destruct (SelectAction.select_action MoreExamples.actor [0; 0; 0; 0.005]%R [0%R])
    as [[self' action]|] eqn:E.
  - destruct (select_action_respects_soc MoreExamples.actor self'
                [0; 0; 0; 0.005]%R [0%R] action 4%nat 1%nat 1%nat 0%nat 1%nat 0%nat
                actor_shape (le_n 1) eq_refl eq_refl E eq_refl (le_n 1))
      as (_ & i & s & Hi & Hs & Hrest).
    change (Some 3%nat = Some i) in Hi. injection Hi as <-.
    change (Some 0.005%R = Some s) in Hs. injection Hs as <-.
    destruct (Hrest ltac:(left; lra)) as (a & Ha & Hneg & _).
    exists self', action, m, a. split; [exact Hm|]. split; [exact Hneg_m|].
    split; [reflexivity|]. split; [exact Ha|].
    apply Hneg. lra.
  - exfalso. exact (actor_selects E).
Defined.
